(** * Risk scoring and adaptive strategy selection: a shallow embedding

    This development embeds the decision logic of the phishing
    attack/defense simulator:

    - [DecisionTreeClassifier] with its analyzers ([URLAnalyzer],
      [KeywordAnalyzer], [SenderAnalyzer], [GrammarAnalyzer]),
    - the inline scorer [AutonomousDefenseAgent.classifyEmail] with its own
      [analyzeUrlAuthenticity],
    - [StrategyTrainer]: [initializeDefaultScores], [calculateSuccessScore],
      [getEmailStatuses], [learnFromCycle], [selectBestTargets].

    Modelling conventions.
    - JavaScript strings are modelled as [string] (sequences of 8-bit
      characters); [toLowerCase]/[toUpperCase] act on the ASCII letters.
    - Integer-valued JavaScript numbers (scores, counts) are [Z] or [nat].
    - The learning rates and composite scores are JavaScript doubles in the
      source; they are modelled by exact rationals [Q], compared with [==].
      Rounding of IEEE-754 arithmetic is therefore abstracted away.
    - Objects used as dictionaries are [gmap string _].  The table
      [emailMap] of [getEmailStatuses], whose keys are email ids, is read
      as the plain object it is, with the members it inherits from
      [Object.prototype].
    - The wall-clock field [lastUpdated] and log output are not modelled. *)

From Stdlib Require Import ZArith QArith Qminmax Qround Lqa Lia Bool List Ascii String.
From Stdlib Require Import Permutation Sorted.
From stdpp Require Import gmap strings list pretty.

Local Open Scope string_scope.

(** ** JavaScript string primitives *)

Module Js.

Definition isUpperLetter (c : ascii) : bool :=
  let n := nat_of_ascii c in Nat.leb 65 n && Nat.leb n 90.

Definition isLowerLetter (c : ascii) : bool :=
  let n := nat_of_ascii c in Nat.leb 97 n && Nat.leb n 122.

Definition isDigit (c : ascii) : bool :=
  let n := nat_of_ascii c in Nat.leb 48 n && Nat.leb n 57.

(** [\s] restricted to the 8-bit range: tab, LF, VT, FF, CR, space. *)
Definition isSpace (c : ascii) : bool :=
  let n := nat_of_ascii c in (Nat.leb 9 n && Nat.leb n 13) || Nat.eqb n 32.

Definition lowerAscii (c : ascii) : ascii :=
  if isUpperLetter c then ascii_of_nat (nat_of_ascii c + 32) else c.

Definition upperAscii (c : ascii) : ascii :=
  if isLowerLetter c then ascii_of_nat (nat_of_ascii c - 32) else c.

Fixpoint mapString (f : ascii -> ascii) (s : string) : string :=
  match s with
  | EmptyString => EmptyString
  | String c s' => String (f c) (mapString f s')
  end.

Definition toLowerCase : string -> string := mapString lowerAscii.
Definition toUpperCase : string -> string := mapString upperAscii.

(** [s.startsWith(p)] *)
Fixpoint startsWith (s p : string) : bool :=
  match p, s with
  | EmptyString, _ => true
  | String _ _, EmptyString => false
  | String a p', String b s' => Ascii.eqb a b && startsWith s' p'
  end.

(** [s.includes(p)] *)
Fixpoint includes (s p : string) : bool :=
  startsWith s p ||
  match s with
  | EmptyString => false
  | String _ s' => includes s' p
  end.

Fixpoint drop (n : nat) (s : string) : string :=
  match n, s with
  | O, _ => s
  | S _, EmptyString => EmptyString
  | S n', String _ s' => drop n' s'
  end.

Fixpoint takeWhile (p : ascii -> bool) (s : string) : string :=
  match s with
  | EmptyString => EmptyString
  | String c s' => if p c then String c (takeWhile p s') else EmptyString
  end.

(** [s.split(sep)] for a one-character separator: always at least one
    part. *)
Fixpoint splitChar (sep : ascii) (s : string) : list string :=
  match s with
  | EmptyString => [EmptyString]
  | String c s' =>
      if Ascii.eqb c sep then EmptyString :: splitChar sep s'
      else match splitChar sep s' with
           | [] => [String c EmptyString]
           | p :: ps => String c p :: ps
           end
  end.

(** [s.split(/\s+/)]: the separators are the maximal whitespace runs; a
    leading or trailing run yields an empty first or last part. *)
Fixpoint splitSpaces (s : string) : list string :=
  match s with
  | EmptyString => [EmptyString]
  | String c s' =>
      if isSpace c then
        match s' with
        | String d _ => if isSpace d then splitSpaces s' else EmptyString :: splitSpaces s'
        | EmptyString => [EmptyString; EmptyString]
        end
      else match splitSpaces s' with
           | [] => [String c EmptyString]
           | p :: ps => String c p :: ps
           end
  end.

(** Number of matches of [text.match(new RegExp(escaped keyword, 'g'))]:
    occurrences of the literal, found left to right without overlap.  The
    counter [skip] holds how many characters of the last match remain. *)
Fixpoint countFrom (skip : nat) (kw s : string) : nat :=
  match s with
  | EmptyString => 0
  | String _ s' =>
      match skip with
      | S k => countFrom k kw s'
      | O => if startsWith s kw
             then S (countFrom (String.length kw - 1) kw s')
             else countFrom 0 kw s'
      end
  end.

Definition countMatches (kw s : string) : nat :=
  if String.eqb kw EmptyString then S (String.length s) else countFrom 0 kw s.

(** *** Regular expressions

    The patterns of the source are used through [RegExp.prototype.test] or
    as a truthiness check on [String.prototype.match], so only the
    existence of a match matters.  Patterns are matched with derivatives. *)

Inductive regex : Type :=
| RNone
| REps
| RChr (p : ascii -> bool)
| RCat (r1 r2 : regex)
| RAlt (r1 r2 : regex)
| RStar (r : regex).

Fixpoint nullable (r : regex) : bool :=
  match r with
  | RNone => false
  | REps => true
  | RChr _ => false
  | RCat r1 r2 => nullable r1 && nullable r2
  | RAlt r1 r2 => nullable r1 || nullable r2
  | RStar _ => true
  end.

Definition mkCat (r1 r2 : regex) : regex :=
  match r1, r2 with
  | RNone, _ => RNone
  | _, RNone => RNone
  | REps, _ => r2
  | _, _ => RCat r1 r2
  end.

Definition mkAlt (r1 r2 : regex) : regex :=
  match r1, r2 with
  | RNone, _ => r2
  | _, RNone => r1
  | _, _ => RAlt r1 r2
  end.

Fixpoint deriv (c : ascii) (r : regex) : regex :=
  match r with
  | RNone => RNone
  | REps => RNone
  | RChr p => if p c then REps else RNone
  | RCat r1 r2 =>
      if nullable r1 then mkAlt (mkCat (deriv c r1) r2) (deriv c r2)
      else mkCat (deriv c r1) r2
  | RAlt r1 r2 => mkAlt (deriv c r1) (deriv c r2)
  | RStar r1 => mkCat (deriv c r1) (RStar r1)
  end.

(** Some prefix of [s] matches [r]. *)
Fixpoint matchesPrefix (r : regex) (s : string) : bool :=
  nullable r ||
  match s with
  | EmptyString => false
  | String c s' => matchesPrefix (deriv c r) s'
  end.

(** [r.test(s)] for a pattern without the [g] flag. *)
Fixpoint test (r : regex) (s : string) : bool :=
  matchesPrefix r s ||
  match s with
  | EmptyString => false
  | String _ s' => test r s'
  end.

Definition chr (a : ascii) : regex := RChr (Ascii.eqb a).
(** A literal character under the [i] flag. *)
Definition chri (a : ascii) : regex :=
  RChr (fun c => Ascii.eqb (lowerAscii c) (lowerAscii a)).

Fixpoint lit (s : string) : regex :=
  match s with
  | EmptyString => REps
  | String c s' => RCat (chr c) (lit s')
  end.

Fixpoint liti (s : string) : regex :=
  match s with
  | EmptyString => REps
  | String c s' => RCat (chri c) (liti s')
  end.

Fixpoint alts (rs : list regex) : regex :=
  match rs with
  | [] => RNone
  | [r] => r
  | r :: rs' => RAlt r (alts rs')
  end.

Definition plus (r : regex) : regex := RCat r (RStar r).
Definition opt (r : regex) : regex := RAlt REps r.

(** [r{n}] and [r{0,n}] *)
Fixpoint times (n : nat) (r : regex) : regex :=
  match n with O => REps | S n' => RCat r (times n' r) end.
Fixpoint upTo (n : nat) (r : regex) : regex :=
  match n with O => REps | S n' => opt (RCat r (upTo n' r)) end.

Definition digit : regex := RChr isDigit.
(** [[a-z0-9]] under the [i] flag *)
Definition alnumi : regex :=
  RChr (fun c => isLowerLetter (lowerAscii c) || isDigit c).
(** [[a-z]] under the [i] flag *)
Definition alphai : regex := RChr (fun c => isLowerLetter (lowerAscii c)).

End Js.

(** ** URLAnalyzer (decision-tree-classifier module) *)

Module URLAnalyzer.
Import Js.

Definition notSlash (c : ascii) : bool := negb (Ascii.eqb c "/"%char).

(** The pattern [/https?:\/\/([^\/]+)/i] anchored at the start of [s]:
    the captured group, when the pattern matches there. *)
Definition hostAt (s : string) : option string :=
  let l := toLowerCase s in
  let rest := if startsWith l "https://" then Some (drop 8 s)
              else if startsWith l "http://" then Some (drop 7 s)
              else None in
  match rest with
  | Some (String c r) =>
      if notSlash c then Some (takeWhile notSlash (String c r)) else None
  | _ => None
  end.

(** [url.match(/https?:\/\/([^\/]+)/i)]: group 1 of the leftmost match. *)
Fixpoint matchHost (s : string) : option string :=
  match hostAt s with
  | Some h => Some h
  | None => match s with
            | EmptyString => None
            | String _ s' => matchHost s'
            end
  end.

Definition stripWww (s : string) : string :=
  if startsWith s "www." then drop 4 s else s.

Definition extractDomain (url : string) : option string :=
  match matchHost url with
  | Some h => Some (stripWww (toLowerCase h))
  | None => None
  end.

Definition extractDomainFromEmail (email : string) : option string :=
  if String.eqb email "" || negb (includes email "@") then None
  else match splitChar "@"%char email with
       | _ :: d :: _ => Some (toLowerCase d)
       | _ => None
       end.

(** Truthiness of a value that is [null] or a string. *)
Definition truthy (o : option string) : bool :=
  match o with
  | Some s => negb (String.eqb s "")
  | None => false
  end.

Definition domainsDiffer (a b : option string) : bool :=
  match a, b with
  | Some x, Some y => negb (String.eqb x y)
  | _, _ => false
  end.

(** [/[a-z0-9]+-[a-z0-9]+\.(com|net|org)/i] *)
Definition hyphenatedDomain : regex :=
  RCat (plus alnumi) (RCat (chr "-"%char) (RCat (plus alnumi)
    (RCat (chr "."%char) (alts [liti "com"; liti "net"; liti "org"])))).

(** [/free|click|link|verify|secure/i] *)
Definition baitWords : regex :=
  alts [liti "free"; liti "click"; liti "link"; liti "verify"; liti "secure"].

Definition suspiciousPatterns : list regex := [hyphenatedDomain; baitWords].

Definition hasSuspiciousPatterns (urls : list string) : bool :=
  existsb (fun url => existsb (fun pattern => test pattern url) suspiciousPatterns) urls.

(** [/bit\.ly|tinyurl|t\.co|goo\.gl|short\.link|ow\.ly|is\.gd/i] *)
Definition shortenerPatterns : list regex :=
  [alts [liti "bit.ly"; liti "tinyurl"; liti "t.co"; liti "goo.gl";
         liti "short.link"; liti "ow.ly"; liti "is.gd"]].

Definition hasUrlShorteners (urls : list string) : bool :=
  existsb (fun url => existsb (fun pattern => test pattern url) shortenerPatterns) urls.

(** [[0-9]{1,3}] *)
Definition octet : regex := RCat digit (upTo 2 digit).

(** [/[0-9]{1,3}\.[0-9]{1,3}\.[0-9]{1,3}\.[0-9]{1,3}/] *)
Definition ipPattern : regex :=
  RCat octet (RCat (chr "."%char) (RCat octet (RCat (chr "."%char)
    (RCat octet (RCat (chr "."%char) octet))))).

Definition hasIpAddresses (urls : list string) : bool :=
  existsb (fun url => test ipPattern url) urls.

Definition hasHttpLinks (urls : list string) : bool :=
  existsb (fun url => startsWith url "http://") urls.

Definition checkDomainMismatch (urls : list string) (senderEmail : string) : bool :=
  if Nat.eqb (List.length urls) 0 || String.eqb senderEmail "" then false
  else
    let senderDomain := extractDomainFromEmail senderEmail in
    if negb (truthy senderDomain) then false
    else existsb (fun url =>
                    let urlDomain := extractDomain url in
                    truthy urlDomain && domainsDiffer urlDomain senderDomain) urls.

(** One iteration of the [for (const url of urls)] loop of
    [analyzeAuthenticity]: the running score after the five checks. *)
Definition scoreUrl (senderEmail : string) (authenticityScore : Z) (url : string) : Z :=
  let urlDomain := extractDomain url in
  let senderDomain := extractDomainFromEmail senderEmail in
  let s1 := if truthy senderDomain && truthy urlDomain && domainsDiffer urlDomain senderDomain
            then (authenticityScore - 30)%Z else authenticityScore in
  let s2 := if hasSuspiciousPatterns [url] then (s1 - 25)%Z else s1 in
  let s3 := if hasUrlShorteners [url] then (s2 - 20)%Z else s2 in
  let s4 := if hasIpAddresses [url] then (s3 - 35)%Z else s3 in
  if hasHttpLinks [url] then (s4 - 15)%Z else s4.

(** The third parameter of the source, [content], is never read. *)
Definition analyzeAuthenticity (urls : list string) (senderEmail : string) : Z :=
  if Nat.eqb (List.length urls) 0 then 100%Z
  else Z.max 0 (Z.min 100 (fold_left (scoreUrl senderEmail) urls 100%Z)).

(** The class of characters a URL match may contain: anything but
    whitespace, angle brackets, the double quote, braces, the bar, the
    backslash, the caret, the backtick and square brackets. *)
Definition urlChar (c : ascii) : bool :=
  negb (isSpace c ||
        existsb (Ascii.eqb c)
          ["<"; ">"; "034"; "{"; "}"; "|"; "\"; "^"; "`"; "["; "]"]%char).

Definition urlAt (s : string) : option string :=
  let l := toLowerCase s in
  let n := if startsWith l "https://" then Some 8
           else if startsWith l "http://" then Some 7 else None in
  match n with
  | Some k =>
      match drop k s with
      | String c r =>
          if urlChar c
          then Some (String.substring 0 (k + String.length (takeWhile urlChar (String c r))) s)
          else None
      | EmptyString => None
      end
  | None => None
  end.

(** All matches, left to right and without overlap; [skip] counts the
    characters of the previous match still to be passed. *)
Fixpoint urlsFrom (skip : nat) (s : string) : list string :=
  match s with
  | EmptyString => []
  | String _ s' =>
      match skip with
      | S k => urlsFrom k s'
      | O => match urlAt s with
             | Some u => u :: urlsFrom (String.length u - 1) s'
             | None => urlsFrom 0 s'
             end
      end
  end.

Definition extractUrls (text : string) : list string :=
  if String.eqb text "" then [] else urlsFrom 0 text.

End URLAnalyzer.

(** ** KeywordAnalyzer *)

Module KeywordAnalyzer.
Import Js.

Definition urgencyKeywords : list string :=
  ["urgent"; "immediate"; "critical"; "asap"; "action required";
   "verify now"; "confirm immediately"; "expires soon"; "limited time"].
Definition credentialKeywords : list string :=
  ["password"; "credentials"; "login"; "account"; "verify account";
   "update account"; "suspended"; "locked"; "reset password"].
Definition financialKeywords : list string :=
  ["payment"; "invoice"; "refund"; "transaction"; "wire transfer";
   "unauthorized charge"; "billing"; "overdue"].
Definition securityKeywords : list string :=
  ["security breach"; "unauthorized access"; "suspicious activity";
   "fraud detected"; "verify identity"; "security alert"].
Definition threatKeywords : list string :=
  ["account closed"; "terminate"; "expire"; "delete"; "permanent";
   "legal action"; "suspended"].
Definition callToActionKeywords : list string :=
  ["click here"; "verify"; "confirm"; "update"; "reactivate";
   "restore"; "unlock"; "click the link"].
Definition suspiciousPhrases : list string :=
  ["click the link below"; "verify your identity"; "confirm your account";
   "update your information"; "your account has been"].
Definition authorityKeywords : list string :=
  ["bank"; "irs"; "fbi"; "government"; "court"; "legal"; "police";
   "federal"; "official"].
Definition scarcityKeywords : list string :=
  ["limited time"; "expires soon"; "last chance"; "only today";
   "act now"; "don't miss"].
Definition consistencyKeywords : list string :=
  ["your account"; "your profile"; "your information"; "we noticed";
   "your data"; "your details"].

(** The loop adds, for each keyword, the number of matches of the keyword
    (escaped, flags [gi]) in the lower-cased text. *)
Definition countKeywords (text : string) (keywords : list string) : Z :=
  let lowerText := toLowerCase text in
  fold_left (fun count keyword => (count + Z.of_nat (countMatches keyword lowerText))%Z)
            keywords 0%Z.

Definition joined (subject content : string) : string :=
  subject ++ " " ++ content.

Definition countUrgencyKeywords (subject content : string) : Z :=
  countKeywords (joined subject content) urgencyKeywords.
Definition countCredentialKeywords (subject content : string) : Z :=
  countKeywords (joined subject content) credentialKeywords.
Definition countFinancialKeywords (subject content : string) : Z :=
  countKeywords (joined subject content) financialKeywords.
Definition countSecurityKeywords (subject content : string) : Z :=
  countKeywords (joined subject content) securityKeywords.
Definition countThreatKeywords (subject content : string) : Z :=
  countKeywords (joined subject content) threatKeywords.
Definition countCallToActionKeywords (content : string) : Z :=
  countKeywords content callToActionKeywords.
Definition countSuspiciousPhrases (content : string) : Z :=
  countKeywords content suspiciousPhrases.
Definition hasAuthorityImpersonation (content : string) : bool :=
  (0 <? countKeywords content authorityKeywords)%Z.
Definition hasScarcityTactics (content : string) : bool :=
  (0 <? countKeywords content scarcityKeywords)%Z.
Definition hasConsistencyTactics (content : string) : bool :=
  (2 <=? countKeywords content consistencyKeywords)%Z.

End KeywordAnalyzer.

(** ** SenderAnalyzer *)

Module SenderAnalyzer.
Import Js.

(** [/noreply|no-reply|donotreply/i], [/support[0-9]|security[0-9]|admin[0-9]/i],
    [/[a-z]+[0-9]+@/i] *)
Definition suspiciousPatterns : list regex :=
  [alts [liti "noreply"; liti "no-reply"; liti "donotreply"];
   alts [RCat (liti "support") digit; RCat (liti "security") digit;
         RCat (liti "admin") digit];
   RCat (plus alphai) (RCat (plus digit) (chr "@"%char))].

Definition hasSuspiciousPattern (senderEmail : string) : bool :=
  existsb (fun pattern => test pattern senderEmail) suspiciousPatterns.

Definition trustedDomains : list string :=
  ["securebank.com"; "bank.com"; "company.com"; "corp.com"].

Definition analyzeDomainReputation (senderEmail : string) : Z :=
  if String.eqb senderEmail "" || negb (includes senderEmail "@") then 50%Z
  else
    let domain := toLowerCase (nth 1 (splitChar "@"%char senderEmail) "") in
    if existsb (fun td => includes domain td) trustedDomains then 90%Z
    else if Nat.ltb (String.length domain) 8 || includes domain "free"
            || includes domain "click" then 30%Z
    else 60%Z.

(** [senderName] is accepted and ignored by the source. *)
Definition analyzeAuthenticity (senderEmail senderName : string) : Z :=
  if String.eqb senderEmail "" then 50%Z
  else
    let s0 := 100%Z in
    let s1 := if hasSuspiciousPattern senderEmail then (s0 - 30)%Z else s0 in
    let domainRep := analyzeDomainReputation senderEmail in
    let s2 := (s1 + (domainRep - 50))%Z in
    let s3 := if includes senderEmail "noreply" || includes senderEmail "no-reply"
              then (s2 - 10)%Z else s2 in
    let s4 := if test (RCat (times 4 digit) (RStar digit)) senderEmail
              then (s3 - 15)%Z else s3 in
    Z.max 0 (Z.min 100 s4).

End SenderAnalyzer.

(** ** GrammarAnalyzer *)

Module GrammarAnalyzer.
Import Js.

Definition grammarMistakes : list regex :=
  [liti "youre account"; liti "your account is been"; liti "please to click";
   liti "kindly do the needful"; liti "urgent require"; liti "is been";
   liti "has been been"].

Definition analyzeGrammar (content : string) : Z :=
  if String.eqb content "" || Nat.ltb (String.length content) 10 then 50%Z
  else
    let s1 := fold_left (fun score mistake =>
                           if test mistake content then (score - 15)%Z else score)
                        grammarMistakes 100%Z in
    let words := splitSpaces content in
    let allCapsWords :=
      List.length (List.filter (fun w => String.eqb w (toUpperCase w)
                                         && Nat.ltb 2 (String.length w)) words) in
    (* allCapsWords > words.length * 0.1 *)
    let s2 := if Nat.ltb (List.length words) (10 * allCapsWords)
              then (s1 - 10)%Z else s1 in
    Z.max 0 (Z.min 100 s2).

Definition greetings : list string :=
  ["dear"; "hello"; "hi"; "greetings"; "good morning"; "good afternoon"].
Definition closings : list string :=
  ["sincerely"; "best regards"; "regards"; "yours truly"; "respectfully";
   "thank you"; "thanks"].

Definition hasProfessionalGreeting (content : string) : bool :=
  existsb (fun g => includes (toLowerCase content) g) greetings.
Definition hasProfessionalClosing (content : string) : bool :=
  existsb (fun c => includes (toLowerCase content) c) closings.

Definition professionalIndicators : list string :=
  ["please"; "thank you"; "sincerely"; "best regards"; "regards";
   "dear"; "yours truly"; "respectfully"].

(** [[-.\s]?] *)
Definition phoneSep : regex :=
  opt (RChr (fun c => Ascii.eqb c "-"%char || Ascii.eqb c "."%char || isSpace c)).

(** [/\d{3}[-.\s]?\d{3}[-.\s]?\d{4}/] *)
Definition phonePattern : regex :=
  RCat (times 3 digit) (RCat phoneSep (RCat (times 3 digit)
    (RCat phoneSep (times 4 digit)))).

(** [/company|corporation|inc\.|llc|limited/i] *)
Definition companyPattern : regex :=
  alts [liti "company"; liti "corporation"; liti "inc."; liti "llc"; liti "limited"].

Definition analyzeProfessionalism (content : string) : Z :=
  if String.eqb content "" then 50%Z
  else
    let s1 := fold_left (fun score indicator =>
                           if includes (toLowerCase content) indicator
                           then (score + 5)%Z else score)
                        professionalIndicators 50%Z in
    let s2 := if hasProfessionalGreeting content && hasProfessionalClosing content
              then (s1 + 20)%Z else s1 in
    let s3 := if test phonePattern content then (s2 + 10)%Z else s2 in
    let s4 := if test companyPattern content then (s3 + 5)%Z else s3 in
    Z.min 100 s4.

(** [/[!?]{2,}/g] has a match. *)
Definition hasExcessivePunctuation (subject : string) : bool :=
  if String.eqb subject "" then false
  else
    let mark := RChr (fun c => Ascii.eqb c "!"%char || Ascii.eqb c "?"%char) in
    test (RCat (times 2 mark) (RStar mark)) subject.

End GrammarAnalyzer.

(** ** Email records and verdicts *)

(** The fields of an email object that the classifiers read; [None] stands
    for an absent ([undefined] or [null]) field. *)
Record email : Type := mkEmail {
  subject : option string;
  content : option string;
  sender : option string;
  senderEmail : option string;
  urls : option (list string)
}.

(** [(x || '')] *)
Definition orEmpty (o : option string) : string :=
  match o with Some s => s | None => "" end.

(** [email.urls || extractUrls(content) || []], where [content] is the
    lower-cased content. *)
Definition urlsOfEmail (e : email) : list string :=
  match urls e with
  | Some us => us
  | None => URLAnalyzer.extractUrls (Js.toLowerCase (orEmpty (content e)))
  end.

Inductive riskLevel : Type := low | medium | high.

Record verdict : Type := mkVerdict {
  v_riskLevel : riskLevel;
  v_riskScore : Z;
  v_confidence : Q;
  v_reasoning : string
}.

(** The part of a verdict that the specification fixes. *)
Definition verdictCore (v : verdict) : riskLevel * Z * Q :=
  (v_riskLevel v, v_riskScore v, v_confidence v).

(** ** DecisionTreeClassifier *)

Module DecisionTreeClassifier.
Import Js.

(** The feature object.  [spellingScore] and [hasAttachments], which no
    rule reads, are left out. *)
Record features : Type := mkFeatures {
  hasUrls : bool;
  urlCount : Z;
  urlAuthenticityScore : Z;
  hasSuspiciousUrls : bool;
  hasUrlShorteners : bool;
  hasIpAddresses : bool;
  hasHttpLinks : bool;
  urlDomainMismatch : bool;
  urgencyKeywords : Z;
  credentialKeywords : Z;
  financialKeywords : Z;
  securityKeywords : Z;
  threatKeywords : Z;
  callToActionKeywords : Z;
  suspiciousPhrases : Z;
  senderAuthenticityScore : Z;
  hasSuspiciousSenderPattern : bool;
  senderDomainReputation : Z;
  grammarScore : Z;
  professionalismScore : Z;
  hasProfessionalGreeting : bool;
  hasProfessionalClosing : bool;
  authorityImpersonation : bool;
  scarcityTactics : bool;
  consistencyTactics : bool;
  subjectLength : Z;
  contentLength : Z;
  hasExcessivePunctuation : bool;
  subjectAllCaps : bool;
  totalUrgencyScore : Z;
  totalSuspicionScore : Z
}.

(** [extractFeatures] returns the object literal directly: its statement
    is [return { ..., totalUrgencyScore: 0, totalSuspicionScore: 0 };].
    The two assignments that follow it in the source
    ([features.totalUrgencyScore = ...], [features.totalSuspicionScore = ...])
    come after the [return] and are never executed. *)
Definition extractFeatures (e : email) : features :=
  let subject := toLowerCase (orEmpty (subject e)) in
  let content := toLowerCase (orEmpty (content e)) in
  let sender := toLowerCase (orEmpty (sender e)) in
  let senderEmail := toLowerCase (orEmpty (senderEmail e)) in
  let urls := urlsOfEmail e in
  {| hasUrls := Nat.ltb 0 (List.length urls);
     urlCount := Z.of_nat (List.length urls);
     urlAuthenticityScore := URLAnalyzer.analyzeAuthenticity urls senderEmail;
     hasSuspiciousUrls := URLAnalyzer.hasSuspiciousPatterns urls;
     hasUrlShorteners := URLAnalyzer.hasUrlShorteners urls;
     hasIpAddresses := URLAnalyzer.hasIpAddresses urls;
     hasHttpLinks := URLAnalyzer.hasHttpLinks urls;
     urlDomainMismatch := URLAnalyzer.checkDomainMismatch urls senderEmail;
     urgencyKeywords := KeywordAnalyzer.countUrgencyKeywords subject content;
     credentialKeywords := KeywordAnalyzer.countCredentialKeywords subject content;
     financialKeywords := KeywordAnalyzer.countFinancialKeywords subject content;
     securityKeywords := KeywordAnalyzer.countSecurityKeywords subject content;
     threatKeywords := KeywordAnalyzer.countThreatKeywords subject content;
     callToActionKeywords := KeywordAnalyzer.countCallToActionKeywords content;
     suspiciousPhrases := KeywordAnalyzer.countSuspiciousPhrases content;
     senderAuthenticityScore := SenderAnalyzer.analyzeAuthenticity senderEmail sender;
     hasSuspiciousSenderPattern := SenderAnalyzer.hasSuspiciousPattern senderEmail;
     senderDomainReputation := SenderAnalyzer.analyzeDomainReputation senderEmail;
     grammarScore := GrammarAnalyzer.analyzeGrammar content;
     professionalismScore := GrammarAnalyzer.analyzeProfessionalism content;
     hasProfessionalGreeting := GrammarAnalyzer.hasProfessionalGreeting content;
     hasProfessionalClosing := GrammarAnalyzer.hasProfessionalClosing content;
     authorityImpersonation := KeywordAnalyzer.hasAuthorityImpersonation content;
     scarcityTactics := KeywordAnalyzer.hasScarcityTactics content;
     consistencyTactics := KeywordAnalyzer.hasConsistencyTactics content;
     subjectLength := Z.of_nat (String.length subject);
     contentLength := Z.of_nat (String.length content);
     hasExcessivePunctuation := GrammarAnalyzer.hasExcessivePunctuation subject;
     subjectAllCaps := String.eqb subject (toUpperCase subject)
                       && Nat.ltb 10 (String.length subject);
     totalUrgencyScore := 0;
     totalSuspicionScore := 0 |}.

(** The right-hand sides of the two assignments written after the
    [return] of [extractFeatures] (under the comment "Calculate combined
    scores"). *)
Definition combinedUrgencyScore (f : features) : Z :=
  (urgencyKeywords f * 3
   + (if hasExcessivePunctuation f then 5 else 0)
   + (if subjectAllCaps f then 8 else 0))%Z.

Definition combinedSuspicionScore (f : features) : Z :=
  (credentialKeywords f * 4
   + securityKeywords f * 3
   + threatKeywords f * 3
   + callToActionKeywords f * 2
   + (if (urlAuthenticityScore f <? 50)%Z then 10 else 0)
   + (if (senderAuthenticityScore f <? 50)%Z then 8 else 0))%Z.

(** A tree node is an object that may carry [riskLevel] (a leaf), or a
    [condition] with a [trueBranch] and a [falseBranch].  A condition
    returns [true], [false] or [null] ([None]). *)
#[local] Set Warnings "-register-all".
Inductive node : Type :=
| Leaf (v : verdict)
| Inner (condition : option (features -> option bool))
        (trueBranch falseBranch : option node).

Definition decide2 (c : features -> bool) (t e : node) : node :=
  Inner (Some (fun f => Some (c f))) (Some t) (Some e).

Definition buildDecisionTree : node :=
  Inner (Some (fun f => if hasUrls f
                        then Some (urlAuthenticityScore f <? 30)%Z
                        else None))
    (Some (Leaf (mkVerdict high 85 (9 # 10)
                   "Suspicious or unauthentic URLs detected in email")))
    (Some
  (decide2 (fun f => (2 <=? credentialKeywords f)%Z && (2 <=? urgencyKeywords f)%Z)
    (Leaf (mkVerdict high 80 (85 # 100)
             "Credential requests combined with urgency indicators"))
  (decide2 (fun f => urlDomainMismatch f)
    (Leaf (mkVerdict high 75 (8 # 10)
             "URL domain does not match sender domain"))
  (decide2 (fun f => (20 <=? totalSuspicionScore f)%Z)
    (Leaf (mkVerdict high 70 (75 # 100)
             "Multiple suspicious indicators detected"))
  (decide2 (fun f => (senderAuthenticityScore f <? 40)%Z
                     && ((1 <=? credentialKeywords f)%Z || (1 <=? securityKeywords f)%Z))
    (Leaf (mkVerdict medium 55 (7 # 10)
             "Suspicious sender with risk indicators"))
  (decide2 (fun f => (15 <=? totalUrgencyScore f)%Z
                     && (professionalismScore f <? 60)%Z)
    (Leaf (mkVerdict medium 50 (65 # 100)
             "High urgency with low professionalism indicators"))
  (decide2 (fun f => hasSuspiciousUrls f
                     && (30 <=? urlAuthenticityScore f)%Z
                     && (urlAuthenticityScore f <? 60)%Z)
    (Leaf (mkVerdict medium 45 (6 # 10)
             "Some suspicious URL patterns detected"))
  (decide2 (fun f => (grammarScore f <? 50)%Z
                     && ((1 <=? credentialKeywords f)%Z || (1 <=? financialKeywords f)%Z))
    (Leaf (mkVerdict medium 40 (55 # 100)
             "Poor grammar combined with risk keywords"))
  (decide2 (fun f => (70 <=? professionalismScore f)%Z
                     && (60 <=? grammarScore f)%Z
                     && (60 <=? senderAuthenticityScore f)%Z)
    (Leaf (mkVerdict low 25 (8 # 10)
             "Professional email with good authenticity indicators"))
    (Leaf (mkVerdict low 30 (6 # 10)
             "No major risk indicators detected"))))))))))).

Definition fallback : verdict :=
  mkVerdict low 30 (5 # 10) "Unable to classify - defaulting to low risk".

Fixpoint traverseTree (f : features) (n : node) : verdict :=
  match n with
  | Leaf v => v
  | Inner None _ _ => fallback
  | Inner (Some condition) trueBranch falseBranch =>
      match condition f, trueBranch, falseBranch with
      | Some true, Some t, _ => traverseTree f t
      | Some false, _, Some e => traverseTree f e
      | _, _, Some e => traverseTree f e
      | _, _, None => fallback
      end
  end.

Definition classifyFeatures (f : features) : verdict :=
  traverseTree f buildDecisionTree.

(** [classify]: the returned object also carries [features]. *)
Definition classify (e : email) : verdict * features :=
  let features := extractFeatures e in
  let result := traverseTree features buildDecisionTree in
  (mkVerdict (v_riskLevel result) (v_riskScore result) (v_confidence result)
             (v_reasoning result),
   features).

End DecisionTreeClassifier.

(** ** AutonomousDefenseAgent: the inline scorer *)

Module AutonomousDefenseAgent.
Import Js.

(** [senderEmail.split('@')[1]?.toLowerCase()] *)
Definition senderDomainOf (senderEmail : string) : option string :=
  match splitChar "@"%char senderEmail with
  | _ :: d :: _ => Some (toLowerCase d)
  | _ => None
  end.

(** [url.match(/https?:\/\/([^\/]+)/i)?.[1]?.toLowerCase()] *)
Definition urlDomainOf (url : string) : option string :=
  match URLAnalyzer.matchHost url with
  | Some h => Some (toLowerCase h)
  | None => None
  end.

(** [/bit\.ly|tinyurl|t\.co|goo\.gl/i] *)
Definition shortenerPattern : regex :=
  alts [liti "bit.ly"; liti "tinyurl"; liti "t.co"; liti "goo.gl"].

(** One iteration of the loop of [analyzeUrlAuthenticity]. *)
Definition scoreUrl (senderDomain : option string) (score : Z) (url : string) : Z :=
  let urlDomain := urlDomainOf url in
  let s1 := if URLAnalyzer.truthy senderDomain && URLAnalyzer.truthy urlDomain
               && URLAnalyzer.domainsDiffer urlDomain senderDomain
            then (score - 30)%Z else score in
  let s2 := if test shortenerPattern url then (s1 - 20)%Z else s1 in
  let s3 := if test URLAnalyzer.ipPattern url then (s2 - 35)%Z else s2 in
  if startsWith url "http://" then (s3 - 15)%Z else s3.

Definition analyzeUrlAuthenticity (urls : list string) (senderEmail : string) : Z :=
  if Nat.eqb (List.length urls) 0 then 100%Z
  else
    let senderDomain := senderDomainOf senderEmail in
    Z.max 0 (Z.min 100 (fold_left (scoreUrl senderDomain) urls 100%Z)).

Definition urgencyKeywords : list string :=
  ["urgent"; "immediate"; "critical"; "asap"; "action required"].
Definition credentialKeywords : list string :=
  ["password"; "credentials"; "login"; "verify account"].
Definition securityKeywords : list string :=
  ["security breach"; "unauthorized access"; "suspicious activity"].
Definition knownLegitimateDomains : list string :=
  ["securebank.com"; "firstnational.com"; "metrocu.org";
   "pacifictrust.com"; "communityfirst.com"].

(** [keywords.forEach(kw => { if (p kw) count++ })] *)
Definition countIf (p : string -> bool) (keywords : list string) : Z :=
  fold_left (fun count kw => if p kw then (count + 1)%Z else count) keywords 0%Z.

Definition generateReasoning (level : riskLevel) : string :=
  match level with
  | high => "Suspicious or unauthentic URLs detected in email"
  | medium => "Suspicious sender with risk indicators"
  | low => "No major risk indicators detected"
  end.

(** The points added for the URL list. *)
Definition urlPoints (urls : list string) (senderEmail : string) : Z :=
  if Nat.ltb 0 (List.length urls) then
    let urlAuthenticity := analyzeUrlAuthenticity urls senderEmail in
    if (urlAuthenticity <? 30)%Z then 45
    else if (urlAuthenticity <? 60)%Z then 30
    else if (urlAuthenticity <? 80)%Z then 15
    else if (urlAuthenticity <? 100)%Z then 5
    else 0
  else 0.

(** The points added by the keyword cascade. *)
Definition keywordPoints (urgencyCount credentialCount securityCount : Z) : Z :=
  if (2 <=? urgencyCount)%Z && (2 <=? credentialCount)%Z then 35
  else if (2 <=? credentialCount)%Z && (1 <=? urgencyCount)%Z then 30
  else if (1 <=? credentialCount)%Z && (1 <=? urgencyCount)%Z then 20
  else if (1 <=? securityCount)%Z && (1 <=? urgencyCount)%Z then 18
  else if (1 <=? securityCount)%Z then 12
  else if (1 <=? credentialCount)%Z then 8
  else if (2 <=? urgencyCount)%Z then 10
  else if (1 <=? urgencyCount)%Z then 5
  else 0.

Definition classifyEmail (e : email) : verdict :=
  let subject := toLowerCase (orEmpty (subject e)) in
  let content := toLowerCase (orEmpty (content e)) in
  let senderEmail := toLowerCase (orEmpty (senderEmail e)) in
  let urls := urlsOfEmail e in
  let r0 := 25%Z in
  let r1 := (r0 + urlPoints urls senderEmail)%Z in
  let urgencyCount :=
    countIf (fun kw => includes subject kw || includes content kw) urgencyKeywords in
  let credentialCount :=
    countIf (fun kw => includes subject kw || includes content kw) credentialKeywords in
  let securityCount :=
    countIf (fun kw => includes content kw) securityKeywords in
  let r2 := (r1 + keywordPoints urgencyCount credentialCount securityCount)%Z in
  let r3 := if includes senderEmail "noreply" || includes senderEmail "no-reply"
            then (r2 + 3)%Z else r2 in
  let senderDomain := senderDomainOf senderEmail in
  let r4 := if URLAnalyzer.truthy senderDomain
               && negb (existsb (fun d => match senderDomain with
                                          | Some x => String.eqb d x
                                          | None => false
                                          end) knownLegitimateDomains)
            then (r3 + 10)%Z else r3 in
  let riskScore := Z.min 100 (Z.max 0 r4) in
  let level := if (75 <=? riskScore)%Z then high
               else if (50 <=? riskScore)%Z then medium
               else low in
  mkVerdict level riskScore
            (if (70 <? riskScore)%Z then 9 # 10
             else if (40 <? riskScore)%Z then 7 # 10 else 6 # 10)
            (generateReasoning level).

End AutonomousDefenseAgent.

(** ** StrategyTrainer *)

Module StrategyTrainer.

Local Open Scope Q_scope.

Record strategy : Type := mkStrategy {
  model : string;
  attackLevel : string;
  urgencyLevel : string
}.

(** A persona [id] is a number in the roster of the attack agent and may
    be a string elsewhere. *)
Inductive jsId : Type :=
| NumId (n : Z)
| StrId (s : string).

(** [String(id)] *)
Definition idString (i : jsId) : string :=
  match i with
  | NumId n => pretty n
  | StrId s => s
  end.

Record persona : Type := mkPersona {
  id : jsId;
  name : string;
  accessLevel : string
}.

#[global] Instance jsId_eq_dec : EqDecision jsId.
Proof. solve_decision. Defined.
#[global] Instance persona_eq_dec : EqDecision persona.
Proof. solve_decision. Defined.

(** The four statistics every ledger entry carries. *)
Record rates : Type := mkRates {
  attempts : nat;
  successes : nat;
  bypassRate : Q;
  clickRate : Q
}.

(** An entry of [strategyScores]. *)
Record strategyData : Type := mkStrategyData {
  s_rates : rates;
  score : Q
}.

(** An entry of [personaVulnerabilities]. *)
Record personaData : Type := mkPersonaData {
  p_rates : rates;
  vulnerabilityScore : Q
}.

Record trainer : Type := mkTrainer {
  allStrategies : list strategy;
  allPersonas : list persona;
  strategyScores : gmap string strategyData;
  personaVulnerabilities : gmap string personaData;
  combinations : gmap string rates
}.

(** The contents of [learned-strategies.json]. *)
Record learnedFile : Type := mkLearnedFile {
  lf_strategyScores : gmap string strategyData;
  lf_personaVulnerabilities : gmap string personaData;
  lf_combinations : gmap string rates
}.

(** Learning parameters, assigned in the constructor. *)
Definition explorationRate : Q := 0.2.
Definition minAttemptsForLearning : nat := 3.
Definition learningDecay : Q := 0.95.

Definition natQ (n : nat) : Q := inject_Z (Z.of_nat n).

Definition getStrategyKey (s : strategy) : string :=
  model s ++ "|" ++ attackLevel s ++ "|" ++ urgencyLevel s.

Definition getCombinationKey (s : strategy) (personaId : string) : string :=
  getStrategyKey s ++ "|" ++ personaId.

(** [loadLearnedPatterns]: [None] when the file is missing or unreadable. *)
Definition loadLearnedPatterns (file : option learnedFile) (t : trainer) : trainer :=
  match file with
  | Some learned =>
      mkTrainer (allStrategies t) (allPersonas t)
                (lf_strategyScores learned)
                (lf_personaVulnerabilities learned)
                (lf_combinations learned)
  | None => t
  end.

Definition saveLearnedPatterns (t : trainer) : learnedFile :=
  mkLearnedFile (strategyScores t) (personaVulnerabilities t) (combinations t).

Definition defaultBypass (s : strategy) : Q :=
  if String.eqb (attackLevel s) "expert" then 40
  else if String.eqb (attackLevel s) "advanced" then 30
  else if String.eqb (attackLevel s) "basic" then 20
  else 20.

Definition defaultVulnerability (p : persona) : Q :=
  if String.eqb (accessLevel p) "Critical" then 50
  else if String.eqb (accessLevel p) "High" then 40
  else if String.eqb (accessLevel p) "Medium" then 30
  else if String.eqb (accessLevel p) "Low" then 20
  else 30.

Definition seedStrategy (m : gmap string strategyData) (s : strategy)
  : gmap string strategyData :=
  let key := getStrategyKey s in
  match m !! key with
  | Some _ => m
  | None => <[key := mkStrategyData (mkRates 0 0 (defaultBypass s) 0) (defaultBypass s)]> m
  end.

Definition seedPersona (m : gmap string personaData) (p : persona)
  : gmap string personaData :=
  let personaIdStr := idString (id p) in
  match m !! personaIdStr with
  | Some _ => m
  | None => <[personaIdStr := mkPersonaData (mkRates 0 0 (defaultVulnerability p) 0)
                                            (defaultVulnerability p)]> m
  end.

Definition initializeDefaultScores (t : trainer) : trainer :=
  mkTrainer (allStrategies t) (allPersonas t)
            (fold_left seedStrategy (allStrategies t) (strategyScores t))
            (fold_left seedPersona (allPersonas t) (personaVulnerabilities t))
            (combinations t).

(** [new StrategyTrainer(allStrategies, allPersonas)] *)
Definition newTrainer (file : option learnedFile)
    (strategies : list strategy) (personas : list persona) : trainer :=
  initializeDefaultScores
    (loadLearnedPatterns file (mkTrainer strategies personas ∅ ∅ ∅)).

(** [calculateSuccessScore(results)], applied to the two fields it reads;
    [(x || 0)] is [x] on a number. *)
Definition calculateSuccessScore (bypassRate clickRate : Q) : Q :=
  let bypassWeight := 0.7 in
  let clickWeight := 0.3 in
  let bypassScore := bypassRate / 100 in
  let clickScore := clickRate / 100 in
  (bypassScore * bypassWeight + clickScore * clickWeight) * 100.

(** *** The shared inbox *)

Record inboxEvent : Type := mkEvent {
  event : string;
  phantom : bool
}.

(** An email of [bank-inbox.json]; [clicked] is [email.clicked === true]. *)
Record inboxEmail : Type := mkInboxEmail {
  ie_id : string;
  status : option string;
  clicked : bool;
  events : option (list inboxEvent)
}.

(** An element of [emailsGenerated]; [targetPersona] is
    [email.targetPersona?.id] when it is not [null] or [undefined]. *)
Record generatedEmail : Type := mkGenerated {
  g_id : string;
  g_model : string;
  g_attackLevel : string;
  g_urgencyLevel : string;
  targetPersona : option jsId
}.

Definition isBypassed (e : inboxEmail) : bool :=
  match status e with
  | None => true
  | Some s => String.eqb s "delivered"
              || (negb (String.eqb s "blocked") && negb (String.eqb s "reported"))
  end.

Definition isClicked (e : inboxEmail) : bool :=
  clicked e ||
  match events e with
  | Some evs => existsb (fun ev => String.eqb (event ev) "clicked" && negb (phantom ev)) evs
  | None => false
  end.

(** The names that every plain object of the runtime inherits from
    [Object.prototype].  [emailMap] is created as [{}]: when it has no
    property of its own under a key, [emailMap[key]] still finds, under
    these names, a function of the prototype (under [__proto__] the
    prototype itself). *)
Definition objectPrototypeKeys : list string :=
  ["constructor"; "__defineGetter__"; "__defineSetter__"; "hasOwnProperty";
   "__lookupGetter__"; "__lookupSetter__"; "isPrototypeOf"; "propertyIsEnumerable";
   "toString"; "valueOf"; "__proto__"; "toLocaleString"].

Definition inheritsFromObject (key : string) : bool :=
  existsb (String.eqb key) objectPrototypeKeys.

(** What [emailMap[emailId]] evaluates to: an element of the inbox, or
    a value that the table inherits.  An inherited value is a function,
    an object of the runtime, a string or a boolean (truthy or not), or
    [undefined]; none of them has a [status], [clicked] or [events]. *)
Inductive tableEntry : Type :=
| Element (email : inboxEmail)
| Inherited (truthy : bool).

(** The properties of its own that the record gives an inbox element,
    as a lookup along the prototype chain reads them: the truthiness of
    the value, and [None] where the element has no such property (or an
    [undefined] one, which is found nowhere further up either). *)
Definition ownProperty (email : inboxEmail) (key : string) : option bool :=
  if String.eqb key "id" then Some (negb (String.eqb (ie_id email) ""))
  else if String.eqb key "status" then
    match status email with
    | Some s => Some (negb (String.eqb s ""))
    | None => None
    end
  else if String.eqb key "clicked" then (if clicked email then Some true else None)
  else if String.eqb key "events" then
    match events email with
    | Some _ => Some true
    | None => None
    end
  else None.

(** [emailMap[emailId]] on the table that [emails.forEach] filled.  The
    finite map holds the properties of the table; its entry under
    [__proto__], if any, is the prototype of the table, because the
    assignment [emailMap['__proto__'] = email] replaces the prototype
    instead of adding a property, and reading that key gives the
    prototype back.  A key the table does not have is looked up in the
    prototype: in the element that replaced it, and then in
    [Object.prototype]. *)
Definition lookupTable (emailMap : gmap string inboxEmail) (emailId : string) : tableEntry :=
  match emailMap !! emailId with
  | Some email => Element email
  | None =>
      match emailMap !! "__proto__" with
      | Some proto =>
          match ownProperty proto emailId with
          | Some truthy => Inherited truthy
          | None => Inherited (inheritsFromObject emailId)
          end
      | None => Inherited (inheritsFromObject emailId)
      end
  end.

(** An object without [status], [clicked] and [events]. *)
Definition bare : inboxEmail := mkInboxEmail "" None false None.

(** The two branches of [if (email)]: the status computed from what was
    found when it is truthy, [{ bypassed: false, clicked: false }]
    otherwise.  An inherited truthy value is read like any element, and
    all three reads give [undefined]. *)
Definition statusOfEntry (entry : tableEntry) : bool * bool :=
  match entry with
  | Element email => (isBypassed email, isClicked email)
  | Inherited true => (isBypassed bare, isClicked bare)
  | Inherited false => (false, false)
  end.

(** [getEmailStatuses]: the inbox is [None] when the file does not exist
    or cannot be read, and the result is then the empty object.  The
    result is read by [learnFromCycle] only, under the ids that were
    requested and for the truthiness of [bypassed] and [clicked]; a
    finite map to pairs of booleans gives those reads. *)
Definition getEmailStatuses (inbox : option (list inboxEmail)) (emailIds : list string)
  : gmap string (bool * bool) :=
  match inbox with
  | None => ∅
  | Some emails =>
      let emailMap : gmap string inboxEmail :=
        fold_left (fun m email => <[ie_id email := email]> m) emails ∅ in
      fold_left (fun statuses emailId =>
                   <[emailId := statusOfEntry (lookupTable emailMap emailId)]> statuses)
                emailIds ∅
  end.

(** The block that [learnFromCycle] applies, in three copies, to the entry
    of the strategy, of the persona and of the combination.  Rates are
    rationals here; the code computes them in doubles, whose results
    differ from these by rounding errors of the order of 1e-14 (it has
    [1 - 0.95 = 0.050000000000000044]). *)
Definition updateRates (emailBypassed emailClicked : bool) (d : rates) : rates :=
  let attempts' := S (attempts d) in
  let observedBypass : Q := if emailBypassed then 100 else 0 in
  let observedClick : Q := if emailClicked then 100 else 0 in
  let '(bypassRate', clickRate') :=
    if Nat.ltb minAttemptsForLearning attempts' then
      let oldWeight := learningDecay in
      let newWeight := 1 - learningDecay in
      (bypassRate d * oldWeight + (if emailBypassed then 100 * newWeight else 0 * newWeight),
       clickRate d * oldWeight + (if emailClicked then 100 * newWeight else 0 * newWeight))
    else
      ((bypassRate d * natQ (attempts' - 1) + observedBypass) / natQ attempts',
       (clickRate d * natQ (attempts' - 1) + observedClick) / natQ attempts') in
  mkRates attempts'
          (if emailBypassed then S (successes d) else successes d)
          bypassRate' clickRate'.

Definition emptyRates : rates := mkRates 0 0 0 0.

Definition learnStrategy (b c : bool) (o : option strategyData) : strategyData :=
  let d := match o with
           | Some d => d
           | None => mkStrategyData emptyRates 0
           end in
  let r := updateRates b c (s_rates d) in
  mkStrategyData r (calculateSuccessScore (bypassRate r) (clickRate r)).

Definition learnPersona (b c : bool) (o : option personaData) : personaData :=
  let d := match o with
           | Some d => d
           | None => mkPersonaData emptyRates 0
           end in
  let r := updateRates b c (p_rates d) in
  mkPersonaData r (calculateSuccessScore (bypassRate r) (clickRate r)).

Definition learnCombination (b c : bool) (o : option rates) : rates :=
  updateRates b c (match o with Some d => d | None => emptyRates end).

Definition strategyOf (e : generatedEmail) : strategy :=
  mkStrategy (g_model e) (g_attackLevel e) (g_urgencyLevel e).

(** [personaId]: the normalised id when it is a truthy string. *)
Definition personaKey (e : generatedEmail) : option string :=
  match targetPersona e with
  | Some i => if String.eqb (idString i) "" then None else Some (idString i)
  | None => None
  end.

Definition combinationKey (e : generatedEmail) : option string :=
  match personaKey e with
  | Some personaId => Some (getCombinationKey (strategyOf e) personaId)
  | None => None
  end.

(** [emailStatuses[email.id] || { bypassed: false, clicked: false }],
    read for [bypassed] and [clicked].  Where the status object has no
    entry of its own the lookup may find a function of
    [Object.prototype]; its [bypassed] and [clicked] are [undefined],
    which the updates treat like [false]. *)
Definition emailOutcome (emailStatuses : gmap string (bool * bool)) (e : generatedEmail)
  : bool * bool :=
  match emailStatuses !! g_id e with
  | Some s => s
  | None => (false, false)
  end.

(** The body of [emailsGenerated.forEach]. *)
Definition learnEmail (emailStatuses : gmap string (bool * bool))
    (t : trainer) (e : generatedEmail) : trainer :=
  let strategyKey := getStrategyKey (strategyOf e) in
  let '(emailBypassed, emailClicked) := emailOutcome emailStatuses e in
  let strategyScores' :=
    <[strategyKey := learnStrategy emailBypassed emailClicked (strategyScores t !! strategyKey)]>
      (strategyScores t) in
  let personaVulnerabilities' :=
    match personaKey e with
    | Some personaId =>
        <[personaId := learnPersona emailBypassed emailClicked
                         (personaVulnerabilities t !! personaId)]>
          (personaVulnerabilities t)
    | None => personaVulnerabilities t
    end in
  let combinations' :=
    match combinationKey e with
    | Some key =>
        <[key := learnCombination emailBypassed emailClicked (combinations t !! key)]>
          (combinations t)
    | None => combinations t
    end in
  mkTrainer (allStrategies t) (allPersonas t)
            strategyScores' personaVulnerabilities' combinations'.

(** [learnFromCycle(cycleResult, emailsGenerated, industryMetrics)]: the
    first and the last argument are not read.  The result is the new
    trainer and what was written to [learned-strategies.json], if
    anything. *)
Definition learnFromCycle (inbox : option (list inboxEmail))
    (emailsGenerated : list generatedEmail) (t : trainer)
  : trainer * option learnedFile :=
  match emailsGenerated with
  | [] => (t, None)
  | _ =>
      let emailIds := map g_id emailsGenerated in
      let emailStatuses := getEmailStatuses inbox emailIds in
      let t' := fold_left (learnEmail emailStatuses) emailsGenerated t in
      (t', Some (saveLearnedPatterns t'))
  end.

End StrategyTrainer.

(** ** Target selection *)

Module TargetSelection.
Import StrategyTrainer.

Local Open Scope Q_scope.

(** An element of [personaScores]. *)
Record personaScore : Type := mkPersonaScore {
  ps_persona : persona;
  finalScore : Q;
  ps_vulnerabilityScore : Q;
  ps_attempts : nat;
  explorationBonus : Q
}.

Definition Qltb (x y : Q) : bool := negb (Qle_bool y x).

(** [personaData?.attempts || 0] and [personaData?.vulnerabilityScore || 0] *)
Definition attemptsOf (t : trainer) (p : persona) : nat :=
  match personaVulnerabilities t !! idString (id p) with
  | Some d => attempts (p_rates d)
  | None => 0%nat
  end.

Definition vulnerabilityOf (t : trainer) (p : persona) : Q :=
  match personaVulnerabilities t !! idString (id p) with
  | Some d => vulnerabilityScore d
  | None => 0
  end.

Definition bonusFor (attempts : nat) : Q :=
  if Nat.ltb attempts minAttemptsForLearning
  then natQ (minAttemptsForLearning - attempts) * 20
  else if Nat.ltb attempts (minAttemptsForLearning * 2)
  then natQ (minAttemptsForLearning * 2 - attempts) * 10
  else 0.

(** The callback of [allPersonas.map]. *)
Definition scorePersona (t : trainer) (p : persona) : personaScore :=
  let attempts := attemptsOf t p in
  let vulnerabilityScore := vulnerabilityOf t p in
  let explorationBonus := bonusFor attempts in
  let confidence := Qmin (natQ attempts / natQ minAttemptsForLearning) 1.5 in
  let adjustedVulnerabilityScore := vulnerabilityScore * Qmin confidence 1 in
  let finalScore := adjustedVulnerabilityScore + explorationBonus in
  mkPersonaScore p finalScore vulnerabilityScore attempts explorationBonus.

(** [Array.prototype.sort] is stable; with the comparator
    [(a, b) => key b - key a] its result is the stable arrangement by
    non-increasing key, computed here by insertion from the right. *)
Section StableSort.
Context {A : Type} (key : A -> Q).

Fixpoint insertDesc (x : A) (l : list A) : list A :=
  match l with
  | [] => [x]
  | y :: l' => if Qltb (key x) (key y) then y :: insertDesc x l' else x :: l
  end.

Fixpoint sortDesc (l : list A) : list A :=
  match l with
  | [] => []
  | x :: l' => insertDesc x (sortDesc l')
  end.

(** The order the sort establishes. *)
Definition geKey (x y : A) : Prop := key y <= key x.
End StableSort.

(** The ranking: [personaScores] after [sort]. *)
Definition rankedPersonas (t : trainer) : list personaScore :=
  sortDesc finalScore (map (scorePersona t) (allPersonas t)).

(** [selectBestTargets(count)]; the random draw of the source only decides
    whether the selection is logged. *)
Definition selectBestTargets (t : trainer) (count : nat) : list persona :=
  map ps_persona (firstn count (rankedPersonas t)).

End TargetSelection.

(** ** The second copy of the trainer

    The repository holds a second, older copy of the trainer.  Its
    [selectBestTargets] orders the personas by vulnerability score alone
    (looked up under the raw [persona.id], which as a property key is the
    same string as [String(id)]), takes the top of that order and fills up
    with random picks among the rest.  [rand k] is the result of the
    [k]-th call of [Math.random()], a number in the interval from 0
    (included) to 1 (excluded), so that every drawn index is within the
    array. *)

Module SecondCopy.
Import StrategyTrainer TargetSelection.

Local Open Scope Q_scope.

Definition unitInterval (rand : nat -> Q) : Prop := forall k, 0 <= rand k < 1.

(** [Math.floor(Math.random() * remaining.length)] *)
Definition randomIndex (r : Q) (len : nat) : nat :=
  Z.to_nat (Qfloor (r * natQ len)).

(** [remaining.splice(i, 1)[0]] with the array that is left. *)
Definition spliceAt {A : Type} (i : nat) (l : list A) : option A * list A :=
  (nth_error l i, (firstn i l ++ skipn (S i) l)%list).

(** The loop [for (i = 0; i < explorationCount && remaining.length > 0; i++)]. *)
Fixpoint explore (rand : nat -> Q) (k : nat) (explorationCount : nat)
    (remaining selected : list persona) : list persona :=
  match explorationCount with
  | O => selected
  | S n =>
      match remaining with
      | [] => selected
      | _ =>
          match spliceAt (randomIndex (rand k) (List.length remaining)) remaining with
          | (Some p, remaining') => explore rand (S k) n remaining' (selected ++ [p])%list
          | (None, remaining') => selected
          end
      end
  end.

Definition selectBestTargets (rand : nat -> Q) (t : trainer) (count : nat)
  : list persona :=
  let sortedPersonas := sortDesc (vulnerabilityOf t) (allPersonas t) in
  (* Math.max(1, Math.floor(count * this.explorationRate)) *)
  let explorationCount := Nat.max 1 (Z.to_nat (Qfloor (natQ count * explorationRate))) in
  let exploitationCount : Z := (Z.of_nat count - Z.of_nat explorationCount)%Z in
  let selected := firstn (Z.to_nat exploitationCount) sortedPersonas in
  let remaining :=
    List.filter (fun p => negb (bool_decide (p ∈ selected))) sortedPersonas in
  explore rand 0 explorationCount remaining selected.

End SecondCopy.


(** ** The statements of the specification, as definitions *)

Module Spec.
Import DecisionTreeClassifier.

(** A decision list: ordered (predicate, verdict) pairs, first match wins. *)
Definition rule : Type := (features -> bool) * (riskLevel * Z * Q).

Fixpoint firstMatch (rules : list rule) (default : riskLevel * Z * Q) (f : features)
  : riskLevel * Z * Q :=
  match rules with
  | [] => default
  | (applies, v) :: rest => if applies f then v else firstMatch rest default f
  end.

Definition rule1 : rule :=
  (fun f => hasUrls f && (urlAuthenticityScore f <? 30)%Z, (high, 85%Z, 9 # 10)).
Definition rule2 : rule :=
  (fun f => (2 <=? credentialKeywords f)%Z && (2 <=? urgencyKeywords f)%Z,
   (high, 80%Z, 85 # 100)).
Definition rule3 : rule :=
  (fun f => urlDomainMismatch f, (high, 75%Z, 8 # 10)).
Definition rule4 : rule :=
  (fun f => (20 <=? totalSuspicionScore f)%Z, (high, 70%Z, 75 # 100)).
Definition rule5 : rule :=
  (fun f => (senderAuthenticityScore f <? 40)%Z
            && ((1 <=? credentialKeywords f)%Z || (1 <=? securityKeywords f)%Z),
   (medium, 55%Z, 7 # 10)).
Definition rule6 : rule :=
  (fun f => (15 <=? totalUrgencyScore f)%Z && (professionalismScore f <? 60)%Z,
   (medium, 50%Z, 65 # 100)).
(** Rule 7 as section 4.2 writes it: the score range alone. *)
Definition rule7 : rule :=
  (fun f => (30 <=? urlAuthenticityScore f)%Z && (urlAuthenticityScore f <? 60)%Z,
   (medium, 45%Z, 6 # 10)).
(** Rule 7 with the flag the tree also tests. *)
Definition rule7Flagged : rule :=
  (fun f => hasSuspiciousUrls f
            && (30 <=? urlAuthenticityScore f)%Z && (urlAuthenticityScore f <? 60)%Z,
   (medium, 45%Z, 6 # 10)).
Definition rule8 : rule :=
  (fun f => (grammarScore f <? 50)%Z
            && ((1 <=? credentialKeywords f)%Z || (1 <=? financialKeywords f)%Z),
   (medium, 40%Z, 55 # 100)).
Definition rule9 : rule :=
  (fun f => (70 <=? professionalismScore f)%Z && (60 <=? grammarScore f)%Z
            && (60 <=? senderAuthenticityScore f)%Z,
   (low, 25%Z, 8 # 10)).
Definition rule10 : riskLevel * Z * Q := (low, 30%Z, 6 # 10).

(** The list of section 4.2. *)
Definition decisionList : list rule :=
  [rule1; rule2; rule3; rule4; rule5; rule6; rule7; rule8; rule9].

Definition decisionListFlagged : list rule :=
  [rule1; rule2; rule3; rule4; rule5; rule6; rule7Flagged; rule8; rule9].

Definition classifySpec (f : features) : riskLevel * Z * Q :=
  firstMatch decisionList rule10 f.

Definition classifyFlagged (f : features) : riskLevel * Z * Q :=
  firstMatch decisionListFlagged rule10 f.

(** The thresholds of the inline scorer: high from 75, medium from 50. *)
Definition bucket (riskScore : Z) : riskLevel :=
  if (75 <=? riskScore)%Z then high
  else if (50 <=? riskScore)%Z then medium
  else low.

(** *** URL authenticity as section 4.1 words it *)

(** The whole of [s] matches [r]. *)
Fixpoint fullMatch (r : Js.regex) (s : string) : bool :=
  match s with
  | EmptyString => Js.nullable r
  | String c s' => fullMatch (Js.deriv c r) s'
  end.

Definition clamp (x : Z) : Z := Z.max 0 (Z.min 100 x).

Definition hostDiffers (senderEmail url : string) : bool :=
  let urlDomain := URLAnalyzer.extractDomain url in
  let senderDomain := URLAnalyzer.extractDomainFromEmail senderEmail in
  URLAnalyzer.truthy senderDomain && URLAnalyzer.truthy urlDomain
  && URLAnalyzer.domainsDiffer urlDomain senderDomain.

(** "the host is a literal IPv4 address" *)
Definition hostIsIPv4 (url : string) : bool :=
  match URLAnalyzer.extractDomain url with
  | Some h => fullMatch URLAnalyzer.ipPattern h
  | None => false
  end.

(** "hyphenated domain tokens or free/click/verify/secure in the URL" *)
Definition suspiciousWords : Js.regex :=
  Js.alts [Js.liti "free"; Js.liti "click"; Js.liti "verify"; Js.liti "secure"].

Definition specPenalty (senderEmail url : string) : Z :=
  ((if hostDiffers senderEmail url then 30 else 0)
   + (if Js.test URLAnalyzer.hyphenatedDomain url || Js.test suspiciousWords url
      then 25 else 0)
   + (if URLAnalyzer.hasUrlShorteners [url] then 20 else 0)
   + (if hostIsIPv4 url then 35 else 0)
   + (if Js.startsWith url "http://" then 15 else 0))%Z.

Definition sumZ (l : list Z) : Z := fold_right Z.add 0%Z l.

Definition specUrlAuthenticity (urls : list string) (senderEmail : string) : Z :=
  clamp (100 - sumZ (map (specPenalty senderEmail) urls)).

(** *** The penalties the two implementations apply *)

(** [URLAnalyzer.analyzeAuthenticity]: the dotted-quad pattern is looked
    for anywhere in the URL, and the bait words include "link". *)
Definition penalty (senderEmail url : string) : Z :=
  ((if hostDiffers senderEmail url then 30 else 0)
   + (if URLAnalyzer.hasSuspiciousPatterns [url] then 25 else 0)
   + (if URLAnalyzer.hasUrlShorteners [url] then 20 else 0)
   + (if URLAnalyzer.hasIpAddresses [url] then 35 else 0)
   + (if URLAnalyzer.hasHttpLinks [url] then 15 else 0))%Z.

(** [AutonomousDefenseAgent.analyzeUrlAuthenticity]: no penalty for
    suspicious patterns, four shortener names, no stripping of "www.". *)
Definition agentPenalty (senderEmail url : string) : Z :=
  let senderDomain := AutonomousDefenseAgent.senderDomainOf senderEmail in
  let urlDomain := AutonomousDefenseAgent.urlDomainOf url in
  ((if URLAnalyzer.truthy senderDomain && URLAnalyzer.truthy urlDomain
       && URLAnalyzer.domainsDiffer urlDomain senderDomain then 30 else 0)
   + (if Js.test AutonomousDefenseAgent.shortenerPattern url then 20 else 0)
   + (if Js.test URLAnalyzer.ipPattern url then 35 else 0)
   + (if Js.startsWith url "http://" then 15 else 0))%Z.

End Spec.

(** ** Runs of the learner and observations on the ledger *)

Module Ledger.
Import StrategyTrainer.

Local Open Scope Q_scope.

(** One update: the status object in force and the email learnt from. *)
Definition step : Type := gmap string (bool * bool) * generatedEmail.

Definition runSteps (steps : list step) (t : trainer) : trainer :=
  fold_left (fun t s => learnEmail (fst s) t (snd s)) steps t.

(** The steps that one call of [learnFromCycle] performs. *)
Definition stepsOfCycle (inbox : option (list inboxEmail))
    (emailsGenerated : list generatedEmail) : list step :=
  map (fun e => (getEmailStatuses inbox (map g_id emailsGenerated), e)) emailsGenerated.

(** Successive attack cycles, each with the inbox as it is when the
    trainer reads it. *)
Definition cycle : Type := option (list inboxEmail) * list generatedEmail.

Definition runCycles (cycles : list cycle) (t : trainer) : trainer :=
  fold_left (fun t c => fst (learnFromCycle (fst c) (snd c) t)) cycles t.

Definition stepsOfCycles (cycles : list cycle) : list step :=
  concat (map (fun c => stepsOfCycle (fst c) (snd c)) cycles).

Definition keyOf (e : generatedEmail) : string := getStrategyKey (strategyOf e).

Definition strategyRates (t : trainer) (key : string) : rates :=
  match strategyScores t !! key with
  | Some d => s_rates d
  | None => emptyRates
  end.

Definition personaRates (t : trainer) (key : string) : rates :=
  match personaVulnerabilities t !! key with
  | Some d => p_rates d
  | None => emptyRates
  end.

Definition combinationRates (t : trainer) (key : string) : rates :=
  match combinations t !! key with
  | Some d => d
  | None => emptyRates
  end.

Definition optEqb (o : option string) (key : string) : bool :=
  match o with
  | Some k => String.eqb k key
  | None => false
  end.

(** How many of the emails are recorded under a key. *)
Definition strategyCalls (key : string) (es : list generatedEmail) : nat :=
  List.length (List.filter (fun e => String.eqb (keyOf e) key) es).
Definition personaCalls (key : string) (es : list generatedEmail) : nat :=
  List.length (List.filter (fun e => optEqb (personaKey e) key) es).
Definition combinationCalls (key : string) (es : list generatedEmail) : nat :=
  List.length (List.filter (fun e => optEqb (combinationKey e) key) es).

Definition inRange (r : rates) : Prop :=
  0 <= bypassRate r <= 100 /\ 0 <= clickRate r <= 100.

Definition ledgerInRange (t : trainer) : Prop :=
  (forall key d, strategyScores t !! key = Some d -> inRange (s_rates d))
  /\ (forall key d, personaVulnerabilities t !! key = Some d -> inRange (p_rates d))
  /\ (forall key d, combinations t !! key = Some d -> inRange d).

Definition observed (b : bool) : Q := if b then 100 else 0.




(** An entry that has not been updated yet. *)
Definition fresh (r : rates) : Prop := attempts r = 0%nat /\ inRange r.




End Ledger.

(** ** Ranking statements *)

Module Ranking.
Import StrategyTrainer TargetSelection.

Local Open Scope Q_scope.

(** [a] is ranked at or above [b]: whenever [b] is among the first [n] of
    the ranking, so is [a]. *)
Definition rankedAtOrAbove (t : trainer) (a b : persona) : Prop :=
  forall n, In b (selectBestTargets t n) -> In a (selectBestTargets t n).

(** The ranking property of section 8. *)
Definition zeroAttemptsFirst (t : trainer) : Prop :=
  forall a b,
    In a (allPersonas t) -> In b (allPersonas t) ->
    attemptsOf t a = 0%nat ->
    (minAttemptsForLearning <= attemptsOf t b)%nat ->
    vulnerabilityOf t a == vulnerabilityOf t b ->
    rankedAtOrAbove t a b.

Definition rosterFinalScore (t : trainer) (p : persona) : Q :=
  finalScore (scorePersona t p).

End Ranking.

(** ** Concrete inputs *)

Module Examples.
Import StrategyTrainer.

(** The roster and the strategies of the attack agent. *)
Definition TARGET_PERSONAS : list persona :=
  [mkPersona (NumId 1) "John Doe" "High";
   mkPersona (NumId 2) "Jane Smith" "High";
   mkPersona (NumId 3) "Michael Chen" "Critical";
   mkPersona (NumId 4) "Sarah Williams" "Critical";
   mkPersona (NumId 5) "David Rodriguez" "High"].

Definition ATTACK_STRATEGIES : list strategy :=
  [mkStrategy "meta-llama/llama-3.1-8b-instruct" "basic" "medium";
   mkStrategy "mistralai/mistral-7b-instruct" "advanced" "high";
   mkStrategy "anthropic/claude-3-haiku" "expert" "critical"].

Definition john : persona := mkPersona (NumId 1) "John Doe" "High".
Definition jane : persona := mkPersona (NumId 2) "Jane Smith" "High".
Definition michael : persona := mkPersona (NumId 3) "Michael Chen" "Critical".

(** Scenario B: no URL, two urgency keywords ("urgent", "immediate") and
    two credential keywords ("password", "login"). *)
Definition scenarioB : email :=
  mkEmail (Some "Notice")
          (Some "Urgent: immediate step needed. Send your password and login today.")
          None (Some "it@securebank.com") (Some []).

(** One plain-http URL on a raw address that also names a shortener; no
    sender address. *)
Definition rawIpShortener : email :=
  mkEmail (Some "hi") (Some "see http://1.2.3.4/t.co") None None None.

Definition urgentPassword : email :=
  mkEmail (Some "URGENT!!") (Some "Please confirm your password.") None
          (Some "it@securebank.com") (Some []).

Definition freshTrainer : trainer :=
  newTrainer None ATTACK_STRATEGIES TARGET_PERSONAS.

Definition firstEmail : generatedEmail :=
  mkGenerated "email-1" "meta-llama/llama-3.1-8b-instruct" "basic" "medium"
              (Some (NumId 1)).

(** The inbox once [firstEmail] got through and was not clicked. *)
Definition deliveredInbox : option (list inboxEmail) :=
  Some [mkInboxEmail "email-1" (Some "delivered") false None].



Definition firstCycleFile : learnedFile :=
  saveLearnedPatterns (fst (learnFromCycle deliveredInbox [firstEmail] freshTrainer)).

(** A ledger file as the data-restoration script of the repository writes
    it for a persona with four emails, two of them delivered and one of
    those clicked: rates 50 and 50, composite 0.6*50 + 0.4*50 = 50. *)
Definition restoredFile : learnedFile :=
  mkLearnedFile ∅ (<["1" := mkPersonaData (mkRates 4 2 50 50) 50]> ∅) ∅.

Definition restoredTrainer : trainer :=
  newTrainer (Some restoredFile) ATTACK_STRATEGIES TARGET_PERSONAS.

(** A ledger file in which persona 1 is well explored with a composite of
    40, the default of the unexplored persona 2. *)
Definition settledFile : learnedFile :=
  mkLearnedFile ∅ (<["1" := mkPersonaData (mkRates 6 3 40 40) 40]> ∅) ∅.

Definition settledTrainer : trainer :=
  newTrainer (Some settledFile) ATTACK_STRATEGIES TARGET_PERSONAS.

End Examples.

(** ** Strategy selection *)

Module StrategySelection.
Import StrategyTrainer TargetSelection.

Local Open Scope Q_scope.

(** What a call yields: a value, or a [TypeError] thrown on the way. *)
Inductive outcome (A : Type) : Type :=
| Returned (a : A)
| Thrown.
Arguments Returned {A} a.
Arguments Thrown {A}.

(** The state of the search loops: [bestStrategy] and [bestScore]. *)
Definition best : Type := option strategy * Q.

(** [Math.min(strategyData.attempts / this.minAttemptsForLearning, 1)]
    times the stored score. *)
Definition adjustedScore (d : strategyData) : Q :=
  let confidence := Qmin (natQ (attempts (s_rates d)) / natQ minAttemptsForLearning) 1 in
  score d * confidence.

(** The callback of [allStrategies.forEach] in the exploitation part of
    [selectBestStrategy]. *)
Definition exploitStep (t : trainer) (b : best) (s : strategy) : best :=
  match strategyScores t !! getStrategyKey s with
  | Some strategyData =>
      let adjusted := adjustedScore strategyData in
      if Qltb (snd b) adjusted then (Some s, adjusted) else b
  | None =>
      if Qltb (snd b) 0 then (Some s, 20) else b
  end.

(** [bestStrategy || this.allStrategies[0]] after the loop. *)
Definition exploit (t : trainer) : option strategy :=
  match fst (fold_left (exploitStep t) (allStrategies t) (None, -1)) with
  | Some s => Some s
  | None => hd_error (allStrategies t)
  end.

(** [selectBestStrategy()].  [rand k] is the result of the [k]-th call of
    [Math.random()]; the second component is the number of calls made so
    far.  In the exploration branch the chosen element is passed to
    [getStrategyKey] for the log line, which throws when the list of
    strategies is empty and the element is [undefined]. *)
Definition selectBestStrategy (rand : nat -> Q) (k : nat) (t : trainer)
  : outcome (option strategy) * nat :=
  if Qltb (rand k) explorationRate then
    match nth_error (allStrategies t)
                    (SecondCopy.randomIndex (rand (S k)) (List.length (allStrategies t))) with
    | Some randomStrategy => (Returned (Some randomStrategy), S (S k))
    | None => (Thrown, S (S k))
    end
  else (Returned (exploit t), S k).

(** The 0.7/0.3 score of a combination entry. *)
Definition combinationScore (d : rates) : Q :=
  calculateSuccessScore (bypassRate d) (clickRate d).

(** The callback of [allStrategies.forEach] in
    [getBestStrategyForPersona]. *)
Definition comboStep (t : trainer) (personaIdStr : string) (b : best) (s : strategy) : best :=
  match combinations t !! getCombinationKey s personaIdStr with
  | Some comboData =>
      if Nat.leb minAttemptsForLearning (attempts comboData)
      then if Qltb (snd b) (combinationScore comboData)
           then (Some s, combinationScore comboData) else b
      else b
  | None => b
  end.

Definition bestCombination (t : trainer) (personaId : jsId) : option strategy :=
  fst (fold_left (comboStep t (idString personaId)) (allStrategies t) (None, -1)).

(** [getBestStrategyForPersona(personaId)]:
    [bestStrategy || this.selectBestStrategy()]. *)
Definition getBestStrategyForPersona (rand : nat -> Q) (k : nat) (t : trainer)
    (personaId : jsId) : outcome (option strategy) * nat :=
  match bestCombination t personaId with
  | Some s => (Returned (Some s), k)
  | None => selectBestStrategy rand k t
  end.

(** The adjusted score of a strategy that has an entry. *)
Definition adjustedOf (t : trainer) (s : strategy) : Q :=
  match strategyScores t !! getStrategyKey s with
  | Some strategyData => adjustedScore strategyData
  | None => 0
  end.

(** [comboData && comboData.attempts >= this.minAttemptsForLearning] *)
Definition qualified (t : trainer) (personaId : jsId) (s : strategy) : bool :=
  match combinations t !! getCombinationKey s (idString personaId) with
  | Some comboData => Nat.leb minAttemptsForLearning (attempts comboData)
  | None => false
  end.

(** The score of the combination of a strategy with a persona. *)
Definition combinationScoreOf (t : trainer) (personaId : jsId) (s : strategy) : Q :=
  match combinations t !! getCombinationKey s (idString personaId) with
  | Some comboData => combinationScore comboData
  | None => 0
  end.

End StrategySelection.

(** ** AutonomousDefenseAgent: the defense cycle *)

Module DefenseCycle.
Import Js AutonomousDefenseAgent StrategyTrainer.

(** The three counters of [classifyEmail], and the two sender checks, as
    functions of the email. *)
Definition urgencyCount (e : email) : Z :=
  let subject := toLowerCase (orEmpty (subject e)) in
  let content := toLowerCase (orEmpty (content e)) in
  countIf (fun kw => includes subject kw || includes content kw) urgencyKeywords.

Definition credentialCount (e : email) : Z :=
  let subject := toLowerCase (orEmpty (subject e)) in
  let content := toLowerCase (orEmpty (content e)) in
  countIf (fun kw => includes subject kw || includes content kw) credentialKeywords.

Definition securityCount (e : email) : Z :=
  let content := toLowerCase (orEmpty (content e)) in
  countIf (fun kw => includes content kw) securityKeywords.

(** [senderEmail.includes('noreply') || senderEmail.includes('no-reply')] *)
Definition noreplySender (senderEmail : string) : bool :=
  includes senderEmail "noreply" || includes senderEmail "no-reply".

(** [senderDomain && !knownLegitimateDomains.includes(senderDomain)] *)
Definition externalSender (senderEmail : string) : bool :=
  let senderDomain := senderDomainOf senderEmail in
  URLAnalyzer.truthy senderDomain
  && negb (existsb (fun d => match senderDomain with
                             | Some x => String.eqb d x
                             | None => false
                             end) knownLegitimateDomains).

(** [email.clicked]: the value [true], a falsy value, or another truthy
    value. *)
Inductive clickedField : Type :=
| ClickedTrue
| ClickedFalsy
| ClickedTruthy.

(** An element of [bank-inbox.json] with the fields that the defense
    agent, the trainer and the restoration scripts read or write.
    [se_mail] holds what [classifyEmail] reads; [se_model],
    [se_attackLevel] and [se_urgencyLevel] are [None] when the field is
    falsy; [detectionMetadata] and [autoDetected] are the truthiness of
    the fields.  The timestamps ([detectedAt], [detectionTime],
    [clickedAt], ...) are left out. *)
Record storedEmail : Type := mkStored {
  se_id : string;
  se_status : option string;
  se_clicked : clickedField;
  se_events : option (list inboxEvent);
  se_mail : email;
  se_model : option string;
  se_attackLevel : option string;
  se_urgencyLevel : option string;
  se_targetPersona : option jsId;
  detectionMetadata : bool;
  se_riskLevel : option riskLevel;
  se_riskScore : option Z;
  mlClassification : option verdict;
  autoDetected : bool
}.

(** The element as [getEmailStatuses] of the trainer reads it. *)
Definition toInbox (email : storedEmail) : inboxEmail :=
  mkInboxEmail (se_id email) (se_status email)
               (match se_clicked email with ClickedTrue => true | _ => false end)
               (se_events email).

(** The counters of [this.stats]; the timestamps, [cyclesByDay],
    [performanceHistory] and the rates of [calculateMetrics] are left
    out. *)
Record stats : Type := mkStats {
  totalCycles : nat;
  totalEmailsAnalyzed : nat;
  totalEmailsBlocked : nat;
  totalEmailsReported : nat;
  totalEmailsBypassed : nat;
  highRiskBlocked : nat;
  mediumRiskReported : nat;
  lowRiskAllowed : nat
}.

Record agent : Type := mkAgent {
  a_stats : stats;
  processedEmailIds : gset string
}.

(** What reading [bank-inbox.json] gives. *)
Inductive inboxFile : Type :=
| Missing
| Unreadable
| NotAnArray
| Inbox (emails : list storedEmail).

(** [email.status = s; email.autoDetected = true] *)
Definition markDetected (s : string) (email : storedEmail) : storedEmail :=
  mkStored (se_id email) (Some s) (se_clicked email) (se_events email) (se_mail email)
           (se_model email) (se_attackLevel email) (se_urgencyLevel email)
           (se_targetPersona email) (detectionMetadata email)
           (se_riskLevel email) (se_riskScore email) (mlClassification email)
           true.

(** [email.riskLevel = ...; email.riskScore = ...; email.mlClassification = ...] *)
Definition setClassification (classification : verdict) (email : storedEmail) : storedEmail :=
  mkStored (se_id email) (se_status email) (se_clicked email) (se_events email) (se_mail email)
           (se_model email) (se_attackLevel email) (se_urgencyLevel email)
           (se_targetPersona email) (detectionMetadata email)
           (Some (v_riskLevel classification)) (Some (v_riskScore classification))
           (Some classification)
           (autoDetected email).

(** The positions of the elements that [l.filter(p)] keeps: the filtered
    array holds the same objects as [l]. *)
Definition indicesWhere {A : Type} (p : A -> bool) (l : list A) : list nat :=
  List.filter (fun i => match l !! i with Some x => p x | None => false end)
              (seq 0 (List.length l)).

(** The predicate of [emails.filter(...)] that selects [newEmails]. *)
Definition isNew (a : agent) (email : storedEmail) : bool :=
  match se_status email with
  | Some s => String.eqb s "delivered"
  | None => false
  end
  && negb (bool_decide (se_id email ∈ processedEmailIds a))
  && negb (detectionMetadata email).

Record cycleCounts : Type := mkCounts {
  blockedCount : nat;
  reportedCount : nat;
  bypassedCount : nat;
  analyzedCount : nat
}.

Record loopState : Type := mkLoop {
  l_emails : list storedEmail;
  l_agent : agent;
  l_counts : cycleCounts
}.

(** [classification.riskLevel] for an email of the inbox. *)
Definition riskOf (email : storedEmail) : riskLevel :=
  v_riskLevel (classifyEmail (se_mail email)).

(** The body of [for (const email of newEmails)] in three parts: what it
    does to the email object, to the counters of the cycle, and to the
    agent ([this.stats] and [this.processedEmailIds]). *)
Definition processed (email : storedEmail) : storedEmail :=
  let classification := classifyEmail (se_mail email) in
  let email1 := setClassification classification email in
  match v_riskLevel classification with
  | high => markDetected "blocked" email1
  | medium => markDetected "reported" email1
  | low => email1
  end.

Definition tallyCounts (c : cycleCounts) (email : storedEmail) : cycleCounts :=
  match riskOf email with
  | high => mkCounts (S (blockedCount c)) (reportedCount c) (bypassedCount c)
                     (S (analyzedCount c))
  | medium => mkCounts (blockedCount c) (S (reportedCount c)) (bypassedCount c)
                       (S (analyzedCount c))
  | low => mkCounts (blockedCount c) (reportedCount c) (S (bypassedCount c))
                    (S (analyzedCount c))
  end.

Definition tallyAgent (a : agent) (email : storedEmail) : agent :=
  let s := a_stats a in
  mkAgent
    (match riskOf email with
     | high => mkStats (totalCycles s) (totalEmailsAnalyzed s) (totalEmailsBlocked s)
                       (totalEmailsReported s) (totalEmailsBypassed s)
                       (S (highRiskBlocked s)) (mediumRiskReported s) (lowRiskAllowed s)
     | medium => mkStats (totalCycles s) (totalEmailsAnalyzed s) (totalEmailsBlocked s)
                         (totalEmailsReported s) (totalEmailsBypassed s)
                         (highRiskBlocked s) (S (mediumRiskReported s)) (lowRiskAllowed s)
     | low => mkStats (totalCycles s) (totalEmailsAnalyzed s) (totalEmailsBlocked s)
                      (totalEmailsReported s) (totalEmailsBypassed s)
                      (highRiskBlocked s) (mediumRiskReported s) (S (lowRiskAllowed s))
     end)
    (processedEmailIds a ∪ {[se_id email]}).

(** One iteration, on the element at position [i] of the inbox array. *)
Definition analyzeEmail (st : loopState) (i : nat) : loopState :=
  match l_emails st !! i with
  | None => st
  | Some email =>
      mkLoop (<[i := processed email]> (l_emails st))
             (tallyAgent (l_agent st) email)
             (tallyCounts (l_counts st) email)
  end.

(** [this.stats.totalCycles++] *)
Definition countCycle (s : stats) : stats :=
  mkStats (S (totalCycles s)) (totalEmailsAnalyzed s) (totalEmailsBlocked s)
          (totalEmailsReported s) (totalEmailsBypassed s)
          (highRiskBlocked s) (mediumRiskReported s) (lowRiskAllowed s).

(** The block under the comment "Update stats". *)
Definition addCounts (c : cycleCounts) (s : stats) : stats :=
  mkStats (S (totalCycles s))
          (totalEmailsAnalyzed s + analyzedCount c)
          (totalEmailsBlocked s + blockedCount c)
          (totalEmailsReported s + reportedCount c)
          (totalEmailsBypassed s + bypassedCount c)
          (highRiskBlocked s) (mediumRiskReported s) (lowRiskAllowed s).

(** [executeDefenseCycle()]: the agent afterwards, what is written to
    [bank-inbox.json] (if anything) and the object returned (if any). *)
Definition executeDefenseCycle (a : agent) (file : inboxFile)
  : agent * option (list storedEmail) * option cycleCounts :=
  match file with
  | Unreadable => (a, None, None)
  | _ =>
      let emails := match file with Inbox emails => emails | _ => [] end in
      let newEmails := indicesWhere (isNew a) emails in
      if Nat.eqb (List.length newEmails) 0 then
        (mkAgent (countCycle (a_stats a)) (processedEmailIds a), None, None)
      else
        let st := fold_left analyzeEmail newEmails (mkLoop emails a (mkCounts 0 0 0 0)) in
        (mkAgent (addCounts (l_counts st) (a_stats (l_agent st)))
                 (processedEmailIds (l_agent st)),
         Some (l_emails st),
         Some (l_counts st))
  end.

(** Successive cycles, each reading the inbox the previous one left. *)
Definition nextInbox (written : option (list storedEmail)) (file : inboxFile) : inboxFile :=
  match written with
  | Some emails => Inbox emails
  | None => file
  end.

(** The emails that a cycle analyzes. *)
Definition newEmails (a : agent) (file : inboxFile) : list storedEmail :=
  match file with
  | Inbox emails => List.filter (isNew a) emails
  | _ => []
  end.

Definition sameLevel (x y : riskLevel) : bool :=
  match x, y with
  | high, high | medium, medium | low, low => true
  | _, _ => false
  end.

(** How many of the emails the inline scorer rates at the given level. *)
Definition rated (level : riskLevel) (emails : list storedEmail) : nat :=
  List.length (List.filter (fun email => sameLevel (riskOf email) level) emails).

(** The status that a cycle leaves on an email it analyzes. *)
Definition statusFor (level : riskLevel) : string :=
  match level with
  | high => "blocked"
  | medium => "reported"
  | low => "delivered"
  end.

End DefenseCycle.

(** ** Further observations on the ledger *)

Module LedgerViews.
Import StrategyTrainer Ledger.

Local Open Scope Q_scope.

(** Every strategy and every persona of the roster has an entry. *)
Definition covered (t : trainer) : Prop :=
  (forall s, In s (allStrategies t) -> is_Some (strategyScores t !! getStrategyKey s))
  /\ (forall p, In p (allPersonas t) -> is_Some (personaVulnerabilities t !! idString (id p))).



(** The last element of the inbox array with the given id: the one that
    [emailMap] keeps. *)
Definition lastWithId (emails : list inboxEmail) (emailId : string) : option inboxEmail :=
  List.find (fun email => String.eqb (ie_id email) emailId) (rev emails).

End LedgerViews.

(** ** The attack agent *)

Module AttackAgent.
Import Js StrategyTrainer TargetSelection StrategySelection.

(** [calculateRiskScore(emailData, strategy)] *)
Definition calculateRiskScore (emailSubject emailContent : option string) (strategy : strategy)
  : Z :=
  let score0 := 30%Z in
  let score1 :=
    if String.eqb (attackLevel strategy) "expert" then (score0 + 30)%Z
    else if String.eqb (attackLevel strategy) "advanced" then (score0 + 20)%Z
    else if String.eqb (attackLevel strategy) "basic" then (score0 + 10)%Z
    else score0 in
  let score2 :=
    if String.eqb (urgencyLevel strategy) "critical" then (score1 + 25)%Z
    else if String.eqb (urgencyLevel strategy) "high" then (score1 + 15)%Z
    else if String.eqb (urgencyLevel strategy) "medium" then (score1 + 10)%Z
    else score1 in
  let content := toLowerCase (orEmpty emailContent) in
  let subject := toLowerCase (orEmpty emailSubject) in
  let score3 := if includes subject "urgent" || includes subject "critical"
                then (score2 + 10)%Z else score2 in
  let score4 := if includes content "credentials" || includes content "password"
                then (score3 + 15)%Z else score3 in
  let score5 := if includes content "immediately" || includes content "asap"
                then (score4 + 10)%Z else score4 in
  Z.min 100 score5.

(** [riskScore >= 70 ? 'high' : riskScore >= 40 ? 'medium' : 'low'] *)
Definition riskLevelOf (riskScore : Z) : riskLevel :=
  if (70 <=? riskScore)%Z then high
  else if (40 <=? riskScore)%Z then medium
  else low.

Definition domains : list string :=
  ["microsoft-partner-services.com"; "adobe-licensing.com"; "vmware-support.com";
   "oracle-enterprise.com"; "cisco-partner.net"; "redhat-support.com";
   "ibm-enterprise.com"; "salesforce-partner.com"; "aws-support-partner.com";
   "google-workspace-partner.com"].

Definition senderNames : list string :=
  ["support"; "notifications"; "administrator"; "service"; "team"; "operations";
   "systems"].

Definition urlPaths : list string :=
  ["/portal/update"; "/review/request"; "/dashboard/notifications"; "/system/status";
   "/admin/portal"; "/services/update"; "/account/verify"; "/maintenance/schedule"].

(** [list[Math.floor(r * list.length)]] inside a template literal: an
    index out of range gives [undefined], printed as "undefined". *)
Definition pick (r : Q) (l : list string) : string :=
  nth (SecondCopy.randomIndex r (List.length l)) l "undefined".

(** [generateSenderEmail(strategy)]: the domain is drawn first. *)
Definition generateSenderEmail (rand : nat -> Q) (k : nat) : string :=
  let randomDomain := pick (rand k) domains in
  let randomSender := pick (rand (S k)) senderNames in
  randomSender ++ "@" ++ randomDomain.

(** [senderEmail.split('@')[1]] inside a template literal. *)
Definition senderDomain (senderEmail : string) : string :=
  nth 1 (splitChar "@"%char senderEmail) "undefined".

(** The URL that [generatePhishingEmail] stores in [urls]: the URL of the
    model's answer when it is truthy and includes the sender domain,
    otherwise [https://${senderDomain}${randomPath}]; then a leading
    [http://] is replaced by [https://]. *)
Definition emailUrl (dataUrl : option string) (senderEmail : string) (r : Q) : string :=
  let senderDomain := senderDomain senderEmail in
  let url0 :=
    match dataUrl with
    | Some u => if negb (String.eqb u "") && includes u senderDomain then u
                else "https://" ++ senderDomain ++ pick r urlPaths
    | None => "https://" ++ senderDomain ++ pick r urlPaths
    end in
  if startsWith url0 "https://" then url0
  else if startsWith url0 "http://" then "https://" ++ drop 7 url0
  else url0.

(** The content stored: the URL is appended unless the content already
    holds it or holds "http". *)
Definition finalContent (content url : string) : string :=
  if negb (includes content url) && negb (includes content "http")
  then content ++ String "010" (String "010" ("Please review: " ++ url))
  else content.

(** The fields of the generated email that the defense agent reads. *)
Definition generatedMail (dataSubject dataContent : string) (dataSender dataUrl : option string)
    (senderEmail : string) (r : Q) : email :=
  let url := emailUrl dataUrl senderEmail r in
  mkEmail (Some dataSubject) (Some (finalContent dataContent url))
          (Some (match dataSender with
                 | Some s => if String.eqb s "" then "IT Operations Team" else s
                 | None => "IT Operations Team"
                 end))
          (Some senderEmail) (Some [url]).

(** *** The strategies of one attack cycle *)

(** The state of [selectedTargets.map(...)]: the pairs built so far, the
    set [usedStrategies] and the number of random draws made. *)
Definition assignment : Type := list (persona * strategy) * gset string * nat.

Definition assignStep (rand : nat -> Q) (t : trainer) (targets : nat)
    (st : outcome assignment) (persona : persona) : outcome assignment :=
  match st with
  | Thrown => Thrown
  | Returned (pairs, usedStrategies, k) =>
      match getBestStrategyForPersona rand k t (id persona) with
      | (Returned (Some strategy), k1) =>
          let strategyKey := getStrategyKey strategy in
          let availableStrategies :=
            List.filter (fun s => negb (bool_decide (getStrategyKey s ∈ usedStrategies)))
                        (allStrategies t) in
          if bool_decide (strategyKey ∈ usedStrategies) && Nat.ltb 1 targets
             && Nat.ltb 0 (List.length availableStrategies)
          then
            match nth_error availableStrategies
                            (SecondCopy.randomIndex (rand k1)
                               (List.length availableStrategies)) with
            | Some alternative =>
                Returned ((pairs ++ [(persona, alternative)])%list,
                          usedStrategies ∪ {[getStrategyKey alternative]}, S k1)
            | None => Thrown
            end
          else
            Returned ((pairs ++ [(persona, strategy)])%list,
                      usedStrategies ∪ {[strategyKey]}, k1)
      | (Returned None, _) => Thrown
      | (Thrown, _) => Thrown
      end
  end.

(** [targetStrategies] of [executeAttackCycle], for the given selected
    targets. *)
Definition assignStrategies (rand : nat -> Q) (k : nat) (t : trainer)
    (selectedTargets : list persona) : outcome assignment :=
  fold_left (assignStep rand t (List.length selectedTargets)) selectedTargets
            (Returned ([], ∅, k)).

Definition MAX_TARGETS_PER_CYCLE : nat := 3.

(** The first statements of [executeAttackCycle]; [selectBestTargets]
    draws one random number to decide whether to log its choice. *)
Definition targetStrategies (rand : nat -> Q) (k : nat) (t : trainer)
  : outcome assignment :=
  assignStrategies rand (S k) t (selectBestTargets t MAX_TARGETS_PER_CYCLE).

End AttackAgent.

(** ** The click-restoration script *)

Module RestoreClicks.
Import StrategyTrainer DefenseCycle.

Definition targetClicks : nat := 83.

(** [e.status === 'delivered' || !e.status ||
     (e.status !== 'blocked' && e.status !== 'reported')]: like the
    expression of [getEmailStatuses], it holds unless the status is
    [blocked] or [reported]. *)
Definition bypassed (e : storedEmail) : bool := isBypassed (toInbox e).

(** [e.clicked === true] *)
Definition clickedTrue (e : storedEmail) : bool :=
  match se_clicked e with
  | ClickedTrue => true
  | _ => false
  end.

(** [!e.clicked] *)
Definition notClicked (e : storedEmail) : bool :=
  match se_clicked e with
  | ClickedFalsy => true
  | _ => false
  end.

(** [email.clicked = true] *)
Definition markClicked (e : storedEmail) : storedEmail :=
  mkStored (se_id e) (se_status e) ClickedTrue (se_events e) (se_mail e)
           (se_model e) (se_attackLevel e) (se_urgencyLevel e)
           (se_targetPersona e) (detectionMetadata e)
           (se_riskLevel e) (se_riskScore e) (mlClassification e)
           (autoDetected e).

(** The script on the parsed inbox array: the array that is written back,
    or [None] when nothing is written.  The filtered arrays hold the
    objects of [emails], given here by their positions. *)
Definition restoreClicks (emails : list storedEmail) : option (list storedEmail) :=
  let bypassed := indicesWhere bypassed emails in
  let clicked := indicesWhere clickedTrue emails in
  let bypassedNotClicked :=
    List.filter (fun i => match emails !! i with
                          | Some e => notClicked e
                          | None => false
                          end) bypassed in
  let clicksToAdd : Z := (Z.of_nat targetClicks - Z.of_nat (List.length clicked))%Z in
  if (0 <? clicksToAdd)%Z && (clicksToAdd <=? Z.of_nat (List.length bypassedNotClicked))%Z
  then Some (fold_left (fun emails i => alter markClicked i emails)
                       (firstn (Z.to_nat clicksToAdd) bypassedNotClicked) emails)
  else None.

(** The number of elements with [clicked === true]. *)
Definition clickedCount (emails : list storedEmail) : nat :=
  List.length (List.filter clickedTrue emails).

End RestoreClicks.

(** ** The data-restoration script: the ledger (step 4) *)

Module RestoreLedger.
Import StrategyTrainer DefenseCycle.

Local Open Scope Q_scope.

(** An entry of [strategyStats] or [personaStats]. *)
Record tally : Type := mkTally {
  t_attempts : nat;
  t_bypassed : nat;
  t_clicked : nat
}.

(** [x || 'unknown'] *)
Definition orUnknown (o : option string) : string :=
  match o with
  | Some s => s
  | None => "unknown"
  end.

Definition strategyKey (email : storedEmail) : string :=
  orUnknown (se_model email) ++ "|" ++ orUnknown (se_attackLevel email) ++ "|"
  ++ orUnknown (se_urgencyLevel email).

(** [personaId], when it is truthy. *)
Definition personaId (email : storedEmail) : option string :=
  match se_targetPersona email with
  | Some i => if String.eqb (idString i) "" then None else Some (idString i)
  | None => None
  end.

(** [email.status === 'delivered' || !email.status ||
     (email.status !== 'blocked' && email.status !== 'reported')] *)
Definition bypassed (email : storedEmail) : bool := isBypassed (toInbox email).

(** [email.clicked === true && bypassed] *)
Definition clicked (email : storedEmail) : bool :=
  match se_clicked email with
  | ClickedTrue => bypassed email
  | _ => false
  end.

(** The three increments on the entry of [key]. *)
Definition count (key : string) (email : storedEmail) (stats : gmap string tally)
  : gmap string tally :=
  let s := match stats !! key with
           | Some s => s
           | None => mkTally 0 0 0
           end in
  <[key := mkTally (S (t_attempts s))
                   (if bypassed email then S (t_bypassed s) else t_bypassed s)
                   (if clicked email then S (t_clicked s) else t_clicked s)]> stats.











End RestoreLedger.

(** ** The attack agent's email in the inbox *)

Module Deployed.
Import StrategyTrainer DefenseCycle AttackAgent.

(** The email object that [generatePhishingEmail] returns and the
    industry system stores: status delivered, the risk label of the
    attack agent, no click yet. *)
Definition deployedEmail (emailId : string) (dataSubject dataContent : string)
    (dataSender dataUrl : option string) (senderEmail : string) (r : Q)
    (persona : persona) (strategy : strategy) : storedEmail :=
  let mail := generatedMail dataSubject dataContent dataSender dataUrl senderEmail r in
  let riskScore := calculateRiskScore (Some dataSubject) (Some dataContent) strategy in
  mkStored emailId (Some "delivered") ClickedFalsy None mail
           (if String.eqb (model strategy) "" then None else Some (model strategy))
           (if String.eqb (attackLevel strategy) "" then None else Some (attackLevel strategy))
           (if String.eqb (urgencyLevel strategy) "" then None else Some (urgencyLevel strategy))
           (Some (id persona))
           false (Some (riskLevelOf riskScore)) (Some riskScore) None false.

(** The element of [emailsGenerated] that [learnFromCycle] reads. *)
Definition generatedOf (emailId : string) (persona : persona) (strategy : strategy)
  : generatedEmail :=
  mkGenerated emailId (model strategy) (attackLevel strategy) (urgencyLevel strategy)
              (Some (id persona)).

End Deployed.

(** ** Further concrete inputs *)

Module MoreExamples.
Import StrategyTrainer Examples DefenseCycle AttackAgent Deployed.

(** The trainer after a cycle of three emails to persona 1, all with the
    first strategy of the roster. *)
Definition seasonedTrainer : trainer :=
  fst (learnFromCycle deliveredInbox [firstEmail; firstEmail; firstEmail] freshTrainer).


(** A defense agent that has not run yet. *)
Definition freshAgent : agent := mkAgent (mkStats 0 0 0 0 0 0 0 0) ∅.

Definition delivered (emailId : string) (mail : email) : storedEmail :=
  mkStored emailId (Some "delivered") ClickedFalsy None mail
           (Some "meta-llama/llama-3.1-8b-instruct") (Some "basic") (Some "medium")
           (Some (NumId 1)) false None None None false.

(** Keywords and a plain-http link to a raw address: rated high. *)
Definition urgentLink : storedEmail :=
  delivered "email-2"
    (mkEmail (Some "Notice") (Some "Urgent: confirm your password.") None
             (Some "it@securebank.com") (Some ["http://1.2.3.4/login"])).

(** An inbox with an email rated medium, one rated high and one rated
    low. *)
Definition inbox3 : list storedEmail :=
  [delivered "email-1" scenarioB;
   urgentLink;
   delivered "email-3"
     (mkEmail (Some "Lunch") (Some "See you at noon.") None
              (Some "it@securebank.com") (Some []))].

(** What the first cycle of [freshAgent] writes for [inbox3]. *)
Definition inbox3After : list storedEmail :=
  match snd (fst (executeDefenseCycle freshAgent (Inbox inbox3))) with
  | Some written => written
  | None => []
  end.

(** An email of the attack agent with its own link and no keyword of
    the inline scorer, and the inbox a first defense cycle leaves. *)
Definition stealthEmail : storedEmail :=
  deployedEmail "email-9" "Maintenance schedule" "Dear John, the maintenance plan is ready."
                None None (generateSenderEmail (fun _ => 1 # 4) 0) 0 john
                (mkStrategy "meta-llama/llama-3.1-8b-instruct" "basic" "medium").

Definition stealthInboxAfter : list storedEmail :=
  match snd (fst (executeDefenseCycle freshAgent (Inbox [stealthEmail]))) with
  | Some written => written
  | None => []
  end.

End MoreExamples.

(** * Properties *)

(** ** The decision tree *)

Section DecisionTree.
Import DecisionTreeClassifier Examples.

Ltac split_conditions :=
  repeat match goal with
         | |- context [if ?b then _ else _] => destruct b; try reflexivity
         end.

(** The nested tree is the decision list whose seventh rule carries the
    suspicious-pattern flag. *)
Lemma classifyFeatures_flagged (f : features) :
  verdictCore (classifyFeatures f) = Spec.classifyFlagged f.
Proof.
  unfold classifyFeatures, Spec.classifyFlagged, Spec.decisionListFlagged.
  cbn [traverseTree buildDecisionTree decide2 Spec.firstMatch
       Spec.rule1 Spec.rule2 Spec.rule3 Spec.rule4 Spec.rule5 Spec.rule6
       Spec.rule7Flagged Spec.rule8 Spec.rule9 Spec.rule10].
  destruct (hasUrls f); cbn [andb].
  - destruct (urlAuthenticityScore f <? 30)%Z; [reflexivity|]. split_conditions.
  - split_conditions.
Qed.

Lemma classifyFeatures_scores (f : features) :
  In (v_riskScore (classifyFeatures f)) [85; 80; 75; 70; 55; 50; 45; 40; 25; 30]%Z.
Proof.
  unfold classifyFeatures. cbn [traverseTree buildDecisionTree decide2].
  destruct (hasUrls f).
  - destruct (urlAuthenticityScore f <? 30)%Z; [cbn; tauto|].
    repeat match goal with
           | |- context [if ?b then _ else _] => destruct b
           end; cbn; tauto.
  - repeat match goal with
           | |- context [if ?b then _ else _] => destruct b
           end; cbn; tauto.
Qed.

Lemma classify_of_features (e : email) :
  fst (classify e) = classifyFeatures (extractFeatures e).
Proof.
  unfold classify, classifyFeatures. cbn [fst].
  destruct (traverseTree (extractFeatures e) buildDecisionTree). reflexivity.
Qed.

(** C1 (as amended).  [classifyFeatures] is a function of the feature set
    and, for every feature set, returns the level, score and confidence
    of the first matching rule of the list of section 4.2 in which rule 7
    additionally requires [hasSuspiciousUrls]; and every email without
    URLs whose text holds at least two urgency and two credential
    keywords is classified by rule 2: high, 80, 0.85. *)
Theorem decision_list_flagged :
  (forall f, verdictCore (classifyFeatures f) = Spec.classifyFlagged f)
  /\ (forall e,
        urlsOfEmail e = [] ->
        (2 <=? urgencyKeywords (extractFeatures e))%Z = true ->
        (2 <=? credentialKeywords (extractFeatures e))%Z = true ->
        verdictCore (fst (classify e)) = (high, 80%Z, 85 # 100)).
Proof.
  split; [apply classifyFeatures_flagged|].
  intros e Hu Hurg Hcred.
  rewrite classify_of_features, classifyFeatures_flagged.
  unfold Spec.classifyFlagged, Spec.decisionListFlagged.
  cbn [Spec.firstMatch Spec.rule1 Spec.rule2].
  assert (Hno : hasUrls (extractFeatures e) = false).
  { unfold extractFeatures. cbn [hasUrls]. rewrite Hu. reflexivity. }
  rewrite Hno, Hcred, Hurg. reflexivity.
Qed.

Lemma decision_list_flagged_witness :
  verdictCore (fst (classify scenarioB)) = (high, 80%Z, 85 # 100).
Proof.
  apply (proj2 decision_list_flagged scenarioB); vm_compute; reflexivity.
Defined.

(** C1, counterexample.  For the email [rawIpShortener] the URL score is
    30 and no suspicious pattern is found: the list of section 4.2 stops
    at rule 7 (medium, 45, 0.6), the tree goes on to the default (low,
    30, 0.6). *)
Lemma rule7_needs_flag :
  let f := extractFeatures rawIpShortener in
  hasUrls f = true /\ urlAuthenticityScore f = 30%Z /\ hasSuspiciousUrls f = false
  /\ verdictCore (classifyFeatures f) = (low, 30%Z, 6 # 10)
  /\ Spec.classifySpec f = (medium, 45%Z, 6 # 10)
  /\ verdictCore (classifyFeatures f) <> Spec.classifySpec f.
Proof.
  vm_compute. repeat split; try reflexivity. discriminate.
Qed.

(** C3 (code defect).  [extractFeatures] returns its object literal, in
    which both totals are the constant 0; the weighted sums are written
    after the [return].  For [urgentPassword] the weighted sums would be
    8 and 6, and the returned totals are 0 and 0. *)
Theorem combined_scores_never_computed :
  (forall e, totalUrgencyScore (extractFeatures e) = 0%Z
             /\ totalSuspicionScore (extractFeatures e) = 0%Z)
  /\ (let f := extractFeatures urgentPassword in
      urgencyKeywords f = 1%Z /\ credentialKeywords f = 1%Z
      /\ callToActionKeywords f = 1%Z /\ hasExcessivePunctuation f = true
      /\ combinedUrgencyScore f = 8%Z /\ combinedSuspicionScore f = 6%Z
      /\ totalUrgencyScore f = 0%Z /\ totalSuspicionScore f = 0%Z).
Proof.
  split.
  - intros e. split; reflexivity.
  - vm_compute. repeat split; reflexivity.
Qed.

(** C7 (as amended).  Both classifiers assign a risk score between 0 and
    100; the verdict of the decision tree is a function of the extracted
    features; the inline scorer derives its level from its own score by
    the thresholds 75 and 50.  Nothing relates the two verdicts. *)
Theorem classifiers_in_range (e : email) :
  (0 <= v_riskScore (fst (classify e)) <= 100)%Z
  /\ fst (classify e) = classifyFeatures (extractFeatures e)
  /\ (0 <= v_riskScore (AutonomousDefenseAgent.classifyEmail e) <= 100)%Z
  /\ v_riskLevel (AutonomousDefenseAgent.classifyEmail e)
     = Spec.bucket (v_riskScore (AutonomousDefenseAgent.classifyEmail e)).
Proof.
  split; [|split; [apply classify_of_features|]].
  - rewrite classify_of_features.
    pose proof (classifyFeatures_scores (extractFeatures e)) as H.
    cbn [In] in H. lia.
  - unfold AutonomousDefenseAgent.classifyEmail. cbv zeta.
    cbn [v_riskScore v_riskLevel]. split; [lia | reflexivity].
Qed.

(** C7, counterexample.  On the email of scenario B the decision tree
    answers high with score 80 and the inline scorer answers medium with
    score 60. *)
Lemma classifiers_disagree :
  verdictCore (fst (classify scenarioB)) = (high, 80%Z, 85 # 100)
  /\ verdictCore (AutonomousDefenseAgent.classifyEmail scenarioB) = (medium, 60%Z, 7 # 10)
  /\ v_riskLevel (fst (classify scenarioB))
     <> v_riskLevel (AutonomousDefenseAgent.classifyEmail scenarioB).
Proof.
  vm_compute. repeat split; try reflexivity. discriminate.
Qed.

End DecisionTree.

(** ** URL authenticity *)

Section UrlScores.
Import Spec.
Local Open Scope Z_scope.

Ltac split_penalties :=
  repeat match goal with
         | |- context [if ?b then _ else _] => destruct b
         end; lia.

Lemma sumZ_app (l1 l2 : list Z) : sumZ (l1 ++ l2) = sumZ l1 + sumZ l2.
Proof.
  induction l1 as [|x l1 IH]; cbn; [reflexivity|]. unfold sumZ in *. lia.
Qed.

Lemma penalty_nonneg (s u : string) : 0 <= penalty s u.
Proof. unfold penalty. split_penalties. Qed.

Lemma agentPenalty_nonneg (s u : string) : 0 <= agentPenalty s u.
Proof. unfold agentPenalty. cbv zeta. split_penalties. Qed.

Lemma scoreUrl_penalty (s : string) (a : Z) (u : string) :
  URLAnalyzer.scoreUrl s a u = a - penalty s u.
Proof.
  unfold URLAnalyzer.scoreUrl, penalty, hostDiffers. cbv zeta. split_penalties.
Qed.

Lemma agent_scoreUrl_penalty (s : string) (a : Z) (u : string) :
  AutonomousDefenseAgent.scoreUrl (AutonomousDefenseAgent.senderDomainOf s) a u
  = a - agentPenalty s u.
Proof.
  unfold AutonomousDefenseAgent.scoreUrl, agentPenalty. cbv zeta. split_penalties.
Qed.

(** The loop subtracts, in total, the sum of the penalties. *)
Lemma fold_scoreUrl (s : string) (urls : list string) (a : Z) :
  fold_left (URLAnalyzer.scoreUrl s) urls a = a - sumZ (map (penalty s) urls).
Proof.
  revert a. induction urls as [|u urls IH]; intros a; cbn.
  - lia.
  - rewrite IH, scoreUrl_penalty. unfold sumZ. lia.
Qed.

Lemma fold_agent_scoreUrl (s : string) (urls : list string) (a : Z) :
  fold_left (AutonomousDefenseAgent.scoreUrl (AutonomousDefenseAgent.senderDomainOf s)) urls a
  = a - sumZ (map (agentPenalty s) urls).
Proof.
  revert a. induction urls as [|u urls IH]; intros a; cbn.
  - lia.
  - rewrite IH, agent_scoreUrl_penalty. unfold sumZ. lia.
Qed.

Lemma analyzeAuthenticity_closed (urls : list string) (s : string) :
  URLAnalyzer.analyzeAuthenticity urls s = clamp (100 - sumZ (map (penalty s) urls)).
Proof.
  unfold URLAnalyzer.analyzeAuthenticity.
  destruct urls as [|u urls]; [reflexivity|].
  cbn [List.length Nat.eqb]. rewrite fold_scoreUrl. reflexivity.
Qed.

Lemma analyzeUrlAuthenticity_closed (urls : list string) (s : string) :
  AutonomousDefenseAgent.analyzeUrlAuthenticity urls s
  = clamp (100 - sumZ (map (agentPenalty s) urls)).
Proof.
  unfold AutonomousDefenseAgent.analyzeUrlAuthenticity.
  destruct urls as [|u urls]; [reflexivity|].
  cbn [List.length Nat.eqb]. cbv zeta. rewrite fold_agent_scoreUrl. reflexivity.
Qed.

Lemma clamp_range (x : Z) : 0 <= clamp x <= 100.
Proof. unfold clamp. lia. Qed.

Lemma clamp_mono (x y : Z) : x <= y -> clamp x <= clamp y.
Proof. unfold clamp. lia. Qed.

Lemma closed_insert (p : string -> Z) (l1 l2 : list string) (u : string) :
  0 <= p u ->
  clamp (100 - sumZ (map p (l1 ++ u :: l2))) <= clamp (100 - sumZ (map p (l1 ++ l2))).
Proof.
  intros Hu. apply clamp_mono.
  rewrite !List.map_app, !sumZ_app. cbn [map].
  change (sumZ (p u :: map p l2)) with (p u + sumZ (map p l2)). lia.
Qed.

(** C2 (as amended).  [URLAnalyzer.analyzeAuthenticity] is 100 minus the
    sum over the URLs of [penalty], clamped to 0..100, where [penalty]
    adds 30 when sender domain and URL host are both present and differ,
    25 when the URL matches a suspicious pattern (a hyphenated
    .com/.net/.org name, or free, click, link, verify, secure), 20 for a
    shortener name, 35 when a dotted quad occurs anywhere in the URL, and
    15 when the URL starts with http://.  The defense agent's
    [analyzeUrlAuthenticity] is the same with [agentPenalty]: no penalty
    for suspicious patterns and four shortener names. *)
Theorem url_authenticity_penalties (urls : list string) (senderEmail : string) :
  URLAnalyzer.analyzeAuthenticity urls senderEmail
  = clamp (100 - sumZ (map (penalty senderEmail) urls))
  /\ AutonomousDefenseAgent.analyzeUrlAuthenticity urls senderEmail
     = clamp (100 - sumZ (map (agentPenalty senderEmail) urls)).
Proof.
  split; [apply analyzeAuthenticity_closed | apply analyzeUrlAuthenticity_closed].
Qed.

(** C2, counterexample.  A URL on the sender's own host whose path holds
    a dotted quad loses 35 points although its host is not an address;
    and the defense agent's copy takes nothing off for "verify". *)
Lemma url_authenticity_spec_differs :
  URLAnalyzer.analyzeAuthenticity ["https://bank.com/files/10.0.0.1"%string] "it@bank.com" = 65
  /\ specUrlAuthenticity ["https://bank.com/files/10.0.0.1"%string] "it@bank.com" = 100
  /\ AutonomousDefenseAgent.analyzeUrlAuthenticity ["https://bank.com/verify"%string]
       "it@bank.com" = 100
  /\ specUrlAuthenticity ["https://bank.com/verify"%string] "it@bank.com" = 75.
Proof. vm_compute. repeat split; reflexivity. Qed.

Lemma sumZ_filter_le (p : string -> Z) (keep : string -> bool) (l : list string) :
  (forall u, 0 <= p u) ->
  sumZ (map p (List.filter keep l)) <= sumZ (map p l).
Proof.
  intros Hp. induction l as [|u l IH]; cbn [List.filter map]; [lia|].
  specialize (Hp u). destruct (keep u); cbn [map]; unfold sumZ in *; cbn [fold_right]; lia.
Qed.

Lemma sumZ_filter_positive (p : string -> Z) (l : list string) :
  (forall u, 0 <= p u) ->
  sumZ (map p (List.filter (fun u => 0 <? p u) l)) = sumZ (map p l).
Proof.
  intros Hp. induction l as [|u l IH]; cbn [List.filter map]; [reflexivity|].
  specialize (Hp u). destruct (0 <? p u) eqn:E; cbn [map]; unfold sumZ in *;
    cbn [fold_right]; lia.
Qed.

(** C10.  For both implementations the score of the empty list is 100,
    every score lies between 0 and 100, putting one more URL anywhere
    into the list never raises the score, removing any URLs from the list
    never lowers it, and removing the URLs that trigger no penalty leaves
    it unchanged. *)
Theorem url_authenticity_monotone (senderEmail : string) :
  (URLAnalyzer.analyzeAuthenticity [] senderEmail = 100
   /\ AutonomousDefenseAgent.analyzeUrlAuthenticity [] senderEmail = 100)
  /\ (forall urls,
        0 <= URLAnalyzer.analyzeAuthenticity urls senderEmail <= 100
        /\ 0 <= AutonomousDefenseAgent.analyzeUrlAuthenticity urls senderEmail <= 100)
  /\ (forall before url after,
        URLAnalyzer.analyzeAuthenticity (before ++ url :: after) senderEmail
        <= URLAnalyzer.analyzeAuthenticity (before ++ after) senderEmail
        /\ AutonomousDefenseAgent.analyzeUrlAuthenticity (before ++ url :: after) senderEmail
           <= AutonomousDefenseAgent.analyzeUrlAuthenticity (before ++ after) senderEmail)
  /\ (forall urls keep,
        URLAnalyzer.analyzeAuthenticity urls senderEmail
        <= URLAnalyzer.analyzeAuthenticity (List.filter keep urls) senderEmail
        /\ AutonomousDefenseAgent.analyzeUrlAuthenticity urls senderEmail
           <= AutonomousDefenseAgent.analyzeUrlAuthenticity (List.filter keep urls)
                senderEmail)
  /\ (forall urls,
        URLAnalyzer.analyzeAuthenticity
          (List.filter (fun u => 0 <? penalty senderEmail u) urls) senderEmail
        = URLAnalyzer.analyzeAuthenticity urls senderEmail
        /\ AutonomousDefenseAgent.analyzeUrlAuthenticity
             (List.filter (fun u => 0 <? agentPenalty senderEmail u) urls) senderEmail
           = AutonomousDefenseAgent.analyzeUrlAuthenticity urls senderEmail).
Proof.
  split; [split; reflexivity|]. split; [|split; [|split]].
  - intros urls. rewrite analyzeAuthenticity_closed, analyzeUrlAuthenticity_closed.
    split; apply clamp_range.
  - intros l1 u l2. rewrite !analyzeAuthenticity_closed, !analyzeUrlAuthenticity_closed.
    split; apply closed_insert; [apply penalty_nonneg | apply agentPenalty_nonneg].
  - intros urls keep. rewrite !analyzeAuthenticity_closed, !analyzeUrlAuthenticity_closed.
    split; apply clamp_mono.
    + pose proof (sumZ_filter_le (penalty senderEmail) keep urls
                    (penalty_nonneg senderEmail)). lia.
    + pose proof (sumZ_filter_le (agentPenalty senderEmail) keep urls
                    (agentPenalty_nonneg senderEmail)). lia.
  - intros urls. rewrite !analyzeAuthenticity_closed, !analyzeUrlAuthenticity_closed.
    rewrite (sumZ_filter_positive (penalty senderEmail) urls (penalty_nonneg senderEmail)).
    rewrite (sumZ_filter_positive (agentPenalty senderEmail) urls
               (agentPenalty_nonneg senderEmail)).
    split; reflexivity.
Qed.

End UrlScores.

(** ** The ledger *)

Section LedgerFacts.
Import StrategyTrainer Ledger Examples.

Section Rates.
Local Open Scope Q_scope.

Lemma natQ_nonneg n : 0 <= natQ n.
Proof. unfold natQ. change 0 with (inject_Z 0). rewrite <- Zle_Qle. lia. Qed.

Lemma natQ_S n : natQ (S n) == natQ n + 1.
Proof. unfold natQ. rewrite Nat2Z.inj_succ, <- Z.add_1_r, inject_Z_plus. reflexivity. Qed.

Lemma natQ_S_pos n : 0 < natQ (S n).
Proof. rewrite natQ_S. pose proof (natQ_nonneg n). lra. Qed.

Lemma observed_range b : 0 <= observed b <= 100.
Proof. destruct b; cbn; lra. Qed.

Lemma calculateSuccessScore_weights b c :
  calculateSuccessScore b c == 0.7 * b + 0.3 * c.
Proof. unfold calculateSuccessScore. cbv zeta. field. Qed.



Lemma mean_range x a o :
  0 <= x <= 100 -> 0 <= o <= 100 ->
  0 <= (x * natQ a + o) / natQ (S a) <= 100.
Proof.
  intros Hx Ho. pose proof (natQ_nonneg a) as Ha. pose proof (natQ_S_pos a) as HS.
  pose proof (natQ_S a) as E.
  split.
  - apply Qle_shift_div_l; [assumption|]. nra.
  - apply Qle_shift_div_r; [assumption|]. nra.
Qed.

Lemma updateRates_inRange b c d : inRange d -> inRange (updateRates b c d).
Proof.
  intros [Hb Hc]. unfold inRange, updateRates. cbv zeta.
  replace (S (attempts d) - 1)%nat with (attempts d) by lia.
  pose proof (observed_range b) as Ob. pose proof (observed_range c) as Oc.
  destruct (Nat.ltb minAttemptsForLearning (S (attempts d))); cbn [bypassRate clickRate].
  - unfold learningDecay. split; [destruct b | destruct c]; lra.
  - split; apply mean_range; assumption.
Qed.
End Rates.

Section Learning.
Local Open Scope Q_scope.

Lemma learnEmail_strategy st t e key :
  strategyScores (learnEmail st t e) !! key
  = if decide (keyOf e = key)
    then Some (learnStrategy (fst (emailOutcome st e)) (snd (emailOutcome st e))
                             (strategyScores t !! keyOf e))
    else strategyScores t !! key.
Proof.
  unfold learnEmail, keyOf. destruct (emailOutcome st e) as [b c]. cbn [strategyScores fst snd].
  rewrite lookup_insert. destruct (decide _); [subst|]; reflexivity.
Qed.

Lemma learnEmail_persona st t e key :
  personaVulnerabilities (learnEmail st t e) !! key
  = if optEqb (personaKey e) key
    then Some (learnPersona (fst (emailOutcome st e)) (snd (emailOutcome st e))
                            (personaVulnerabilities t !! key))
    else personaVulnerabilities t !! key.
Proof.
  unfold learnEmail. destruct (emailOutcome st e) as [b c].
  cbn [personaVulnerabilities fst snd].
  destruct (personaKey e) as [pid|]; cbn [optEqb]; [|reflexivity].
  rewrite lookup_insert.
  destruct (String.eqb_spec pid key) as [->|Hne].
  - rewrite decide_True by reflexivity. reflexivity.
  - rewrite decide_False by assumption. reflexivity.
Qed.

Lemma learnEmail_combination st t e key :
  combinations (learnEmail st t e) !! key
  = if optEqb (combinationKey e) key
    then Some (learnCombination (fst (emailOutcome st e)) (snd (emailOutcome st e))
                                (combinations t !! key))
    else combinations t !! key.
Proof.
  unfold learnEmail. destruct (emailOutcome st e) as [b c].
  cbn [combinations fst snd].
  destruct (combinationKey e) as [ck|]; cbn [optEqb]; [|reflexivity].
  rewrite lookup_insert.
  destruct (String.eqb_spec ck key) as [->|Hne].
  - rewrite decide_True by reflexivity. reflexivity.
  - rewrite decide_False by assumption. reflexivity.
Qed.

Lemma learnEmail_roster st t e :
  allStrategies (learnEmail st t e) = allStrategies t
  /\ allPersonas (learnEmail st t e) = allPersonas t.
Proof. unfold learnEmail. destruct (emailOutcome st e). split; reflexivity. Qed.




Lemma emptyRates_inRange : inRange emptyRates.
Proof. unfold inRange, emptyRates; cbn. lra. Qed.

Lemma learnEmail_inRange st t e : ledgerInRange t -> ledgerInRange (learnEmail st t e).
Proof.
  intros (Hs & Hp & Hc). split; [|split].
  - intros key d. rewrite learnEmail_strategy.
    destruct (decide _); [|apply Hs].
    intros [= <-]. unfold learnStrategy. cbn [s_rates].
    apply updateRates_inRange.
    destruct (strategyScores t !! keyOf e) eqn:E;
      [eapply Hs; eassumption | apply emptyRates_inRange].
  - intros key d. rewrite learnEmail_persona.
    destruct (optEqb _ _); [|apply Hp].
    intros [= <-]. unfold learnPersona. cbn [p_rates].
    apply updateRates_inRange.
    destruct (personaVulnerabilities t !! key) eqn:E;
      [eapply Hp; eassumption | apply emptyRates_inRange].
  - intros key d. rewrite learnEmail_combination.
    destruct (optEqb _ _); [|apply Hc].
    intros [= <-]. unfold learnCombination.
    apply updateRates_inRange.
    destruct (combinations t !! key) eqn:E;
      [eapply Hc; eassumption | apply emptyRates_inRange].
Qed.

Lemma runSteps_inRange steps t : ledgerInRange t -> ledgerInRange (runSteps steps t).
Proof.
  revert t. induction steps as [|s steps IH]; intros t Ht; [exact Ht|].
  cbn. apply IH, learnEmail_inRange, Ht.
Qed.



End Learning.

Section Seeding.
Local Open Scope Q_scope.

Lemma defaultBypass_range s : 0 <= defaultBypass s <= 100.
Proof.
  unfold defaultBypass.
  repeat match goal with |- context [if ?b then _ else _] => destruct b end; lra.
Qed.

Lemma defaultVulnerability_range p : 0 <= defaultVulnerability p <= 100.
Proof.
  unfold defaultVulnerability.
  repeat match goal with |- context [if ?b then _ else _] => destruct b end; lra.
Qed.

Lemma seedStrategy_fresh strategies (m : gmap string strategyData) :
  (forall key d, m !! key = Some d -> fresh (s_rates d)) ->
  forall key d, fold_left seedStrategy strategies m !! key = Some d -> fresh (s_rates d).
Proof.
  revert m. induction strategies as [|s strategies IH]; intros m Hm; [exact Hm|].
  cbn [fold_left]. apply IH. intros key d. unfold seedStrategy.
  destruct (m !! getStrategyKey s) eqn:E; [apply Hm|].
  rewrite lookup_insert. destruct (decide _); [|apply Hm].
  intros [= <-]. cbn [s_rates]. unfold fresh, inRange. cbn.
  pose proof (defaultBypass_range s). repeat split; try lra; reflexivity.
Qed.

Lemma seedPersona_fresh personas (m : gmap string personaData) :
  (forall key d, m !! key = Some d -> fresh (p_rates d)) ->
  forall key d, fold_left seedPersona personas m !! key = Some d -> fresh (p_rates d).
Proof.
  revert m. induction personas as [|p personas IH]; intros m Hm; [exact Hm|].
  cbn [fold_left]. apply IH. intros key d. unfold seedPersona.
  destruct (m !! idString (id p)) eqn:E; [apply Hm|].
  rewrite lookup_insert. destruct (decide _); [|apply Hm].
  intros [= <-]. cbn [p_rates]. unfold fresh, inRange. cbn.
  pose proof (defaultVulnerability_range p). repeat split; try lra; reflexivity.
Qed.

Lemma newTrainer_fresh strategies personas :
  let t := newTrainer None strategies personas in
  (forall key, attempts (strategyRates t key) = 0%nat)
  /\ (forall key, attempts (personaRates t key) = 0%nat)
  /\ (forall key, attempts (combinationRates t key) = 0%nat)
  /\ ledgerInRange t.
Proof.
  cbv zeta. unfold newTrainer, loadLearnedPatterns, initializeDefaultScores.
  cbn [allStrategies allPersonas strategyScores personaVulnerabilities combinations].
  assert (Hs := seedStrategy_fresh strategies ∅
                  ltac:(intros k d; rewrite lookup_empty; discriminate)).
  assert (Hp := seedPersona_fresh personas ∅
                  ltac:(intros k d; rewrite lookup_empty; discriminate)).
  split; [|split; [|split]].
  - intros key. unfold strategyRates. cbn [strategyScores].
    destruct (fold_left seedStrategy strategies ∅ !! key) eqn:E; [|reflexivity].
    apply (Hs _ _ E).
  - intros key. unfold personaRates. cbn [personaVulnerabilities].
    destruct (fold_left seedPersona personas ∅ !! key) eqn:E; [|reflexivity].
    apply (Hp _ _ E).
  - intros key. unfold combinationRates. cbn [combinations].
    rewrite lookup_empty. reflexivity.
  - split; [|split]; cbn.
    + intros key d E. apply (Hs _ _ E).
    + intros key d E. apply (Hp _ _ E).
    + intros key d. rewrite lookup_empty. discriminate.
Qed.
End Seeding.

Section Cycles.
Lemma fold_left_map_steps {A B C} (f : C -> B -> C) (g : A -> B) (l : list A) (c : C) :
  fold_left f (map g l) c = fold_left (fun c x => f c (g x)) l c.
Proof. revert c. induction l as [|x l IH]; intros c; cbn; [reflexivity | apply IH]. Qed.

Lemma learnFromCycle_steps inbox emails t :
  fst (learnFromCycle inbox emails t) = runSteps (stepsOfCycle inbox emails) t.
Proof.
  unfold learnFromCycle, runSteps, stepsOfCycle.
  destruct emails as [|e emails]; [reflexivity|].
  cbn [fst]. rewrite fold_left_map_steps. reflexivity.
Qed.

Lemma runSteps_app s1 s2 t : runSteps (s1 ++ s2) t = runSteps s2 (runSteps s1 t).
Proof. unfold runSteps. apply fold_left_app. Qed.

Lemma runCycles_steps cycles t :
  runCycles cycles t = runSteps (stepsOfCycles cycles) t.
Proof.
  revert t. induction cycles as [|c cycles IH]; intros t; [reflexivity|].
  unfold stepsOfCycles. cbn [map concat]. rewrite runSteps_app.
  change (runCycles (c :: cycles) t)
    with (runCycles cycles (fst (learnFromCycle (fst c) (snd c) t))).
  rewrite IH, learnFromCycle_steps. reflexivity.
Qed.

Lemma stepsOfCycle_emails inbox emails : map snd (stepsOfCycle inbox emails) = emails.
Proof.
  unfold stepsOfCycle. rewrite map_map. cbn [snd]. apply map_id.
Qed.

End Cycles.


Section RunningMean.
Local Open Scope Q_scope.


End RunningMean.



Section Persisted.
Local Open Scope Q_scope.




End Persisted.




Section AbsentEmail.

Lemma statuses_entry (emailMap : gmap string inboxEmail) (ids : list string) (i : string) :
  forall acc : gmap string (bool * bool),
    fold_left (fun statuses emailId =>
                 <[emailId := statusOfEntry (lookupTable emailMap emailId)]> statuses)
              ids acc !! i
    = if bool_decide (i ∈ ids)
      then Some (statusOfEntry (lookupTable emailMap i))
      else acc !! i.
Proof.
  induction ids as [|x ids IH]; intros acc; [reflexivity|].
  cbn [fold_left]. rewrite IH.
  destruct (bool_decide (i ∈ ids)) eqn:E.
  - apply bool_decide_eq_true in E.
    rewrite bool_decide_eq_true_2 by (rewrite elem_of_cons; now right). reflexivity.
  - apply bool_decide_eq_false in E.
    destruct (decide (x = i)) as [->|Hne].
    + rewrite bool_decide_eq_true_2 by (rewrite elem_of_cons; now left).
      now rewrite lookup_insert_eq.
    + rewrite bool_decide_eq_false_2 by (rewrite elem_of_cons; intros [?|?]; congruence).
      now rewrite lookup_insert_ne.
Qed.




End AbsentEmail.



End LedgerFacts.
(** ** Target selection *)

Section SelectionFacts.
Import StrategyTrainer TargetSelection Ranking Examples.

Section SortFacts.
Local Open Scope Q_scope.
Context {A : Type} (key : A -> Q).

Lemma Qltb_true x y : Qltb x y = true <-> x < y.
Proof.
  unfold Qltb. rewrite negb_true_iff. split.
  - intros H. apply Qnot_le_lt. intros Hle. apply Qle_bool_iff in Hle. congruence.
  - intros H. destruct (Qle_bool y x) eqn:E; [|reflexivity].
    apply Qle_bool_iff in E. exfalso. apply (Qlt_not_le _ _ H E).
Qed.

Lemma Qltb_false x y : Qltb x y = false <-> y <= x.
Proof.
  unfold Qltb. rewrite negb_false_iff. apply Qle_bool_iff.
Qed.

Lemma insertDesc_perm x l : Permutation (insertDesc key x l) (x :: l).
Proof.
  induction l as [|y l IH]; cbn; [reflexivity|].
  destruct (Qltb (key x) (key y)); [|reflexivity].
  rewrite IH. apply perm_swap.
Qed.

Lemma sortDesc_perm l : Permutation (sortDesc key l) l.
Proof.
  induction l as [|x l IH]; cbn; [reflexivity|].
  rewrite insertDesc_perm, IH. reflexivity.
Qed.

Lemma insertDesc_sorted x l :
  StronglySorted (geKey key) l -> StronglySorted (geKey key) (insertDesc key x l).
Proof.
  induction 1 as [|y l Hs IH Hall]; cbn.
  - constructor; constructor.
  - destruct (Qltb (key x) (key y)) eqn:E.
    + constructor; [exact IH|].
      apply Qltb_true in E.
      eapply Permutation_Forall; [symmetry; apply insertDesc_perm|].
      constructor; [unfold geKey; lra | exact Hall].
    + apply Qltb_false in E. constructor; [constructor; assumption|].
      constructor; [exact E|].
      eapply List.Forall_impl; [|exact Hall]. intros z Hz. unfold geKey in *. lra.
Qed.

Lemma sortDesc_sorted l : StronglySorted (geKey key) (sortDesc key l).
Proof.
  induction l as [|x l IH]; cbn; [constructor | apply insertDesc_sorted, IH].
Qed.

Lemma sorted_firstn_skipn l : StronglySorted (geKey key) l ->
  forall n x y, In x (firstn n l) -> In y (skipn n l) -> key y <= key x.
Proof.
  induction 1 as [|z l Hs IH Hall]; intros n x y Hx Hy.
  - destruct n; destruct Hx.
  - destruct n as [|n]; [destruct Hx|].
    cbn in Hx, Hy. destruct Hx as [<-|Hx].
    + rewrite List.Forall_forall in Hall. apply Hall.
      rewrite <- (firstn_skipn n l). apply in_or_app. right. exact Hy.
    + eapply IH; eassumption.
Qed.
End SortFacts.

Section Selection.
Local Open Scope Q_scope.

Lemma rankedPersonas_perm t :
  Permutation (rankedPersonas t) (map (scorePersona t) (allPersonas t)).
Proof. apply sortDesc_perm. Qed.

Lemma ranked_personas t :
  Permutation (map ps_persona (rankedPersonas t)) (allPersonas t).
Proof.
  rewrite rankedPersonas_perm, map_map. cbn [scorePersona ps_persona].
  rewrite map_id. reflexivity.
Qed.

Lemma selectBestTargets_length t n :
  List.length (selectBestTargets t n) = Nat.min n (List.length (allPersonas t)).
Proof.
  unfold selectBestTargets. rewrite length_map, length_firstn.
  rewrite (Permutation_length (rankedPersonas_perm t)), length_map. reflexivity.
Qed.

Lemma NoDup_firstn {A} (l : list A) n : NoDup l -> NoDup (firstn n l).
Proof. intros H. exact (sublist_NoDup _ _ H (sublist_take l n)). Qed.

Lemma selectBestTargets_NoDup t n :
  NoDup (allPersonas t) -> NoDup (selectBestTargets t n).
Proof.
  intros H. unfold selectBestTargets. rewrite <- firstn_map.
  apply NoDup_firstn. rewrite ranked_personas. exact H.
Qed.

Lemma ranked_entry t x : In x (rankedPersonas t) -> x = scorePersona t (ps_persona x).
Proof.
  intros H. apply (Permutation_in _ (rankedPersonas_perm t)) in H.
  apply in_map_iff in H. destruct H as (p & <- & _). reflexivity.
Qed.

Lemma selected_iff t n p :
  In p (selectBestTargets t n) <-> In (scorePersona t p) (firstn n (rankedPersonas t)).
Proof.
  unfold selectBestTargets. rewrite in_map_iff. split.
  - intros (x & <- & Hx).
    rewrite <- (ranked_entry t x); [exact Hx|].
    rewrite <- (firstn_skipn n (rankedPersonas t)). apply in_or_app. left. exact Hx.
  - intros H. exists (scorePersona t p). split; [reflexivity | exact H].
Qed.

Lemma higher_score_selected_first t a b :
  In a (allPersonas t) ->
  rosterFinalScore t b < rosterFinalScore t a ->
  rankedAtOrAbove t a b.
Proof.
  intros Ha Hlt n Hb. apply selected_iff in Hb. apply selected_iff.
  assert (Hin : In (scorePersona t a) (rankedPersonas t)).
  { apply (Permutation_in _ (Permutation_sym (rankedPersonas_perm t))).
    apply in_map. exact Ha. }
  rewrite <- (firstn_skipn n (rankedPersonas t)) in Hin.
  apply in_app_or in Hin. destruct Hin as [Hin|Hin]; [exact Hin|].
  pose proof (sorted_firstn_skipn finalScore _ (sortDesc_sorted finalScore _)
                n _ _ Hb Hin) as Hle.
  unfold rosterFinalScore in Hlt. lra.
Qed.

Lemma finalScore_unexplored t p :
  attemptsOf t p = 0%nat -> rosterFinalScore t p == 60.
Proof.
  intros H. unfold rosterFinalScore, scorePersona. cbn [finalScore]. rewrite H.
  vm_compute (bonusFor 0). vm_compute (natQ 0 / natQ minAttemptsForLearning).
  vm_compute (Qmin (Qmin (0 # 3) 1.5) 1). ring.
Qed.

Lemma finalScore_explored t p :
  (minAttemptsForLearning <= attemptsOf t p)%nat ->
  rosterFinalScore t p == vulnerabilityOf t p + bonusFor (attemptsOf t p).
Proof.
  intros H. unfold rosterFinalScore, scorePersona. cbn [finalScore].
  set (k := attemptsOf t p) in *.
  assert (Hk : 1 <= natQ k / natQ minAttemptsForLearning).
  { apply Qle_shift_div_l; [reflexivity|].
    unfold natQ, minAttemptsForLearning in *. rewrite Qmult_1_l.
    rewrite <- Zle_Qle. lia. }
  assert (Hmin : Qmin (Qmin (natQ k / natQ minAttemptsForLearning) 1.5) 1 == 1).
  { apply Q.min_r. apply Q.min_glb; [exact Hk | lra]. }
  rewrite Hmin. ring.
Qed.
End Selection.

Section Legacy.
Local Open Scope Q_scope.

Lemma randomIndex_lt r len :
  0 <= r < 1 -> (0 < len)%nat -> (SecondCopy.randomIndex r len < len)%nat.
Proof.
  intros [H0 H1] Hlen. unfold SecondCopy.randomIndex.
  assert (Hpos : 0 < natQ len).
  { unfold natQ. change 0 with (inject_Z 0). rewrite <- Zlt_Qlt. lia. }
  assert (Hlo : (0 <= Qfloor (r * natQ len))%Z).
  { change 0%Z with (Qfloor 0). apply Qfloor_resp_le. nra. }
  assert (Hhi : (Qfloor (r * natQ len) < Z.of_nat len)%Z).
  { rewrite Zlt_Qlt. eapply Qle_lt_trans; [apply Qfloor_le|]. fold (natQ len). nra. }
  lia.
Qed.

Lemma spliceAt_perm {A} (l : list A) i :
  (i < List.length l)%nat ->
  exists p, nth_error l i = Some p
            /\ Permutation l (p :: (firstn i l ++ skipn (S i) l)%list).
Proof.
  revert i. induction l as [|x l IH]; intros i Hi; [cbn in Hi; lia|].
  destruct i as [|i].
  - exists x. split; reflexivity.
  - destruct (IH i ltac:(cbn in Hi; lia)) as (p & Hp & Hperm).
    exists p. split; [exact Hp|]. cbn [firstn skipn app].
    rewrite perm_swap. constructor. exact Hperm.
Qed.

Lemma explore_step rand k count remaining selected :
  remaining <> [] ->
  SecondCopy.explore rand k (S count) remaining selected
  = match SecondCopy.spliceAt (SecondCopy.randomIndex (rand k) (List.length remaining))
                             remaining with
    | (Some p, remaining') =>
        SecondCopy.explore rand (S k) count remaining' (selected ++ [p])%list
    | (None, _) => selected
    end.
Proof. destruct remaining; [congruence | reflexivity]. Qed.

Lemma explore_spec rand : SecondCopy.unitInterval rand ->
  forall count k remaining selected,
  exists picks rest,
    SecondCopy.explore rand k count remaining selected = (selected ++ picks)%list
    /\ List.length picks = Nat.min count (List.length remaining)
    /\ Permutation remaining (picks ++ rest)%list.
Proof.
  intros Hr. induction count as [|count IH]; intros k remaining selected.
  - exists [], remaining. cbn. rewrite app_nil_r. repeat split; reflexivity.
  - destruct (decide (remaining = [])) as [->|Hne].
    + exists [], []. cbn. rewrite app_nil_r. repeat split; reflexivity.
    + rewrite explore_step by exact Hne.
      assert (Hlen : (0 < List.length remaining)%nat).
      { destruct remaining; [congruence | cbn; lia]. }
      destruct (spliceAt_perm remaining _ (randomIndex_lt _ _ (Hr k) Hlen))
        as (p & Hp & Hperm).
      unfold SecondCopy.spliceAt. rewrite Hp.
      set (i := SecondCopy.randomIndex (rand k) (List.length remaining)) in *.
      destruct (IH (S k) (firstn i remaining ++ skipn (S i) remaining)%list
                   (selected ++ [p])%list) as (picks & rest & Heq & Hl & Hpm).
      exists (p :: picks), rest. split; [|split].
      * rewrite Heq, <- app_assoc. reflexivity.
      * cbn [List.length]. rewrite Hl.
        apply Permutation_length in Hperm. cbn [List.length] in Hperm. lia.
      * rewrite Hperm. cbn [app]. constructor. exact Hpm.
Qed.

Lemma filter_not_selected {A} `{EqDecision A} (l : list A) n :
  NoDup l ->
  List.filter (fun p => negb (bool_decide (p ∈ firstn n l))) l = skipn n l.
Proof.
  revert n. induction l as [|x l IH]; intros n Hnd; [destruct n; reflexivity|].
  apply NoDup_cons in Hnd. destruct Hnd as [Hx Hnd].
  destruct n as [|n].
  - cbn [firstn skipn]. 
    rewrite (filter_ext_in _ (fun _ => true)).
    + clear. induction (x :: l) as [|y l' IH]; cbn; [reflexivity | f_equal; exact IH].
    + intros a _. rewrite bool_decide_eq_false_2; [reflexivity|]. apply not_elem_of_nil.
  - cbn [firstn skipn List.filter].
    rewrite bool_decide_eq_true_2 by (left). cbn [negb].
    rewrite <- (IH n Hnd). apply filter_ext_in. intros a Ha.
    f_equal. apply bool_decide_ext. rewrite elem_of_cons. split; [|tauto].
    intros [->|H]; [|exact H]. exfalso. apply Hx. apply list_elem_of_In. exact Ha.
Qed.
End Legacy.

Section LegacySelect.
Local Open Scope Q_scope.

Lemma explorationCount_bounds n :
  (1 <= n)%nat ->
  (1 <= Nat.max 1 (Z.to_nat (Qfloor (natQ n * explorationRate))) <= n)%nat.
Proof.
  intros Hn. split; [lia|].
  assert (Hhi : (Qfloor (natQ n * explorationRate) <= Z.of_nat n)%Z).
  { rewrite Zle_Qle. eapply Qle_trans; [apply Qfloor_le|].
    fold (natQ n). pose proof (natQ_nonneg n). unfold explorationRate. lra. }
  lia.
Qed.

Lemma legacy_select rand t n :
  SecondCopy.unitInterval rand -> NoDup (allPersonas t) -> (1 <= n)%nat ->
  List.length (SecondCopy.selectBestTargets rand t n)
  = Nat.min n (List.length (allPersonas t))
  /\ NoDup (SecondCopy.selectBestTargets rand t n).
Proof.
  intros Hr Hnd Hn. unfold SecondCopy.selectBestTargets. cbv zeta.
  pose proof (explorationCount_bounds n Hn) as Hec.
  set (ec := Nat.max 1 (Z.to_nat (Qfloor (natQ n * explorationRate)))) in *.
  set (sorted := sortDesc (vulnerabilityOf t) (allPersonas t)).
  assert (Hperm : Permutation sorted (allPersonas t)) by apply sortDesc_perm.
  assert (Hsnd : NoDup sorted) by (rewrite Hperm; exact Hnd).
  replace (Z.to_nat (Z.of_nat n - Z.of_nat ec)) with (n - ec)%nat by lia.
  rewrite (filter_not_selected sorted (n - ec) Hsnd).
  destruct (explore_spec rand Hr ec 0%nat (skipn (n - ec) sorted) (firstn (n - ec) sorted))
    as (picks & rest & -> & Hl & Hpm).
  split.
  - rewrite length_app, length_firstn, Hl, length_skipn.
    rewrite (Permutation_length Hperm). lia.
  - assert (Hall : NoDup ((firstn (n - ec) sorted ++ picks) ++ rest)).
    { rewrite <- app_assoc, <- Hpm, firstn_skipn. exact Hsnd. }
    apply NoDup_app in Hall. tauto.
Qed.
End LegacySelect.

(** C8 (as amended).  [selectBestTargets] returns min(n, number of
    personas) personas, without duplicates when the roster has none.  A
    persona with zero attempts has ranking score 60; one with at least
    [minAttemptsForLearning] attempts has its vulnerabilityScore plus its
    exploration bonus; so, of two such personas with equal
    vulnerabilityScore, the zero-attempt one is ranked at or above the
    other whenever that sum is below 60.  The second copy of the trainer
    returns min(n, number of personas) distinct personas for every n of at
    least 1. *)
Theorem select_targets_ranking (t : trainer) (n : nat) :
  List.length (selectBestTargets t n) = Nat.min n (List.length (allPersonas t))
  /\ (NoDup (allPersonas t) -> NoDup (selectBestTargets t n))
  /\ (forall a b,
        In a (allPersonas t) -> In b (allPersonas t) ->
        attemptsOf t a = 0%nat ->
        (minAttemptsForLearning <= attemptsOf t b)%nat ->
        (vulnerabilityOf t a == vulnerabilityOf t b)%Q ->
        (rosterFinalScore t a == 60)%Q
        /\ (rosterFinalScore t b == vulnerabilityOf t b + bonusFor (attemptsOf t b))%Q
        /\ ((vulnerabilityOf t b + bonusFor (attemptsOf t b) < 60)%Q ->
            rankedAtOrAbove t a b))
  /\ (forall rand,
        SecondCopy.unitInterval rand -> NoDup (allPersonas t) -> (1 <= n)%nat ->
        List.length (SecondCopy.selectBestTargets rand t n)
        = Nat.min n (List.length (allPersonas t))
        /\ NoDup (SecondCopy.selectBestTargets rand t n)).
Proof.
  split; [apply selectBestTargets_length|].
  split; [apply selectBestTargets_NoDup|].
  split.
  - intros a b Ha Hb H0 Hk Hv.
    pose proof (finalScore_unexplored t a H0) as Fa.
    pose proof (finalScore_explored t b Hk) as Fb.
    split; [exact Fa|]. split; [exact Fb|].
    intros Hlt. apply higher_score_selected_first; [exact Ha|].
    rewrite Fa, Fb. exact Hlt.
  - intros rand Hr Hnd Hn. apply legacy_select; assumption.
Qed.

Lemma select_targets_ranking_witness :
  rankedAtOrAbove settledTrainer jane john
  /\ List.length (SecondCopy.selectBestTargets (fun _ => 0%Q) settledTrainer 3)
     = Nat.min 3 (List.length (allPersonas settledTrainer)).
Proof.
  destruct (select_targets_ranking settledTrainer 3) as (_ & _ & Hrank & Hlegacy).
  split.
  - apply (Hrank jane john); vm_compute; try reflexivity; try tauto; lia.
  - apply (Hlegacy (fun _ => 0%Q)).
    + intros k. vm_compute. split; [discriminate | reflexivity].
    + apply (bool_decide_unpack _). vm_compute. exact I.
    + lia.
Defined.

(** C8, counterexample.  In [restoredTrainer] the persona Michael Chen has
    no attempts and John Doe has four, both with vulnerabilityScore 50;
    John Doe's ranking score is 50 + 20 = 70 against 60, and he alone is
    selected for n = 1.  The second copy of the trainer returns one
    persona for n = 0. *)
Lemma zero_attempts_not_first :
  attemptsOf restoredTrainer michael = 0%nat
  /\ attemptsOf restoredTrainer john = 4%nat
  /\ (vulnerabilityOf restoredTrainer michael == vulnerabilityOf restoredTrainer john)%Q
  /\ selectBestTargets restoredTrainer 1 = [john]
  /\ ~ zeroAttemptsFirst restoredTrainer
  /\ List.length (SecondCopy.selectBestTargets (fun _ => 0%Q) restoredTrainer 0) = 1%nat.
Proof.
  split; [reflexivity|]. split; [reflexivity|]. split; [reflexivity|].
  assert (Hsel : selectBestTargets restoredTrainer 1 = [john]) by (vm_compute; reflexivity).
  split; [exact Hsel|]. split; [|vm_compute; reflexivity].
  intros H.
  assert (Hin : In michael (selectBestTargets restoredTrainer 1)).
  { apply (H michael john).
    - vm_compute. tauto.
    - vm_compute. tauto.
    - reflexivity.
    - vm_compute. lia.
    - reflexivity.
    - rewrite Hsel. left. reflexivity. }
  rewrite Hsel in Hin. destruct Hin as [Heq|[]]. discriminate Heq.
Qed.

End SelectionFacts.

(** ** The URL flags and the URL score *)

Section UrlFlags.
Import Spec URLAnalyzer.
Local Open Scope Z_scope.

Lemma sumZ_map_add {A} (a b : A -> Z) (l : list A) :
  sumZ (map (fun u => a u + b u) l) = sumZ (map a l) + sumZ (map b l).
Proof. unfold sumZ. induction l as [|u l IH]; cbn in *; lia. Qed.

Lemma sumZ_flag_nonneg (w : Z) (flag : string -> bool) (l : list string) :
  0 <= w -> 0 <= sumZ (map (fun u => if flag u then w else 0) l).
Proof.
  intros Hw. unfold sumZ. induction l as [|u l IH]; cbn in *; [lia | destruct (flag u); lia].
Qed.

Lemma sumZ_flag_exists (w : Z) (flag : string -> bool) (l : list string) :
  0 <= w ->
  (if existsb flag l then w else 0) <= sumZ (map (fun u => if flag u then w else 0) l).
Proof.
  intros Hw. induction l as [|u l IH]; [cbn; lia|].
  pose proof (sumZ_flag_nonneg w flag l Hw).
  unfold sumZ in *. cbn in *. destruct (flag u); cbn; [lia | exact IH].
Qed.

Lemma sumZ_flag_zero (w : Z) (flag : string -> bool) (l : list string) :
  0 < w ->
  sumZ (map (fun u => if flag u then w else 0) l) = 0 <-> existsb flag l = false.
Proof.
  intros Hw. induction l as [|u l IH]; [cbn; tauto|].
  pose proof (sumZ_flag_nonneg w flag l ltac:(lia)).
  unfold sumZ in *. cbn in *.
  destruct (flag u); cbn; [split; [lia | discriminate] | exact IH].
Qed.

Lemma existsb_never {A} (l : list A) : existsb (fun _ => false) l = false.
Proof. induction l; [reflexivity | assumption]. Qed.

Lemma checkDomainMismatch_exists (urls : list string) (s : string) :
  checkDomainMismatch urls s = existsb (hostDiffers s) urls.
Proof.
  unfold checkDomainMismatch, hostDiffers.
  destruct urls as [|u urls]; [reflexivity|].
  cbn [List.length Nat.eqb orb].
  destruct (String.eqb_spec s "") as [->|_].
  - cbn. symmetry. apply existsb_never.
  - destruct (truthy (extractDomainFromEmail s)); cbn [negb andb].
    + reflexivity.
    + symmetry. apply (existsb_never (u :: urls)).
Qed.

Lemma single_flag (flag : list string -> bool) (f : string -> bool) :
  (forall urls, flag urls = existsb f urls) ->
  forall urls, flag urls = existsb (fun u => flag [u]) urls.
Proof.
  intros H urls. rewrite H. induction urls as [|u urls IH]; [reflexivity|].
  cbn [existsb]. rewrite IH, H. cbn. now rewrite orb_false_r.
Qed.

Lemma penalty_sum (s : string) (urls : list string) :
  sumZ (map (penalty s) urls)
  = sumZ (map (fun u => if hostDiffers s u then 30 else 0) urls)
    + sumZ (map (fun u => if hasSuspiciousPatterns [u] then 25 else 0) urls)
    + sumZ (map (fun u => if hasUrlShorteners [u] then 20 else 0) urls)
    + sumZ (map (fun u => if hasIpAddresses [u] then 35 else 0) urls)
    + sumZ (map (fun u => if hasHttpLinks [u] then 15 else 0) urls).
Proof.
  unfold sumZ. induction urls as [|u urls IH]; [reflexivity|].
  cbn [map fold_right]. rewrite IH. unfold penalty, hostDiffers. lia.
Qed.

Lemma flags_as_exists (urls : list string) :
  hasSuspiciousPatterns urls = existsb (fun u => hasSuspiciousPatterns [u]) urls
  /\ hasUrlShorteners urls = existsb (fun u => hasUrlShorteners [u]) urls
  /\ hasIpAddresses urls = existsb (fun u => hasIpAddresses [u]) urls
  /\ hasHttpLinks urls = existsb (fun u => hasHttpLinks [u]) urls.
Proof.
  repeat split.
  - apply (single_flag hasSuspiciousPatterns _ (fun _ => eq_refl)).
  - apply (single_flag hasUrlShorteners _ (fun _ => eq_refl)).
  - apply (single_flag hasIpAddresses _ (fun _ => eq_refl)).
  - apply (single_flag hasHttpLinks _ (fun _ => eq_refl)).
Qed.

(** X1.  The URL score of the tree classifier is bounded by the flags the
    classifier reports beside it: it is at most 100 less 30 for a domain
    mismatch, 25 for a suspicious pattern, 20 for a shortener, 35 for a
    dotted quad and 15 for a plain-http link (and never below 0); and it
    is exactly 100 if and only if none of the five flags is set. *)
Theorem url_flags_bound_score (urls : list string) (senderEmail : string) :
  analyzeAuthenticity urls senderEmail
  <= Z.max 0 (100 - (if checkDomainMismatch urls senderEmail then 30 else 0)
                  - (if hasSuspiciousPatterns urls then 25 else 0)
                  - (if hasUrlShorteners urls then 20 else 0)
                  - (if hasIpAddresses urls then 35 else 0)
                  - (if hasHttpLinks urls then 15 else 0))
  /\ (analyzeAuthenticity urls senderEmail = 100
      <-> checkDomainMismatch urls senderEmail = false
          /\ hasSuspiciousPatterns urls = false
          /\ hasUrlShorteners urls = false
          /\ hasIpAddresses urls = false
          /\ hasHttpLinks urls = false).
Proof.
  rewrite analyzeAuthenticity_closed, penalty_sum, checkDomainMismatch_exists.
  destruct (flags_as_exists urls) as (-> & -> & -> & ->).
  pose proof (sumZ_flag_exists 30 (hostDiffers senderEmail) urls ltac:(lia)) as B1.
  pose proof (sumZ_flag_exists 25 (fun u => hasSuspiciousPatterns [u]) urls ltac:(lia)) as B2.
  pose proof (sumZ_flag_exists 20 (fun u => hasUrlShorteners [u]) urls ltac:(lia)) as B3.
  pose proof (sumZ_flag_exists 35 (fun u => hasIpAddresses [u]) urls ltac:(lia)) as B4.
  pose proof (sumZ_flag_exists 15 (fun u => hasHttpLinks [u]) urls ltac:(lia)) as B5.
  pose proof (sumZ_flag_zero 30 (hostDiffers senderEmail) urls ltac:(lia)) as Z1.
  pose proof (sumZ_flag_zero 25 (fun u => hasSuspiciousPatterns [u]) urls ltac:(lia)) as Z2.
  pose proof (sumZ_flag_zero 20 (fun u => hasUrlShorteners [u]) urls ltac:(lia)) as Z3.
  pose proof (sumZ_flag_zero 35 (fun u => hasIpAddresses [u]) urls ltac:(lia)) as Z4.
  pose proof (sumZ_flag_zero 15 (fun u => hasHttpLinks [u]) urls ltac:(lia)) as Z5.
  pose proof (sumZ_flag_nonneg 30 (hostDiffers senderEmail) urls ltac:(lia)) as N1.
  pose proof (sumZ_flag_nonneg 25 (fun u => hasSuspiciousPatterns [u]) urls ltac:(lia)) as N2.
  pose proof (sumZ_flag_nonneg 20 (fun u => hasUrlShorteners [u]) urls ltac:(lia)) as N3.
  pose proof (sumZ_flag_nonneg 35 (fun u => hasIpAddresses [u]) urls ltac:(lia)) as N4.
  pose proof (sumZ_flag_nonneg 15 (fun u => hasHttpLinks [u]) urls ltac:(lia)) as N5.
  cbv beta in *. unfold clamp. split.
  - lia.
  - split.
    + intros H. rewrite <- Z1, <- Z2, <- Z3, <- Z4, <- Z5. lia.
    + rewrite <- Z1, <- Z2, <- Z3, <- Z4, <- Z5. lia.
Qed.

End UrlFlags.

(** ** Strings *)

Section StringFacts.
Import Js.

Lemma lowerAscii_idem (c : ascii) : lowerAscii (lowerAscii c) = lowerAscii c.
Proof.
  destruct c as [[] [] [] [] [] [] [] []]; vm_compute; reflexivity.
Qed.

Lemma toLowerCase_idem (s : string) : toLowerCase (toLowerCase s) = toLowerCase s.
Proof.
  unfold toLowerCase. induction s as [|c s IH]; cbn; [reflexivity|].
  rewrite lowerAscii_idem. now f_equal.
Qed.

Lemma toLowerCase_app (a b : string) :
  toLowerCase (a ++ b) = toLowerCase a ++ toLowerCase b.
Proof.
  unfold toLowerCase. induction a as [|c a IH]; [reflexivity|].
  change (String c a ++ b) with (String c (a ++ b)). cbn [mapString].
  rewrite IH. reflexivity.
Qed.

Lemma startsWith_app (a x kw : string) :
  startsWith a kw = true -> startsWith (a ++ x) kw = true.
Proof.
  revert a. induction kw as [|k kw IH]; intros a H; [destruct (a ++ x); reflexivity|].
  destruct a as [|c a]; [discriminate|].
  change (String c a ++ x) with (String c (a ++ x)). cbn [startsWith] in *.
  apply andb_true_iff in H as [-> H]. cbn [andb]. now apply IH.
Qed.

Lemma includes_app_l (a x kw : string) :
  includes a kw = true -> includes (a ++ x) kw = true.
Proof.
  induction a as [|c a IH]; intros H.
  - cbn in H. rewrite orb_false_r in H.
    destruct kw; [|discriminate]. destruct x; reflexivity.
  - cbn [includes] in H. apply orb_true_iff in H as [H|H].
    + change (String c a ++ x) with (String c (a ++ x)).
      cbn [includes]. change (String c (a ++ x)) with (String c a ++ x).
      rewrite (startsWith_app _ _ _ H). reflexivity.
    + change (String c a ++ x) with (String c (a ++ x)).
      cbn [includes]. rewrite (IH H). apply orb_true_r.
Qed.

Lemma includes_app_r (x b kw : string) :
  includes b kw = true -> includes (x ++ b) kw = true.
Proof.
  intros H. induction x as [|c x IH]; [exact H|].
  change (String c x ++ b) with (String c (x ++ b)).
  cbn [includes]. rewrite IH. apply orb_true_r.
Qed.

Lemma includes_countFrom (s kw : string) :
  kw <> "" -> includes s kw = true -> (1 <= countFrom 0 kw s)%nat.
Proof.
  intros Hkw. induction s as [|c s IH]; intros H.
  - cbn in H. destruct kw; [congruence | discriminate].
  - cbn [includes] in H. cbn [countFrom].
    destruct (startsWith (String c s) kw); [lia|].
    cbn in H. auto.
Qed.

Lemma includes_countMatches (s kw : string) :
  includes s kw = true -> (1 <= countMatches kw s)%nat.
Proof.
  intros H. unfold countMatches.
  destruct (String.eqb_spec kw ""); [lia|]. now apply includes_countFrom.
Qed.

End StringFacts.

(** ** Verdicts of the decision tree *)

Section TreeVerdicts.
Import DecisionTreeClassifier DefenseCycle.
Local Open Scope Z_scope.

Ltac split_tree :=
  repeat match goal with
         | |- context [if ?b then _ else _] => destruct b eqn:?; try discriminate
         end.

Lemma mismatch_high (f : features) :
  urlDomainMismatch f = true ->
  v_riskLevel (classifyFeatures f) = high /\ 75 <= v_riskScore (classifyFeatures f).
Proof.
  intros H. unfold classifyFeatures, buildDecisionTree, decide2.
  cbn [traverseTree]. rewrite H.
  destruct (hasUrls f); [destruct (urlAuthenticityScore f <? 30)|];
    cbn [v_riskLevel v_riskScore]; try (split; [reflexivity | lia]);
    destruct ((2 <=? credentialKeywords f) && (2 <=? urgencyKeywords f))%bool;
    cbn [v_riskLevel v_riskScore]; split; try reflexivity; lia.
Qed.

(** X2.  Whatever else an email contains, when one of its links points
    to a host other than the domain of the sender address (the
    [urlDomainMismatch] feature), the decision tree answers high with a
    score of at least 75. *)
Theorem domain_mismatch_is_high (e : email) :
  urlDomainMismatch (extractFeatures e) = true ->
  v_riskLevel (fst (classify e)) = high /\ 75 <= v_riskScore (fst (classify e)).
Proof.
  intros H. rewrite classify_of_features. now apply mismatch_high.
Qed.

Lemma domain_mismatch_is_high_witness :
  let e := mkEmail (Some "Invoice") (Some "See the attached invoice.") None
                   (Some "billing@bank.com") (Some ["https://evil.test/pay"%string]) in
  v_riskLevel (fst (classify e)) = high /\ 75 <= v_riskScore (fst (classify e)).
Proof.
  apply domain_mismatch_is_high. vm_compute. reflexivity.
Defined.

Lemma reachable_verdicts (f : features) :
  totalSuspicionScore f = 0 -> totalUrgencyScore f = 0 ->
  In (verdictCore (classifyFeatures f))
     [(high, 85, 9 # 10); (high, 80, 85 # 100); (high, 75, 8 # 10);
      (medium, 55, 7 # 10); (medium, 45, 6 # 10); (medium, 40, 55 # 100);
      (low, 25, 8 # 10); (low, 30, 6 # 10)].
Proof.
  intros Hs Hu. unfold classifyFeatures, buildDecisionTree, decide2.
  cbn [traverseTree]. rewrite Hs, Hu.
  change (20 <=? 0) with false. change (15 <=? 0) with false. cbn [andb].
  destruct (hasUrls f); [destruct (urlAuthenticityScore f <? 30)|];
    split_tree; cbn; tauto.
Qed.

(** X3.  On the features that [extractFeatures] produces only eight of
    the eleven verdicts of the tree can come out: the leaves "Multiple
    suspicious indicators detected" (high, 70) and "High urgency with low
    professionalism indicators" (medium, 50) are never reached, and
    neither is the fallback verdict (low, 30, confidence 0.5). *)
Theorem unreachable_verdicts (e : email) :
  In (verdictCore (fst (classify e)))
     [(high, 85, 9 # 10); (high, 80, 85 # 100); (high, 75, 8 # 10);
      (medium, 55, 7 # 10); (medium, 45, 6 # 10); (medium, 40, 55 # 100);
      (low, 25, 8 # 10); (low, 30, 6 # 10)].
Proof.
  rewrite classify_of_features. apply reachable_verdicts; reflexivity.
Qed.

End TreeVerdicts.

(** ** The sender score, the keyword counters and the inline scorer *)

Section ScorerFacts.
Import Js DecisionTreeClassifier DefenseCycle Examples.
Local Open Scope Z_scope.

Lemma sender_score_without_pattern (s n : string) :
  SenderAnalyzer.hasSuspiciousPattern s = false ->
  50 <= SenderAnalyzer.analyzeAuthenticity s n.
Proof.
  intros H. unfold SenderAnalyzer.analyzeAuthenticity. rewrite H.
  destruct (String.eqb s ""); [lia|]. cbv zeta.
  assert (30 <= SenderAnalyzer.analyzeDomainReputation s) as Hrep.
  { unfold SenderAnalyzer.analyzeDomainReputation.
    repeat match goal with |- context [if ?b then _ else _] => destruct b end; lia. }
  repeat match goal with |- context [if ?b then _ else _] => destruct b end; lia.
Qed.

Lemma score_55_condition (f : features) :
  v_riskScore (classifyFeatures f) = 55 ->
  senderAuthenticityScore f < 40
  /\ (1 <= credentialKeywords f \/ 1 <= securityKeywords f).
Proof.
  unfold classifyFeatures, buildDecisionTree, decide2. cbn [traverseTree].
  destruct (hasUrls f); [destruct (urlAuthenticityScore f <? 30)|];
    repeat match goal with
           | |- context [if ?b then _ else _] =>
               let E := fresh "E" in destruct b eqn:E
           end;
    cbn [v_riskScore]; intros H; try discriminate H;
    match goal with
    | E : (_ <? 40) && _ = true |- _ =>
        apply andb_true_iff in E as [Hlt Hkw]; apply orb_true_iff in Hkw; lia
    end.
Qed.

(** X4.  The verdict "Suspicious sender with risk indicators" (medium,
    score 55) is only given to an email whose sender address matches one
    of the three suspicious sender patterns and whose text holds a
    credential or a security keyword: without such a pattern the sender
    score cannot fall below 50. *)
Theorem suspicious_sender_verdict (e : email) :
  v_riskScore (fst (classify e)) = 55 ->
  hasSuspiciousSenderPattern (extractFeatures e) = true
  /\ (1 <= credentialKeywords (extractFeatures e)
      \/ 1 <= securityKeywords (extractFeatures e)).
Proof.
  rewrite classify_of_features. intros H.
  apply score_55_condition in H as [Hs Hk]. split; [|exact Hk].
  destruct (hasSuspiciousSenderPattern (extractFeatures e)) eqn:E; [reflexivity|].
  cbn [extractFeatures hasSuspiciousSenderPattern senderAuthenticityScore] in E, Hs.
  pose proof (sender_score_without_pattern _ (toLowerCase (orEmpty (sender e))) E). lia.
Qed.

Lemma suspicious_sender_verdict_witness :
  let e := mkEmail (Some "Hello") (Some "Please send your password.") None
                   (Some "noreply1234@free.com") (Some []) in
  hasSuspiciousSenderPattern (extractFeatures e) = true
  /\ (1 <= credentialKeywords (extractFeatures e)
      \/ 1 <= securityKeywords (extractFeatures e)).
Proof.
  apply suspicious_sender_verdict. vm_compute. reflexivity.
Defined.

Lemma countIf_acc (p : string -> bool) (l : list string) (a : Z) :
  fold_left (fun count kw => if p kw then count + 1 else count) l a
  = a + AutonomousDefenseAgent.countIf p l.
Proof.
  unfold AutonomousDefenseAgent.countIf. revert a.
  induction l as [|kw l IH]; intros a; cbn [fold_left]; [lia|].
  rewrite IH, (IH (if p kw then 0 + 1 else 0)). destruct (p kw); lia.
Qed.

Lemma countMatches_acc (g : string -> nat) (l : list string) (a : Z) :
  fold_left (fun count kw => count + Z.of_nat (g kw)) l a
  = a + fold_left (fun count kw => count + Z.of_nat (g kw)) l 0.
Proof.
  revert a. induction l as [|kw l IH]; intros a; cbn [fold_left]; [lia|].
  rewrite IH, (IH (0 + _)). lia.
Qed.

Lemma countMatches_nonneg (g : string -> nat) (l : list string) :
  0 <= fold_left (fun count kw => count + Z.of_nat (g kw)) l 0.
Proof.
  induction l as [|kw l IH]; cbn [fold_left]; [lia|].
  rewrite countMatches_acc. lia.
Qed.

Lemma presence_le_occurrences (p : string -> bool) (g : string -> nat) (l1 l2 : list string) :
  sublist l1 l2 ->
  (forall kw, p kw = true -> (1 <= g kw)%nat) ->
  AutonomousDefenseAgent.countIf p l1
  <= fold_left (fun count kw => count + Z.of_nat (g kw)) l2 0.
Proof.
  intros Hsub Hp. induction Hsub as [|kw l1 l2 _ IH|kw l1 l2 _ IH].
  - cbn. lia.
  - unfold AutonomousDefenseAgent.countIf in *. cbn [fold_left].
    rewrite countIf_acc, countMatches_acc.
    unfold AutonomousDefenseAgent.countIf.
    specialize (Hp kw). destruct (p kw); [specialize (Hp eq_refl)|]; lia.
  - cbn [fold_left]. rewrite countMatches_acc. lia.
Qed.

Lemma joined_lower (s c : string) :
  toLowerCase (KeywordAnalyzer.joined (toLowerCase s) (toLowerCase c))
  = KeywordAnalyzer.joined (toLowerCase s) (toLowerCase c).
Proof.
  unfold KeywordAnalyzer.joined.
  rewrite !toLowerCase_app, !toLowerCase_idem. reflexivity.
Qed.

Lemma present_in_joined (s c kw : string) :
  includes s kw || includes c kw = true ->
  (1 <= countMatches kw (KeywordAnalyzer.joined s c))%nat.
Proof.
  intros H. apply includes_countMatches. unfold KeywordAnalyzer.joined.
  apply orb_true_iff in H as [H|H].
  - now apply includes_app_l.
  - now apply includes_app_r, includes_app_r.
Qed.

Ltac solve_sublist :=
  repeat first [apply sublist_nil | apply sublist_skip | apply sublist_cons].

Lemma counts_dominated (e : email) :
  urgencyCount e <= urgencyKeywords (extractFeatures e)
  /\ credentialCount e <= credentialKeywords (extractFeatures e)
  /\ securityCount e <= securityKeywords (extractFeatures e).
Proof.
  cbn [extractFeatures urgencyKeywords credentialKeywords securityKeywords].
  unfold urgencyCount, credentialCount, securityCount.
  unfold KeywordAnalyzer.countUrgencyKeywords, KeywordAnalyzer.countCredentialKeywords,
    KeywordAnalyzer.countSecurityKeywords, KeywordAnalyzer.countKeywords.
  cbv zeta. rewrite joined_lower.
  split; [|split]; apply presence_le_occurrences.
  - unfold AutonomousDefenseAgent.urgencyKeywords, KeywordAnalyzer.urgencyKeywords.
    solve_sublist.
  - intros kw. apply present_in_joined.
  - unfold AutonomousDefenseAgent.credentialKeywords, KeywordAnalyzer.credentialKeywords.
    solve_sublist.
  - intros kw. apply present_in_joined.
  - unfold AutonomousDefenseAgent.securityKeywords, KeywordAnalyzer.securityKeywords.
    solve_sublist.
  - intros kw H. apply present_in_joined. rewrite H. apply orb_true_r.
Qed.

Lemma keyword_rule_high (f : features) :
  2 <= urgencyKeywords f -> 2 <= credentialKeywords f ->
  v_riskLevel (classifyFeatures f) = high.
Proof.
  intros Hu Hc. unfold classifyFeatures, buildDecisionTree, decide2.
  cbn [traverseTree].
  replace (2 <=? credentialKeywords f) with true by (symmetry; apply Z.leb_le; lia).
  replace (2 <=? urgencyKeywords f) with true by (symmetry; apply Z.leb_le; lia).
  cbn [andb].
  destruct (hasUrls f); [destruct (urlAuthenticityScore f <? 30)|]; reflexivity.
Qed.

(** X5.  The keyword counters of the decision tree are never below those
    of the inline scorer of the defense agent: the scorer counts the
    keywords of its (shorter) lists that are present, the tree counts the
    occurrences of the keywords of its lists in subject and content.  So
    an email that gets the top keyword score of the inline scorer (at
    least two urgency and two credential keywords) is classified high by
    the decision tree. *)
Theorem tree_counts_dominate (e : email) :
  (urgencyCount e <= urgencyKeywords (extractFeatures e)
   /\ credentialCount e <= credentialKeywords (extractFeatures e)
   /\ securityCount e <= securityKeywords (extractFeatures e))
  /\ (2 <= urgencyCount e -> 2 <= credentialCount e ->
      v_riskLevel (fst (classify e)) = high).
Proof.
  pose proof (counts_dominated e) as (Hu & Hc & Hs).
  split; [auto|]. intros H1 H2. rewrite classify_of_features.
  apply keyword_rule_high; lia.
Qed.

Lemma tree_counts_dominate_witness :
  v_riskLevel (fst (classify scenarioB)) = high.
Proof.
  apply (proj2 (tree_counts_dominate scenarioB)); vm_compute; discriminate.
Defined.

Lemma classifyEmail_score (e : email) :
  let senderEmail := toLowerCase (orEmpty (senderEmail e)) in
  v_riskScore (AutonomousDefenseAgent.classifyEmail e)
  = Z.min 100 (Z.max 0
      (25 + AutonomousDefenseAgent.urlPoints (urlsOfEmail e) senderEmail
       + AutonomousDefenseAgent.keywordPoints (urgencyCount e) (credentialCount e)
                                              (securityCount e)
       + (if noreplySender senderEmail then 3 else 0)
       + (if externalSender senderEmail then 10 else 0))).
Proof.
  unfold AutonomousDefenseAgent.classifyEmail. cbv zeta. cbn [v_riskScore].
  fold (urgencyCount e). fold (credentialCount e). fold (securityCount e).
  fold (noreplySender (toLowerCase (orEmpty (senderEmail e)))).
  fold (externalSender (toLowerCase (orEmpty (senderEmail e)))).
  destruct (noreplySender _), (externalSender _); lia.
Qed.

Lemma classifyEmail_level (e : email) :
  v_riskLevel (AutonomousDefenseAgent.classifyEmail e)
  = Spec.bucket (v_riskScore (AutonomousDefenseAgent.classifyEmail e)).
Proof. reflexivity. Qed.

Lemma keywordPoints_range (u c s : Z) :
  0 <= AutonomousDefenseAgent.keywordPoints u c s <= 35.
Proof.
  unfold AutonomousDefenseAgent.keywordPoints.
  repeat match goal with |- context [if ?b then _ else _] => destruct b end; lia.
Qed.

Lemma urlPoints_range (urls : list string) (s : string) :
  0 <= AutonomousDefenseAgent.urlPoints urls s <= 45.
Proof.
  unfold AutonomousDefenseAgent.urlPoints.
  repeat match goal with |- context [if ?b then _ else _] => destruct b end; lia.
Qed.

(** X6.  The inline scorer of the defense agent never rates an email
    without links high: its score then lies between 25 and 73, below the
    threshold of 75, so the defense cycle never blocks such an email
    whatever its text and sender. *)
Theorem no_url_never_high (e : email) :
  urlsOfEmail e = [] ->
  25 <= v_riskScore (AutonomousDefenseAgent.classifyEmail e) <= 73
  /\ v_riskLevel (AutonomousDefenseAgent.classifyEmail e) <> high.
Proof.
  intros H. rewrite classifyEmail_level.
  pose proof (classifyEmail_score e) as Hs. cbv zeta in Hs. rewrite Hs, H.
  pose proof (keywordPoints_range (urgencyCount e) (credentialCount e) (securityCount e)).
  change (AutonomousDefenseAgent.urlPoints [] _) with 0.
  destruct (noreplySender _), (externalSender _); unfold Spec.bucket;
    (split; [lia|]);
    repeat match goal with
           | |- context [if ?b then _ else _] =>
               let E := fresh "E" in destruct b eqn:E; try discriminate
           end; apply Z.leb_le in E; lia.
Qed.

Lemma no_url_never_high_witness :
  25 <= v_riskScore (AutonomousDefenseAgent.classifyEmail scenarioB) <= 73
  /\ v_riskLevel (AutonomousDefenseAgent.classifyEmail scenarioB) <> high.
Proof.
  apply no_url_never_high. reflexivity.
Defined.

End ScorerFacts.

(** ** Seeding, saving and reloading the ledger *)

Section SeedingFacts.
Import StrategyTrainer Ledger LedgerViews Examples.

Lemma seedStrategy_keeps l : forall (m : gmap string strategyData) key d,
  m !! key = Some d -> fold_left seedStrategy l m !! key = Some d.
Proof.
  induction l as [|x l IH]; intros m key d H; [exact H|].
  cbn [fold_left]. apply IH. unfold seedStrategy.
  destruct (m !! getStrategyKey x) eqn:E; [exact H|].
  rewrite lookup_insert_ne; [exact H | congruence].
Qed.

Lemma seedStrategy_covers l : forall (m : gmap string strategyData) s,
  In s l -> is_Some (fold_left seedStrategy l m !! getStrategyKey s).
Proof.
  induction l as [|y l IH]; intros m x Hin; [destruct Hin|].
  cbn [fold_left]. destruct Hin as [->|Hin]; [|now apply IH].
  assert (is_Some (seedStrategy m x !! getStrategyKey x)) as [d Hd].
  { unfold seedStrategy. destruct (m !! getStrategyKey x) eqn:E; [rewrite E; eauto|].
    rewrite lookup_insert_eq. eauto. }
  exists d. now apply seedStrategy_keeps.
Qed.

Lemma seedStrategy_present l (m : gmap string strategyData) :
  (forall s, In s l -> is_Some (m !! getStrategyKey s)) -> fold_left seedStrategy l m = m.
Proof.
  induction l as [|x l IH]; intros H; [reflexivity|].
  cbn [fold_left]. assert (seedStrategy m x = m) as ->.
  { unfold seedStrategy. destruct (H x (or_introl eq_refl)) as [d ->]. reflexivity. }
  apply IH. intros y Hy. apply H. now right.
Qed.

Lemma seedPersona_keeps l : forall (m : gmap string personaData) key d,
  m !! key = Some d -> fold_left seedPersona l m !! key = Some d.
Proof.
  induction l as [|x l IH]; intros m key d H; [exact H|].
  cbn [fold_left]. apply IH. unfold seedPersona.
  destruct (m !! idString (id x)) eqn:E; [exact H|].
  rewrite lookup_insert_ne; [exact H | congruence].
Qed.

Lemma seedPersona_covers l : forall (m : gmap string personaData) p,
  In p l -> is_Some (fold_left seedPersona l m !! idString (id p)).
Proof.
  induction l as [|y l IH]; intros m x Hin; [destruct Hin|].
  cbn [fold_left]. destruct Hin as [->|Hin]; [|now apply IH].
  assert (is_Some (seedPersona m x !! idString (id x))) as [d Hd].
  { unfold seedPersona. destruct (m !! idString (id x)) eqn:E; [rewrite E; eauto|].
    rewrite lookup_insert_eq. eauto. }
  exists d. now apply seedPersona_keeps.
Qed.

Lemma seedPersona_present l (m : gmap string personaData) :
  (forall p, In p l -> is_Some (m !! idString (id p))) -> fold_left seedPersona l m = m.
Proof.
  induction l as [|x l IH]; intros H; [reflexivity|].
  cbn [fold_left]. assert (seedPersona m x = m) as ->.
  { unfold seedPersona. destruct (H x (or_introl eq_refl)) as [d ->]. reflexivity. }
  apply IH. intros y Hy. apply H. now right.
Qed.

Lemma initializeDefaultScores_covered t : covered (initializeDefaultScores t).
Proof.
  split; cbn; intros x Hx; [now apply seedStrategy_covers | now apply seedPersona_covers].
Qed.

Lemma initializeDefaultScores_id t : covered t -> initializeDefaultScores t = t.
Proof.
  intros [Hs Hp]. unfold initializeDefaultScores.
  rewrite seedStrategy_present, seedPersona_present by assumption.
  destruct t; reflexivity.
Qed.



Lemma learnEmail_covered st t e : covered t -> covered (learnEmail st t e).
Proof.
  intros [Hs Hp]. destruct (learnEmail_roster st t e) as [Rs Rp].
  split.
  - intros s Hin. rewrite Rs in Hin. rewrite learnEmail_strategy.
    destruct (decide _); [eauto | now apply Hs].
  - intros p Hin. rewrite Rp in Hin. rewrite learnEmail_persona.
    destruct (optEqb _ _); [eauto | now apply Hp].
Qed.

Lemma runSteps_covered steps : forall t, covered t -> covered (runSteps steps t).
Proof.
  unfold runSteps. induction steps as [|s steps IH]; intros t H; [exact H|].
  cbn [fold_left]. apply IH. now apply learnEmail_covered.
Qed.

Lemma runSteps_roster steps : forall t,
  allStrategies (runSteps steps t) = allStrategies t
  /\ allPersonas (runSteps steps t) = allPersonas t.
Proof.
  unfold runSteps. induction steps as [|s steps IH]; intros t; [split; reflexivity|].
  cbn [fold_left]. destruct (IH (learnEmail (fst s) t (snd s))) as [-> ->].
  apply learnEmail_roster.
Qed.

Lemma reload_covered (t : trainer) :
  covered t ->
  newTrainer (Some (saveLearnedPatterns t)) (allStrategies t) (allPersonas t) = t.
Proof.
  intros H. unfold newTrainer, loadLearnedPatterns, saveLearnedPatterns.
  cbn [lf_strategyScores lf_personaVulnerabilities lf_combinations
       allStrategies allPersonas].
  rewrite initializeDefaultScores_id; [destruct t; reflexivity|].
  destruct t; exact H.
Qed.

Lemma learnFromCycle_file inbox emails t f :
  snd (learnFromCycle inbox emails t) = Some f ->
  f = saveLearnedPatterns (fst (learnFromCycle inbox emails t)).
Proof.
  destruct emails; [discriminate|]. cbn [learnFromCycle snd fst]. congruence.
Qed.

(** X8.  Restarting the attack agent loses nothing: take a trainer built
    by the constructor (with or without a ledger file) that has since
    learnt from any number of cycles; when its next [learnFromCycle]
    writes the ledger file, a new trainer constructed with the same
    roster from that file is the trainer that wrote it. *)
Theorem restart_restores_trainer
    (file : option learnedFile) (strategies : list strategy) (personas : list persona)
    (cycles : list cycle) (inbox : option (list inboxEmail))
    (emailsGenerated : list generatedEmail) (written : learnedFile) :
  let t := runCycles cycles (newTrainer file strategies personas) in
  snd (learnFromCycle inbox emailsGenerated t) = Some written ->
  newTrainer (Some written) strategies personas
  = fst (learnFromCycle inbox emailsGenerated t).
Proof.
  cbv zeta. intros H.
  assert (covered (fst (learnFromCycle inbox emailsGenerated
                          (runCycles cycles (newTrainer file strategies personas)))))
    as Hc.
  { rewrite learnFromCycle_steps, runCycles_steps.
    apply runSteps_covered, runSteps_covered, initializeDefaultScores_covered. }
  assert (allStrategies (fst (learnFromCycle inbox emailsGenerated
                                (runCycles cycles (newTrainer file strategies personas))))
          = strategies
          /\ allPersonas (fst (learnFromCycle inbox emailsGenerated
                                 (runCycles cycles (newTrainer file strategies personas))))
             = personas) as [Rs Rp].
  { rewrite learnFromCycle_steps, runCycles_steps.
    destruct (runSteps_roster (stepsOfCycle inbox emailsGenerated)
                (runSteps (stepsOfCycles cycles) (newTrainer file strategies personas)))
      as [-> ->].
    destruct (runSteps_roster (stepsOfCycles cycles) (newTrainer file strategies personas))
      as [-> ->].
    destruct file; split; reflexivity. }
  apply learnFromCycle_file in H.
  revert H Hc Rs Rp.
  generalize (fst (learnFromCycle inbox emailsGenerated
                     (runCycles cycles (newTrainer file strategies personas)))).
  intros t' -> Hc <- <-. now apply reload_covered.
Qed.

Lemma restart_restores_trainer_witness :
  newTrainer (Some firstCycleFile) ATTACK_STRATEGIES TARGET_PERSONAS
  = fst (learnFromCycle deliveredInbox [firstEmail] freshTrainer).
Proof.
  apply (restart_restores_trainer None ATTACK_STRATEGIES TARGET_PERSONAS []
           deliveredInbox [firstEmail] firstCycleFile).
  reflexivity.
Defined.

End SeedingFacts.

(** ** What a learning cycle touches *)

Section CycleFacts.
Import StrategyTrainer Ledger LedgerViews Examples.

Lemma filter_length_zero {A} (p : A -> bool) (l : list A) :
  List.length (List.filter p l) = 0%nat -> forall x, In x l -> p x = false.
Proof.
  induction l as [|y l IH]; intros H x Hin; [destruct Hin|].
  cbn [List.filter] in H. destruct (p y) eqn:E; [discriminate|].
  destruct Hin as [<-|Hin]; [exact E | now apply IH].
Qed.

Lemma runSteps_frame steps : forall t,
  (forall key, strategyCalls key (map snd steps) = 0%nat ->
               strategyScores (runSteps steps t) !! key = strategyScores t !! key)
  /\ (forall key, personaCalls key (map snd steps) = 0%nat ->
                  personaVulnerabilities (runSteps steps t) !! key
                  = personaVulnerabilities t !! key)
  /\ (forall key, combinationCalls key (map snd steps) = 0%nat ->
                  combinations (runSteps steps t) !! key = combinations t !! key).
Proof.
  unfold runSteps, strategyCalls, personaCalls, combinationCalls.
  induction steps as [|s steps IH]; intros t; [repeat split; reflexivity|].
  cbn [fold_left map]. destruct (IH (learnEmail (fst s) t (snd s))) as (I1 & I2 & I3).
  split; [|split]; intros key H; cbn [List.filter] in H.
  - destruct (String.eqb_spec (keyOf (snd s)) key) as [E|E]; [discriminate|].
    rewrite I1 by exact H. rewrite learnEmail_strategy.
    destruct (decide _); [contradiction | reflexivity].
  - destruct (optEqb (personaKey (snd s)) key) eqn:E; [discriminate|].
    rewrite I2 by exact H. rewrite learnEmail_persona, E. reflexivity.
  - destruct (optEqb (combinationKey (snd s)) key) eqn:E; [discriminate|].
    rewrite I3 by exact H. rewrite learnEmail_combination, E. reflexivity.
Qed.

(** X9.  A learning cycle changes only the entries of the emails it was
    given: the entry of a strategy, persona or combination that none of
    the generated emails names is the same after [learnFromCycle], the
    roster is never changed, and a cycle without generated emails leaves
    the trainer as it is and writes no file. *)
Theorem learning_touches_only_named_entries
    (inbox : option (list inboxEmail)) (emailsGenerated : list generatedEmail)
    (t : trainer) :
  let t' := fst (learnFromCycle inbox emailsGenerated t) in
  allStrategies t' = allStrategies t
  /\ allPersonas t' = allPersonas t
  /\ (forall key, strategyCalls key emailsGenerated = 0%nat ->
                  strategyScores t' !! key = strategyScores t !! key)
  /\ (forall key, personaCalls key emailsGenerated = 0%nat ->
                  personaVulnerabilities t' !! key = personaVulnerabilities t !! key)
  /\ (forall key, combinationCalls key emailsGenerated = 0%nat ->
                  combinations t' !! key = combinations t !! key)
  /\ (emailsGenerated = [] ->
      learnFromCycle inbox emailsGenerated t = (t, None)).
Proof.
  cbv zeta. rewrite learnFromCycle_steps.
  destruct (runSteps_roster (stepsOfCycle inbox emailsGenerated) t) as [Rs Rp].
  destruct (runSteps_frame (stepsOfCycle inbox emailsGenerated) t) as (F1 & F2 & F3).
  rewrite stepsOfCycle_emails in F1, F2, F3.
  repeat split; try assumption. intros ->. reflexivity.
Qed.

Lemma learning_touches_only_named_entries_witness :
  strategyScores (fst (learnFromCycle deliveredInbox [firstEmail] freshTrainer))
    !! "anthropic/claude-3-haiku|expert|critical"
  = strategyScores freshTrainer !! "anthropic/claude-3-haiku|expert|critical".
Proof.
  apply (learning_touches_only_named_entries deliveredInbox [firstEmail] freshTrainer).
  reflexivity.
Defined.










End CycleFacts.

(** ** One outcome and the rates; the statuses read from the inbox *)

Section OutcomeFacts.
Import StrategyTrainer Ledger LedgerViews Examples.
Local Open Scope Q_scope.

Lemma mean_towards x a :
  0 <= x <= 100 ->
  ((x * natQ a + 100) / natQ (S a) >= x) /\ ((x * natQ a + 0) / natQ (S a) <= x).
Proof.
  intros Hx. pose proof (natQ_S_pos a) as Hp. pose proof (natQ_nonneg a) as Hn.
  pose proof (natQ_S a) as HS.
  split.
  - apply Qle_shift_div_l; [exact Hp|]. rewrite HS. nra.
  - apply Qle_shift_div_r; [exact Hp|]. rewrite HS. nra.
Qed.

Lemma mean_within x a :
  0 <= x <= 100 ->
  ((x * natQ a + 100) / natQ (S a) <= 100) /\ (0 <= (x * natQ a + 0) / natQ (S a)).
Proof.
  intros Hx. pose proof (natQ_S_pos a) as Hp. pose proof (natQ_nonneg a) as Hn.
  pose proof (natQ_S a) as HS.
  split.
  - apply Qle_shift_div_r; [exact Hp|]. rewrite HS. nra.
  - apply Qle_shift_div_l; [exact Hp|]. rewrite HS. nra.
Qed.

(** X11.  An outcome moves a rate towards what was observed: with rates
    between 0 and 100, recording a bypassed email never lowers the
    bypass rate and recording a stopped one never raises it (likewise
    for clicks), in the running-mean phase as in the decayed phase, and
    the new rate is still between 0 and 100.  Once an entry has at least
    [minAttemptsForLearning] attempts, one outcome moves a rate by about
    5 points at most: the bound proved is 5.001, which leaves room for
    the rounding of the doubles of the code, where the step from 0 is
    5.000000000000004. *)
Theorem outcome_moves_rate (b c : bool) (d : rates) :
  inRange d ->
  bypassRate d <= bypassRate (updateRates true c d) <= 100
  /\ 0 <= bypassRate (updateRates false c d) <= bypassRate d
  /\ clickRate d <= clickRate (updateRates b true d) <= 100
  /\ 0 <= clickRate (updateRates b false d) <= clickRate d
  /\ ((minAttemptsForLearning <= attempts d)%nat ->
      bypassRate d - (5001 # 1000) <= bypassRate (updateRates b c d)
                                 <= bypassRate d + (5001 # 1000)
      /\ clickRate d - (5001 # 1000) <= clickRate (updateRates b c d)
                                   <= clickRate d + (5001 # 1000)).
Proof.
  intros [[Hb0 Hb1] [Hc0 Hc1]].
  assert ((5001 # 1000) == 5 + (1 # 1000)) as Hq by reflexivity.
  unfold updateRates, learningDecay, minAttemptsForLearning.
  replace (S (attempts d) - 1)%nat with (attempts d) by lia.
  destruct (mean_towards (bypassRate d) (attempts d) (conj Hb0 Hb1)) as [Mb1 Mb2].
  destruct (mean_towards (clickRate d) (attempts d) (conj Hc0 Hc1)) as [Mc1 Mc2].
  destruct (mean_within (bypassRate d) (attempts d) (conj Hb0 Hb1)) as [Wb1 Wb2].
  destruct (mean_within (clickRate d) (attempts d) (conj Hc0 Hc1)) as [Wc1 Wc2].
  destruct (Nat.ltb_spec 3 (S (attempts d))) as [Hlt|Hge]; cbn [bypassRate clickRate].
  - repeat split; try lra; destruct b, c; lra.
  - repeat split; try assumption; exfalso; lia.
Qed.

Lemma outcome_moves_rate_witness :
  bypassRate (mkRates 5 2 40 20) <= bypassRate (updateRates true false (mkRates 5 2 40 20))
  /\ bypassRate (updateRates true false (mkRates 5 2 40 20))
     <= bypassRate (mkRates 5 2 40 20) + (5001 # 1000)
  /\ clickRate (updateRates true false (mkRates 5 2 40 20)) <= clickRate (mkRates 5 2 40 20).
Proof.
  assert (inRange (mkRates 5 2 40 20)) as H.
  { unfold inRange. cbn [bypassRate clickRate]. split; split; lra. }
  destruct (outcome_moves_rate true false (mkRates 5 2 40 20) H)
    as ((H1 & _) & _ & _ & (_ & H4) & H5).
  split; [exact H1|]. split; [|exact H4].
  apply H5. unfold minAttemptsForLearning. cbn [attempts]. lia.
Defined.

End OutcomeFacts.

Section StatusFacts.
Import StrategyTrainer Ledger LedgerViews Examples.

Lemma emailMap_last (emails : list inboxEmail) (i : string) :
  fold_left (fun (m : gmap string inboxEmail) email => <[ie_id email := email]> m) emails ∅ !! i
  = lastWithId emails i.
Proof.
  unfold lastWithId. induction emails as [|x emails IH] using rev_ind; [reflexivity|].
  rewrite fold_left_app, rev_app_distr. cbn [fold_left rev app List.find].
  rewrite lookup_insert. destruct (String.eqb_spec (ie_id x) i) as [E|E].
  - destruct (decide _); [reflexivity | contradiction].
  - destruct (decide _); [contradiction | exact IH].
Qed.

Lemma lookupTable_found (emails : list inboxEmail) (i : string) (email : inboxEmail) :
  lastWithId emails i = Some email ->
  lookupTable (fold_left (fun m email => <[ie_id email := email]> m) emails ∅) i
  = Element email.
Proof. intros H. unfold lookupTable. rewrite emailMap_last, H. reflexivity. Qed.

Lemma lookupTable_inherited (emails : list inboxEmail) (i : string) :
  lastWithId emails i = None ->
  lastWithId emails "__proto__" = None ->
  lookupTable (fold_left (fun m email => <[ie_id email := email]> m) emails ∅) i
  = Inherited (inheritsFromObject i).
Proof. intros H Hp. unfold lookupTable. rewrite !emailMap_last, H, Hp. reflexivity. Qed.

(** X12.  [getEmailStatuses] answers exactly for the ids it was asked
    about: an id that was not requested has no entry, and when the inbox
    file cannot be read the result is empty.  For a requested id that
    elements of the inbox array carry, the answer is the (bypassed,
    clicked) pair of the last of them.  For a requested id that no
    element carries, in an inbox without an element of id [__proto__],
    the answer is (false, false) unless the id is the name of a member
    of [Object.prototype] ([constructor], [toString], ...): the lookup
    in the object [emailMap] then finds the inherited function, which
    has no status, and the answer is bypassed = true, clicked = false. *)
Theorem statuses_of_requested_ids
    (emails : list inboxEmail) (emailIds : list string) (emailId : string) :
  getEmailStatuses None emailIds !! emailId = None
  /\ (emailId ∉ emailIds -> getEmailStatuses (Some emails) emailIds !! emailId = None)
  /\ (emailId ∈ emailIds ->
      match lastWithId emails emailId with
      | Some email =>
          getEmailStatuses (Some emails) emailIds !! emailId
          = Some (isBypassed email, isClicked email)
      | None =>
          lastWithId emails "__proto__" = None ->
          getEmailStatuses (Some emails) emailIds !! emailId
          = Some (existsb (String.eqb emailId) objectPrototypeKeys, false)
      end).
Proof.
  split; [apply lookup_empty|].
  unfold getEmailStatuses. cbv zeta. rewrite statuses_entry. split.
  - intros Hout. rewrite bool_decide_eq_false_2 by exact Hout. apply lookup_empty.
  - intros Hin. rewrite bool_decide_eq_true_2 by exact Hin.
    destruct (lastWithId emails emailId) as [email|] eqn:E.
    + rewrite (lookupTable_found emails emailId email E). reflexivity.
    + intros Hp. rewrite (lookupTable_inherited emails emailId E Hp).
      fold (inheritsFromObject emailId).
      destruct (inheritsFromObject emailId); reflexivity.
Qed.

End StatusFacts.

(** ** Selecting a strategy *)

Section StrategyFacts.
Import StrategyTrainer TargetSelection StrategySelection Ledger LedgerViews Examples.
Local Open Scope Q_scope.

Lemma exploitStep_member t (roster : list strategy) (b : best) (s : strategy) :
  In s roster ->
  (forall x, fst b = Some x -> In x roster) ->
  forall x, fst (exploitStep t b s) = Some x -> In x roster.
Proof.
  intros Hs Hb x. unfold exploitStep.
  destruct (strategyScores t !! getStrategyKey s).
  - destruct (Qltb _ _); cbn [fst]; [intros [= <-]; exact Hs | apply Hb].
  - destruct (Qltb _ _); cbn [fst]; [intros [= <-]; exact Hs | apply Hb].
Qed.

Lemma exploit_fold_member t (roster l : list strategy) : forall b : best,
  (forall s, In s l -> In s roster) ->
  (forall x, fst b = Some x -> In x roster) ->
  forall x, fst (fold_left (exploitStep t) l b) = Some x -> In x roster.
Proof.
  induction l as [|s l IH]; intros b Hl Hb; [exact Hb|].
  cbn [fold_left]. apply IH.
  - intros y Hy. apply Hl. now right.
  - apply exploitStep_member; [apply Hl; now left | exact Hb].
Qed.

Lemma exploit_member t :
  allStrategies t <> [] -> exists s, exploit t = Some s /\ In s (allStrategies t).
Proof.
  intros Hne. unfold exploit.
  destruct (fst (fold_left (exploitStep t) (allStrategies t) (None, -1))) as [s|] eqn:E.
  - exists s. split; [reflexivity|].
    revert E. apply exploit_fold_member; [auto | discriminate].
  - destruct (allStrategies t) as [|s l]; [contradiction|].
    exists s. split; [reflexivity | now left].
Qed.

Lemma selectBestStrategy_member (rand : nat -> Q) (k : nat) (t : trainer) :
  SecondCopy.unitInterval rand ->
  allStrategies t <> [] ->
  exists s k', selectBestStrategy rand k t = (Returned (Some s), k')
               /\ In s (allStrategies t)
               /\ (k' = S k \/ k' = S (S k)).
Proof.
  intros Hrand Hne. unfold selectBestStrategy.
  destruct (Qltb (rand k) explorationRate).
  - assert (SecondCopy.randomIndex (rand (S k)) (List.length (allStrategies t))
            < List.length (allStrategies t))%nat as Hlt.
    { apply randomIndex_lt; [apply Hrand|].
      destruct (allStrategies t); [contradiction | cbn; lia]. }
    destruct (nth_error (allStrategies t) _) as [s|] eqn:E.
    + exists s, (S (S k)). split; [reflexivity|]. split; [|now right].
      eapply nth_error_In. exact E.
    + apply nth_error_None in E. lia.
  - destruct (exploit_member t Hne) as (s & -> & Hin).
    exists s, (S k). split; [reflexivity|]. split; [exact Hin | now left].
Qed.

(** X13.  With random numbers in [0, 1) and a roster that is not empty,
    [selectBestStrategy] always returns a strategy of the roster, after
    one random draw (exploitation) or two (exploration).  With an empty
    roster the exploration branch throws (the undefined element is passed
    to [getStrategyKey]) and the exploitation branch returns undefined. *)
Theorem strategy_comes_from_roster (rand : nat -> Q) (k : nat) (t : trainer) :
  SecondCopy.unitInterval rand ->
  (allStrategies t <> [] ->
   exists s k', selectBestStrategy rand k t = (Returned (Some s), k')
                /\ In s (allStrategies t)
                /\ (k' = S k \/ k' = S (S k)))
  /\ (allStrategies t = [] ->
      selectBestStrategy rand k t
      = if Qltb (rand k) explorationRate then (Thrown, S (S k)) else (Returned None, S k)).
Proof.
  intros Hrand. split.
  - now apply selectBestStrategy_member.
  - intros Hnil. unfold selectBestStrategy, exploit. rewrite Hnil.
    destruct (Qltb (rand k) explorationRate); [|reflexivity].
    now destruct (SecondCopy.randomIndex _ _).
Qed.

Lemma strategy_comes_from_roster_witness :
  exists s k', selectBestStrategy (fun _ => 1 # 2) 0 freshTrainer = (Returned (Some s), k')
               /\ In s (allStrategies freshTrainer)
               /\ (k' = 1%nat \/ k' = 2%nat).
Proof.
  apply (strategy_comes_from_roster (fun _ => 1 # 2) 0 freshTrainer).
  - intros n. split; [discriminate | reflexivity].
  - discriminate.
Defined.

Lemma exploitStep_data t (b : best) (s : strategy) d :
  strategyScores t !! getStrategyKey s = Some d ->
  exploitStep t b s
  = if Qltb (snd b) (adjustedOf t s) then (Some s, adjustedOf t s) else b.
Proof.
  intros H. unfold exploitStep, adjustedOf. rewrite H. reflexivity.
Qed.

Lemma exploit_fold_first_max t (l : list strategy) : forall l1 s l2,
  (forall x, In x l -> is_Some (strategyScores t !! getStrategyKey x)) ->
  (forall x, In x l1 -> adjustedOf t x < adjustedOf t s) ->
  (forall x, In x l2 -> adjustedOf t x <= adjustedOf t s) ->
  exists l1' s' l2',
    fold_left (exploitStep t) l (Some s, adjustedOf t s) = (Some s', adjustedOf t s')
    /\ (l1 ++ s :: l2 ++ l)%list = (l1' ++ s' :: l2')%list
    /\ (forall x, In x l1' -> adjustedOf t x < adjustedOf t s')
    /\ (forall x, In x l2' -> adjustedOf t x <= adjustedOf t s').
Proof.
  induction l as [|y l IH]; intros l1 s l2 Hdata H1 H2.
  - exists l1, s, l2. rewrite app_nil_r. auto.
  - cbn [fold_left]. destruct (Hdata y (or_introl eq_refl)) as [d Hd].
    rewrite (exploitStep_data _ _ _ _ Hd). cbn [snd].
    destruct (Qltb (adjustedOf t s) (adjustedOf t y)) eqn:E.
    + apply Qltb_true in E.
      destruct (IH (l1 ++ s :: l2)%list y []) as (l1' & s' & l2' & Hf & Hl & Ha & Hb).
      * intros x Hx. apply Hdata. now right.
      * intros x Hx. apply in_app_or in Hx as [Hx|[<-|Hx]].
        -- specialize (H1 x Hx). lra.
        -- exact E.
        -- specialize (H2 x Hx). lra.
      * intros x [].
      * exists l1', s', l2'. repeat split; try assumption.
        rewrite <- Hl. rewrite <- !app_assoc. reflexivity.
    + apply Qltb_false in E.
      destruct (IH l1 s (l2 ++ [y])%list) as (l1' & s' & l2' & Hf & Hl & Ha & Hb).
      * intros x Hx. apply Hdata. now right.
      * exact H1.
      * intros x Hx. apply in_app_or in Hx as [Hx|[<-|[]]]; [now apply H2 | exact E].
      * exists l1', s', l2'. repeat split; try assumption.
        rewrite <- Hl. rewrite <- !app_assoc. reflexivity.
Qed.

Lemma exploit_first_max t :
  allStrategies t <> [] ->
  (forall s, In s (allStrategies t) ->
             is_Some (strategyScores t !! getStrategyKey s) /\ 0 <= adjustedOf t s) ->
  exists before s after,
    allStrategies t = (before ++ s :: after)%list
    /\ exploit t = Some s
    /\ (forall x, In x before -> adjustedOf t x < adjustedOf t s)
    /\ (forall x, In x after -> adjustedOf t x <= adjustedOf t s).
Proof.
  intros Hne Hdata. unfold exploit.
  destruct (allStrategies t) as [|y l]; [contradiction|]. clear Hne.
  cbn [fold_left]. destruct (Hdata y (or_introl eq_refl)) as [[d Hd] Hy].
  rewrite (exploitStep_data _ _ _ _ Hd). cbn [snd].
  assert (Qltb (-1) (adjustedOf t y) = true) as ->.
  { apply Qltb_true. lra. }
  destruct (exploit_fold_first_max t l [] y []) as (l1' & s' & l2' & Hf & Hl & Ha & Hb).
  - intros x Hx. apply Hdata. now right.
  - intros x [].
  - intros x [].
  - exists l1', s', l2'. rewrite Hf. cbn [fst]. repeat split; assumption.
Qed.

Lemma adjustedScore_nonneg d : 0 <= score d -> 0 <= adjustedScore d.
Proof.
  intros H. unfold adjustedScore, minAttemptsForLearning.
  assert (0 <= Qmin (natQ (attempts (s_rates d)) / natQ 3) 1) as Hm.
  { apply Q.min_glb; [|lra].
    apply Qle_shift_div_l; [reflexivity|]. pose proof (natQ_nonneg (attempts (s_rates d))). lra. }
  nra.
Qed.

(** X14.  The exploitation branch of [selectBestStrategy] returns the
    first strategy of the roster whose adjusted score (the stored score
    times min(attempts / 3, 1)) is the largest: when every strategy of
    the roster has an entry with a score that is not negative, the
    strategies before the chosen one have a strictly smaller adjusted
    score and those after it none that is larger. *)
Theorem exploitation_picks_first_best (t : trainer) :
  allStrategies t <> [] ->
  (forall s, In s (allStrategies t) ->
             exists d, strategyScores t !! getStrategyKey s = Some d /\ 0 <= score d) ->
  exists before s after,
    allStrategies t = (before ++ s :: after)%list
    /\ exploit t = Some s
    /\ (forall x, In x before -> adjustedOf t x < adjustedOf t s)
    /\ (forall x, In x after -> adjustedOf t x <= adjustedOf t s).
Proof.
  intros Hne Hdata. apply exploit_first_max; [exact Hne|].
  intros s Hs. destruct (Hdata s Hs) as (d & Hd & Hscore).
  split; [eauto|]. unfold adjustedOf. rewrite Hd. now apply adjustedScore_nonneg.
Qed.

Lemma exploitation_picks_first_best_witness :
  let t := fst (learnFromCycle deliveredInbox [firstEmail] freshTrainer) in
  exists before s after,
    allStrategies t = (before ++ s :: after)%list
    /\ exploit t = Some s
    /\ (forall x, In x before -> adjustedOf t x < adjustedOf t s)
    /\ (forall x, In x after -> adjustedOf t x <= adjustedOf t s).
Proof.
  apply exploitation_picks_first_best; [discriminate|].
  intros s [<-|[<-|[<-|[]]]]; eexists; (split; [vm_compute; reflexivity|]);
    vm_compute; discriminate.
Defined.

Lemma adjustedScore_unexplored d :
  attempts (s_rates d) = 0%nat -> adjustedScore d == 0.
Proof.
  intros H. unfold adjustedScore. rewrite H.
  assert (Qmin (natQ 0 / natQ minAttemptsForLearning) 1 == 0) as ->; [|ring].
  rewrite Q.min_l; [reflexivity | discriminate].
Qed.

Lemma exploit_unexplored t :
  (forall s, In s (allStrategies t) ->
             exists d, strategyScores t !! getStrategyKey s = Some d
                       /\ attempts (s_rates d) = 0%nat) ->
  exploit t = hd_error (allStrategies t).
Proof.
  intros Hdata.
  assert (forall s, In s (allStrategies t) ->
                    is_Some (strategyScores t !! getStrategyKey s)
                    /\ adjustedOf t s == 0) as Hz.
  { intros s Hs. destruct (Hdata s Hs) as (d & Hd & Ha). split; [eauto|].
    unfold adjustedOf. rewrite Hd. now apply adjustedScore_unexplored. }
  destruct (allStrategies t) as [|y l] eqn:El; [unfold exploit; rewrite El; reflexivity|].
  destruct (exploit_first_max t) as (before & s & after & Hl & He & Hb & _).
  - rewrite El. discriminate.
  - rewrite El. intros s Hs. destruct (Hz s Hs) as [H1 H2]. split; [exact H1|].
    rewrite H2. discriminate.
  - rewrite He. destruct before as [|x before].
    + rewrite El in Hl. cbn in Hl. injection Hl as <- _. reflexivity.
    + exfalso. specialize (Hb x (or_introl eq_refl)).
      assert (In x (allStrategies t)) as Hx by (rewrite Hl; now left).
      assert (In s (allStrategies t)) as Hs
          by (rewrite Hl; apply in_or_app; right; now left).
      rewrite El in Hx, Hs.
      destruct (Hz x Hx) as [_ Zx]. destruct (Hz s Hs) as [_ Zs].
      rewrite Zx, Zs in Hb. discriminate Hb.
Qed.

(** X15.  While no attempt has been recorded the default scores play no
    part in exploitation: every adjusted score is the default times
    min(0 / 3, 1) = 0, so a trainer started without a ledger file returns
    the first strategy of the roster whatever the attack levels are
    (undefined when the roster is empty), whenever the first random
    number is not below the exploration rate. *)
Theorem fresh_trainer_exploits_first
    (strategies : list strategy) (personas : list persona) (rand : nat -> Q) (k : nat) :
  explorationRate <= rand k ->
  selectBestStrategy rand k (newTrainer None strategies personas)
  = (Returned (hd_error strategies), S k).
Proof.
  intros Hr. unfold selectBestStrategy.
  assert (Qltb (rand k) explorationRate = false) as -> by now apply Qltb_false.
  rewrite exploit_unexplored; [reflexivity|].
  intros s Hs.
  destruct (initializeDefaultScores_covered
              (loadLearnedPatterns None (mkTrainer strategies personas ∅ ∅ ∅)))
    as [Hc _].
  destruct (Hc s Hs) as [d Hd]. exists d. split; [exact Hd|].
  destruct (newTrainer_fresh strategies personas) as (Ha & _).
  specialize (Ha (getStrategyKey s)). unfold strategyRates in Ha.
  unfold newTrainer in Ha. rewrite Hd in Ha. exact Ha.
Qed.

Lemma fresh_trainer_exploits_first_witness :
  selectBestStrategy (fun _ => 1 # 2) 0 freshTrainer
  = (Returned (Some (mkStrategy "meta-llama/llama-3.1-8b-instruct" "basic" "medium")), 1%nat).
Proof.
  apply (fresh_trainer_exploits_first ATTACK_STRATEGIES TARGET_PERSONAS (fun _ => 1 # 2) 0).
  discriminate.
Defined.

Lemma comboStep_cases t pid (b : best) (s : strategy) :
  comboStep t (idString pid) b s
  = if qualified t pid s && Qltb (snd b) (combinationScoreOf t pid s)
    then (Some s, combinationScoreOf t pid s) else b.
Proof.
  unfold comboStep, qualified, combinationScoreOf.
  destruct (combinations t !! getCombinationKey s (idString pid)); [|reflexivity].
  destruct (Nat.leb _ _); reflexivity.
Qed.

Lemma combo_fold_none t pid (l : list strategy) :
  (forall s, In s l -> qualified t pid s = false) ->
  fold_left (comboStep t (idString pid)) l (None, -1) = (None, -1).
Proof.
  induction l as [|s l IH]; intros H; [reflexivity|].
  cbn [fold_left]. rewrite comboStep_cases, (H s (or_introl eq_refl)). cbn [andb].
  apply IH. intros x Hx. apply H. now right.
Qed.

Lemma combo_fold_max t pid (l : list strategy) : forall seen s,
  (forall x, In x l -> qualified t pid x = true -> 0 <= combinationScoreOf t pid x) ->
  In s seen -> qualified t pid s = true ->
  (forall x, In x seen -> qualified t pid x = true ->
             combinationScoreOf t pid x <= combinationScoreOf t pid s) ->
  exists s',
    fold_left (comboStep t (idString pid)) l (Some s, combinationScoreOf t pid s)
    = (Some s', combinationScoreOf t pid s')
    /\ In s' (seen ++ l)%list /\ qualified t pid s' = true
    /\ (forall x, In x (seen ++ l)%list -> qualified t pid x = true ->
                   combinationScoreOf t pid x <= combinationScoreOf t pid s').
Proof.
  induction l as [|y l IH]; intros seen s Hpos Hin Hq Hmax.
  - exists s. rewrite app_nil_r. auto.
  - cbn [fold_left]. rewrite comboStep_cases. cbn [snd].
    replace (seen ++ y :: l)%list with ((seen ++ [y]) ++ l)%list
      by (rewrite <- app_assoc; reflexivity).
    destruct (qualified t pid y) eqn:Qy; cbn [andb];
      [destruct (Qltb _ _) eqn:E|].
    + apply Qltb_true in E. apply IH.
      * intros x Hx. apply Hpos. now right.
      * apply in_or_app. right. now left.
      * exact Qy.
      * intros x Hx Hqx. apply in_app_or in Hx as [Hx|[<-|[]]]; [|lra].
        specialize (Hmax x Hx Hqx). lra.
    + apply Qltb_false in E. apply IH.
      * intros x Hx. apply Hpos. now right.
      * apply in_or_app. now left.
      * exact Hq.
      * intros x Hx Hqx. apply in_app_or in Hx as [Hx|[<-|[]]]; [now apply Hmax | exact E].
    + apply IH.
      * intros x Hx. apply Hpos. now right.
      * apply in_or_app. now left.
      * exact Hq.
      * intros x Hx Hqx. apply in_app_or in Hx as [Hx|[<-|[]]]; [now apply Hmax|].
        congruence.
Qed.

Lemma combo_fold_some t pid (l : list strategy) : forall seen,
  (forall x, In x l -> qualified t pid x = true -> 0 <= combinationScoreOf t pid x) ->
  (forall x, In x seen -> qualified t pid x = false) ->
  (exists s, In s l /\ qualified t pid s = true) ->
  exists s',
    fold_left (comboStep t (idString pid)) l (None, -1)
    = (Some s', combinationScoreOf t pid s')
    /\ In s' (seen ++ l)%list /\ qualified t pid s' = true
    /\ (forall x, In x (seen ++ l)%list -> qualified t pid x = true ->
                   combinationScoreOf t pid x <= combinationScoreOf t pid s').
Proof.
  induction l as [|y l IH]; intros seen Hpos Hseen (s & Hs & Hq); [destruct Hs|].
  cbn [fold_left]. rewrite comboStep_cases. cbn [snd].
  replace (seen ++ y :: l)%list with ((seen ++ [y]) ++ l)%list
    by (rewrite <- app_assoc; reflexivity).
  destruct (qualified t pid y) eqn:Qy; cbn [andb].
  - assert (Qltb (-1) (combinationScoreOf t pid y) = true) as ->.
    { apply Qltb_true. specialize (Hpos y (or_introl eq_refl) Qy). lra. }
    apply combo_fold_max.
    + intros x Hx. apply Hpos. now right.
    + apply in_or_app. right. now left.
    + exact Qy.
    + intros x Hx Hqx. apply in_app_or in Hx as [Hx|[<-|[]]]; [|lra].
      rewrite (Hseen x Hx) in Hqx. discriminate.
  - apply IH.
    + intros x Hx. apply Hpos. now right.
    + intros x Hx. apply in_app_or in Hx as [Hx|[<-|[]]]; [now apply Hseen | exact Qy].
    + destruct Hs as [<-|Hs]; [congruence|]. eauto.
Qed.

Lemma combinationScoreOf_nonneg t pid s :
  ledgerInRange t -> 0 <= combinationScoreOf t pid s.
Proof.
  intros (_ & _ & Hc). unfold combinationScoreOf.
  destruct (combinations t !! _) as [d|] eqn:E; [|discriminate].
  destruct (Hc _ _ E) as [[Hb _] [Hk _]].
  unfold combinationScore. rewrite calculateSuccessScore_weights. lra.
Qed.

(** X16.  [getBestStrategyForPersona] falls back to [selectBestStrategy]
    exactly when no strategy of the roster has a combination entry with
    at least [minAttemptsForLearning] attempts for the persona.
    Otherwise (with rates between 0 and 100) it draws no random number
    and returns a strategy of the roster that has such an entry and whose
    combination score 0.7 * bypassRate + 0.3 * clickRate is the largest
    among those that have one. *)
Theorem persona_strategy_choice
    (rand : nat -> Q) (k : nat) (t : trainer) (personaId : jsId) :
  ((forall s, In s (allStrategies t) -> qualified t personaId s = false) ->
   getBestStrategyForPersona rand k t personaId = selectBestStrategy rand k t)
  /\ (ledgerInRange t ->
      (exists s, In s (allStrategies t) /\ qualified t personaId s = true) ->
      exists s,
        getBestStrategyForPersona rand k t personaId = (Returned (Some s), k)
        /\ In s (allStrategies t) /\ qualified t personaId s = true
        /\ (forall x, In x (allStrategies t) -> qualified t personaId x = true ->
                       combinationScoreOf t personaId x <= combinationScoreOf t personaId s)).
Proof.
  unfold getBestStrategyForPersona, bestCombination. split.
  - intros H. rewrite combo_fold_none by exact H. reflexivity.
  - intros Hr Hex.
    destruct (combo_fold_some t personaId (allStrategies t) []) as (s & -> & Hin & Hq & Hmax).
    + intros x _ _. now apply combinationScoreOf_nonneg.
    + intros x [].
    + exact Hex.
    + exists s. cbn [fst]. auto.
Qed.

Lemma bestCombination_member t pid s :
  bestCombination t pid = Some s -> In s (allStrategies t).
Proof.
  unfold bestCombination.
  assert (forall l (b : best),
            (forall x, In x l -> In x (allStrategies t)) ->
            (forall x, fst b = Some x -> In x (allStrategies t)) ->
            forall x, fst (fold_left (comboStep t (idString pid)) l b) = Some x ->
                      In x (allStrategies t)) as H.
  { induction l as [|y l IH]; intros b Hl Hb; [exact Hb|].
    cbn [fold_left]. apply IH; [intros x Hx; apply Hl; now right|].
    rewrite comboStep_cases. destruct (_ && _); [|exact Hb].
    cbn [fst]. intros x [= <-]. apply Hl. now left. }
  apply H; [auto | discriminate].
Qed.

Lemma getBestStrategyForPersona_member (rand : nat -> Q) (k : nat) (t : trainer) pid :
  SecondCopy.unitInterval rand ->
  allStrategies t <> [] ->
  exists s k', getBestStrategyForPersona rand k t pid = (Returned (Some s), k')
               /\ In s (allStrategies t).
Proof.
  intros Hrand Hne. unfold getBestStrategyForPersona.
  destruct (bestCombination t pid) as [s|] eqn:E.
  - exists s, k. split; [reflexivity | now apply (bestCombination_member t pid)].
  - destruct (selectBestStrategy_member rand k t Hrand Hne) as (s & k' & -> & Hin & _).
    eauto.
Qed.

Lemma persona_strategy_choice_witness :
  exists s,
    getBestStrategyForPersona (fun _ => 0) 0 MoreExamples.seasonedTrainer (NumId 1)
    = (Returned (Some s), 0%nat)
    /\ In s (allStrategies MoreExamples.seasonedTrainer)
    /\ qualified MoreExamples.seasonedTrainer (NumId 1) s = true
    /\ (forall x, In x (allStrategies MoreExamples.seasonedTrainer) ->
                   qualified MoreExamples.seasonedTrainer (NumId 1) x = true ->
                   combinationScoreOf MoreExamples.seasonedTrainer (NumId 1) x
                   <= combinationScoreOf MoreExamples.seasonedTrainer (NumId 1) s).
Proof.
  apply (proj2 (persona_strategy_choice (fun _ => 0) 0 MoreExamples.seasonedTrainer
                                        (NumId 1))).
  - unfold MoreExamples.seasonedTrainer. rewrite learnFromCycle_steps.
    apply runSteps_inRange. apply (newTrainer_fresh ATTACK_STRATEGIES TARGET_PERSONAS).
  - exists (mkStrategy "meta-llama/llama-3.1-8b-instruct" "basic" "medium").
    split; [now left | vm_compute; reflexivity].
Defined.

End StrategyFacts.

(** ** The strategies of one attack cycle *)

Section AttackCycleFacts.
Import StrategyTrainer TargetSelection StrategySelection AttackAgent Examples.
Local Open Scope Q_scope.

Lemma assignStep_ok rand t (n : nat) (pairs : list (persona * strategy))
    (used : gset string) (k : nat) (p : persona) :
  SecondCopy.unitInterval rand ->
  NoDup (map getStrategyKey (allStrategies t)) ->
  (forall x, x ∈ used <-> In x (map (fun ps => getStrategyKey (snd ps)) pairs)) ->
  (List.length pairs < List.length (allStrategies t))%nat ->
  (pairs <> [] -> (1 < n)%nat) ->
  exists s used' k',
    assignStep rand t n (Returned (pairs, used, k)) p
    = Returned ((pairs ++ [(p, s)])%list, used', k')
    /\ In s (allStrategies t)
    /\ ~ In (getStrategyKey s) (map (fun ps => getStrategyKey (snd ps)) pairs)
    /\ (forall x, x ∈ used'
                  <-> In x (map (fun ps => getStrategyKey (snd ps)) (pairs ++ [(p, s)])%list)).
Proof.
  intros Hrand Hnd Hused Hlen Hn.
  assert (allStrategies t <> []) as Hne.
  { intros E. rewrite E in Hlen. cbn in Hlen. lia. }
  destruct (getBestStrategyForPersona_member rand k t (id p) Hrand Hne)
    as (s & k1 & Hbest & Hs).
  assert (forall (x : strategy) (u : gset string),
            (forall y, y ∈ u <-> In y (map (fun ps => getStrategyKey (snd ps)) pairs)) ->
            forall y, y ∈ u ∪ {[getStrategyKey x]}
                      <-> In y (map (fun ps => getStrategyKey (snd ps))
                                    (pairs ++ [(p, x)])%list)) as Hadd.
  { intros x u Hu y. rewrite List.map_app, in_app_iff, elem_of_union, elem_of_singleton, Hu.
    cbn. intuition congruence. }
  unfold assignStep. rewrite Hbest. cbv zeta.
  destruct (bool_decide (getStrategyKey s ∈ used)) eqn:Eused; cbn [andb].
  - apply bool_decide_eq_true in Eused.
    assert (pairs <> []) as Hp.
    { intros ->. apply Hused in Eused. destruct Eused. }
    assert (Nat.ltb 1 n = true) as -> by (apply Nat.ltb_lt; auto).
    cbn [andb].
    set (available := List.filter
                        (fun s0 => negb (bool_decide (getStrategyKey s0 ∈ used)))
                        (allStrategies t)).
    assert (0 < List.length available)%nat as Hav.
    { destruct available as [|a av] eqn:Ea; [|cbn; lia]. exfalso.
      assert (forall y, y ∈ map getStrategyKey (allStrategies t) ->
                        y ∈ map (fun ps => getStrategyKey (snd ps)) pairs) as Hsub.
      { intros y Hy. apply list_elem_of_In, in_map_iff in Hy as (x & <- & Hx).
        apply list_elem_of_In, Hused.
        destruct (decide (getStrategyKey x ∈ used)) as [Hin|Hnin]; [exact Hin|].
        assert (In x available) as Hxa.
        { apply filter_In. split; [exact Hx|].
          rewrite bool_decide_eq_false_2 by exact Hnin. reflexivity. }
        rewrite Ea in Hxa. destruct Hxa. }
      pose proof (submseteq_length _ _ (NoDup_submseteq _ _ Hnd Hsub)) as Hle.
      rewrite !length_map in Hle. lia. }
    assert (Nat.ltb 0 (List.length available) = true) as -> by now apply Nat.ltb_lt.
    assert (SecondCopy.randomIndex (rand k1) (List.length available)
            < List.length available)%nat as Hidx.
    { apply randomIndex_lt; [apply Hrand | exact Hav]. }
    destruct (nth_error available _) as [a|] eqn:Ea; [|apply nth_error_None in Ea; lia].
    apply nth_error_In in Ea. apply filter_In in Ea as [Ha Hfresh].
    apply negb_true_iff, bool_decide_eq_false in Hfresh.
    exists a, (used ∪ {[getStrategyKey a]}), (S k1).
    split; [reflexivity|]. split; [exact Ha|]. split; [|now apply Hadd].
    intros Hin. apply Hfresh, Hused, Hin.
  - apply bool_decide_eq_false in Eused.
    exists s, (used ∪ {[getStrategyKey s]}), k1.
    split; [reflexivity|]. split; [exact Hs|]. split; [|now apply Hadd].
    intros Hin. apply Eused, Hused, Hin.
Qed.

Lemma assign_fold rand t (n : nat) :
  SecondCopy.unitInterval rand ->
  NoDup (map getStrategyKey (allStrategies t)) ->
  (n <= List.length (allStrategies t))%nat ->
  forall (remaining : list persona) (pairs : list (persona * strategy))
         (used : gset string) (k : nat),
    (forall x, x ∈ used <-> In x (map (fun ps => getStrategyKey (snd ps)) pairs)) ->
    (forall ps, In ps pairs -> In (snd ps) (allStrategies t)) ->
    NoDup (map (fun ps => getStrategyKey (snd ps)) pairs) ->
    (List.length pairs + List.length remaining = n)%nat ->
    exists pairs' used' k',
      fold_left (assignStep rand t n) remaining (Returned (pairs, used, k))
      = Returned (pairs', used', k')
      /\ map fst pairs' = (map fst pairs ++ remaining)%list
      /\ (forall ps, In ps pairs' -> In (snd ps) (allStrategies t))
      /\ NoDup (map (fun ps => getStrategyKey (snd ps)) pairs').
Proof.
  intros Hrand Hnd Hn.
  induction remaining as [|p remaining IH]; intros pairs used k Hused Hin Hdistinct Hlen.
  - exists pairs, used, k. rewrite app_nil_r. auto.
  - cbn [fold_left]. cbn [List.length] in Hlen.
    destruct (assignStep_ok rand t n pairs used k p Hrand Hnd Hused)
      as (s & used' & k' & -> & Hs & Hfresh & Hused'); [lia| |].
    { intros Hp. destruct pairs; [contradiction | cbn in Hlen; lia]. }
    destruct (IH (pairs ++ [(p, s)])%list used' k') as (pairs' & used'' & k'' & Hf & Hm & Hi & Hd).
    + exact Hused'.
    + intros ps Hps. apply in_app_or in Hps as [Hps|[<-|[]]]; [now apply Hin | exact Hs].
    + rewrite List.map_app. apply NoDup_app. split; [exact Hdistinct|]. split.
      * intros x Hx [<-|[]]%list_elem_of_In. apply Hfresh. now apply list_elem_of_In in Hx.
      * apply NoDup_singleton.
    + rewrite length_app. cbn. lia.
    + exists pairs', used'', k''. split; [exact Hf|]. split; [|auto].
      rewrite Hm, List.map_app, <- app_assoc. reflexivity.
Qed.

(** X17.  Within one attack cycle the targets get different strategies:
    with random numbers in [0, 1), a roster whose strategies have
    distinct keys and no more targets than strategies, the assignment of
    [executeAttackCycle] does not throw, pairs every target (in order)
    with a strategy of the roster, and no two targets share a strategy.
    With the three strategies and three targets per cycle of the agent,
    every cycle therefore uses each strategy exactly once, whatever the
    trainer has learnt. *)
Theorem cycle_strategies_distinct
    (rand : nat -> Q) (k : nat) (t : trainer) (selectedTargets : list persona) :
  SecondCopy.unitInterval rand ->
  NoDup (map getStrategyKey (allStrategies t)) ->
  (List.length selectedTargets <= List.length (allStrategies t))%nat ->
  exists pairs usedStrategies k',
    assignStrategies rand k t selectedTargets = Returned (pairs, usedStrategies, k')
    /\ map fst pairs = selectedTargets
    /\ (forall ps, In ps pairs -> In (snd ps) (allStrategies t))
    /\ NoDup (map (fun ps => getStrategyKey (snd ps)) pairs).
Proof.
  intros Hrand Hnd Hlen. unfold assignStrategies.
  destruct (assign_fold rand t (List.length selectedTargets) Hrand Hnd Hlen
              selectedTargets [] ∅ k) as (pairs & used & k' & Hf & Hm & Hi & Hd).
  - intros x. cbn. rewrite elem_of_empty. tauto.
  - intros ps [].
  - apply NoDup_nil. exact I.
  - reflexivity.
  - exists pairs, used, k'. auto.
Qed.

Lemma cycle_strategies_distinct_witness :
  exists pairs usedStrategies k',
    targetStrategies (fun _ => 1 # 2) 0 freshTrainer = Returned (pairs, usedStrategies, k')
    /\ map fst pairs = selectBestTargets freshTrainer MAX_TARGETS_PER_CYCLE
    /\ (forall ps, In ps pairs -> In (snd ps) (allStrategies freshTrainer))
    /\ NoDup (map (fun ps => getStrategyKey (snd ps)) pairs).
Proof.
  apply (cycle_strategies_distinct (fun _ => 1 # 2) 1 freshTrainer
           (selectBestTargets freshTrainer MAX_TARGETS_PER_CYCLE)).
  - intros n. split; [discriminate | reflexivity].
  - apply (bool_decide_unpack _). vm_compute. exact I.
  - vm_compute. lia.
Defined.

End AttackCycleFacts.

(** ** Generated emails *)

Section GeneratedEmailFacts.
Import Js StrategyTrainer AttackAgent DefenseCycle Examples.

Lemma startsWith_prefix (p x : string) : startsWith (p ++ x) p = true.
Proof.
  induction p as [|c p IH]; [destruct x; reflexivity|].
  change (String c p ++ x) with (String c (p ++ x)). cbn [startsWith].
  rewrite Ascii.eqb_refl. exact IH.
Qed.

Lemma pick_member (r : Q) (l : list string) :
  (0 <= r < 1)%Q -> l <> [] -> In (pick r l) l.
Proof.
  intros Hr Hl. unfold pick. apply nth_In. apply randomIndex_lt; [exact Hr|].
  destruct l; [contradiction | cbn; lia].
Qed.

Lemma generated_sender_checks :
  forallb (fun name =>
    forallb (fun domain =>
      forallb (fun path =>
        let senderEmail := name ++ "@" ++ domain in
        let url := "https://" ++ domain ++ path in
        String.eqb (senderDomain senderEmail) domain
        && (AutonomousDefenseAgent.urlPoints [url] (toLowerCase senderEmail)
            =? (if String.eqb domain "vmware-support.com"
                   || String.eqb domain "redhat-support.com" then 5 else 0))%Z
        && negb (noreplySender (toLowerCase senderEmail))
        && externalSender (toLowerCase senderEmail))
      urlPaths) domains) senderNames = true.
Proof. vm_compute. reflexivity. Qed.

Lemma generated_sender_facts (name domain path : string) :
  In name senderNames -> In domain domains -> In path urlPaths ->
  let senderEmail := name ++ "@" ++ domain in
  let url := "https://" ++ domain ++ path in
  senderDomain senderEmail = domain
  /\ AutonomousDefenseAgent.urlPoints [url] (toLowerCase senderEmail)
     = (if String.eqb domain "vmware-support.com" || String.eqb domain "redhat-support.com"
        then 5 else 0)%Z
  /\ noreplySender (toLowerCase senderEmail) = false
  /\ externalSender (toLowerCase senderEmail) = true.
Proof.
  intros Hn Hd Hp. cbv zeta.
  pose proof generated_sender_checks as H.
  rewrite forallb_forall in H. specialize (H name Hn).
  rewrite forallb_forall in H. specialize (H domain Hd).
  rewrite forallb_forall in H. specialize (H path Hp).
  cbv zeta in H.
  apply andb_true_iff in H as [H H4]. apply andb_true_iff in H as [H H3].
  apply andb_true_iff in H as [H1 H2].
  apply String.eqb_eq in H1. apply Z.eqb_eq in H2. apply negb_true_iff in H3.
  auto.
Qed.

Lemma generated_mail_score
    (rand : nat -> Q) (k : nat) (r : Q)
    (dataSubject dataContent : string) (dataSender dataUrl : option string) :
  SecondCopy.unitInterval rand -> (0 <= r < 1)%Q ->
  let senderEmail := generateSenderEmail rand k in
  let e := generatedMail dataSubject dataContent dataSender dataUrl senderEmail r in
  match dataUrl with
  | Some u => includes u (senderDomain senderEmail) = false
  | None => True
  end ->
  urgencyCount e = 0%Z -> credentialCount e = 0%Z -> securityCount e = 0%Z ->
  v_riskScore (AutonomousDefenseAgent.classifyEmail e)
  = (if String.eqb (senderDomain senderEmail) "vmware-support.com"
        || String.eqb (senderDomain senderEmail) "redhat-support.com"
     then 40 else 35)%Z.
Proof.
  intros Hrand Hr. cbv zeta. intros Hurl Hu Hc Hs.
  assert (In (pick (rand k) domains) domains) as Hd
      by (apply pick_member; [apply Hrand | discriminate]).
  assert (In (pick (rand (S k)) senderNames) senderNames) as Hn
      by (apply pick_member; [apply Hrand | discriminate]).
  assert (In (pick r urlPaths) urlPaths) as Hp
      by (apply pick_member; [exact Hr | discriminate]).
  destruct (generated_sender_facts _ _ _ Hn Hd Hp) as (F1 & F2 & F3 & F4).
  fold (generateSenderEmail rand k) in F1, F2, F3, F4.
  set (se := generateSenderEmail rand k) in *.
  assert (emailUrl dataUrl se r
          = "https://" ++ pick (rand k) domains ++ pick r urlPaths) as Eurl.
  { unfold emailUrl. cbv zeta. rewrite F1.
    destruct dataUrl as [u|].
    - rewrite F1 in Hurl. rewrite Hurl, andb_false_r.
      now rewrite startsWith_prefix.
    - now rewrite startsWith_prefix. }
  pose proof (classifyEmail_score
                (generatedMail dataSubject dataContent dataSender dataUrl se r))
    as Hscore.
  cbv zeta in Hscore. rewrite Hu, Hc, Hs in Hscore.
  replace (urlsOfEmail (generatedMail dataSubject dataContent dataSender dataUrl se r))
    with [emailUrl dataUrl se r] in Hscore by reflexivity.
  replace (orEmpty (senderEmail
                      (generatedMail dataSubject dataContent dataSender dataUrl se r)))
    with se in Hscore by reflexivity.
  rewrite Eurl, F2, F3, F4 in Hscore. rewrite Hscore, F1.
  destruct (String.eqb _ _ || String.eqb _ _); reflexivity.
Qed.

(** X18.  An email of the attack agent whose link is the one the agent
    builds itself (sender domain plus one of its eight paths) and whose
    text holds none of the keywords of the inline scorer always passes
    the defense agent: whatever sender name, sender domain and path are
    drawn, the scorer rates it low, with score 35 (base 25 plus 10 for
    the external sender domain), or 40 when the sender domain is
    vmware-support.com or redhat-support.com, in whose URLs the shortener
    pattern finds "t.co". *)
Theorem generated_email_passes_defense
    (rand : nat -> Q) (k : nat) (r : Q)
    (dataSubject dataContent : string) (dataSender dataUrl : option string) :
  SecondCopy.unitInterval rand -> (0 <= r < 1)%Q ->
  let senderEmail := generateSenderEmail rand k in
  let e := generatedMail dataSubject dataContent dataSender dataUrl senderEmail r in
  match dataUrl with
  | Some u => includes u (senderDomain senderEmail) = false
  | None => True
  end ->
  urgencyCount e = 0%Z -> credentialCount e = 0%Z -> securityCount e = 0%Z ->
  v_riskLevel (AutonomousDefenseAgent.classifyEmail e) = low
  /\ v_riskScore (AutonomousDefenseAgent.classifyEmail e)
     = (if String.eqb (senderDomain senderEmail) "vmware-support.com"
           || String.eqb (senderDomain senderEmail) "redhat-support.com"
        then 40 else 35)%Z.
Proof.
  intros Hrand Hr. cbv zeta. intros Hurl Hu Hc Hs.
  pose proof (generated_mail_score rand k r dataSubject dataContent dataSender dataUrl
                Hrand Hr Hurl Hu Hc Hs) as Hscore.
  cbv zeta in Hscore. split; [|exact Hscore].
  rewrite classifyEmail_level, Hscore.
  destruct (String.eqb _ _ || String.eqb _ _); reflexivity.
Qed.

Lemma generated_email_passes_defense_witness :
  let e := generatedMail "Maintenance schedule" "Dear John, the maintenance plan is ready."
                         None None (generateSenderEmail (fun _ => 1 # 4) 0) 0 in
  v_riskLevel (AutonomousDefenseAgent.classifyEmail e) = low
  /\ v_riskScore (AutonomousDefenseAgent.classifyEmail e) = 40%Z.
Proof.
  apply (generated_email_passes_defense (fun _ => 1 # 4) 0 0
           "Maintenance schedule" "Dear John, the maintenance plan is ready." None None).
  - intros n. split; [discriminate | reflexivity].
  - split; [discriminate | reflexivity].
  - exact I.
  - vm_compute. reflexivity.
  - vm_compute. reflexivity.
  - vm_compute. reflexivity.
Defined.

Ltac eval_eqb :=
  repeat match goal with
         | |- context [String.eqb ?a ?b] =>
             let v := eval vm_compute in (String.eqb a b) in
             match v with
             | true => change (String.eqb a b) with true
             | false => change (String.eqb a b) with false
             end
         end.

Ltac split_score :=
  repeat match goal with
         | |- context [if ?b then _ else _] =>
             lazymatch b with
             | (_ <=? _)%Z => fail
             | _ => destruct b
             end
         end;
  repeat match goal with
         | |- context [if ?b then _ else _] => destruct b eqn:?
         end;
  try discriminate; try reflexivity;
  repeat match goal with
         | H : (_ <=? _)%Z = false |- _ => apply Z.leb_gt in H
         | H : (_ <=? _)%Z = true |- _ => apply Z.leb_le in H
         end;
  try lia.

(** X19.  The risk score that the attack agent stores with a generated
    email lies between 30 and 100, and for a strategy whose attack level
    is basic, advanced or expert it is at least 40, so the agent never
    labels such an email low; with both the expert level and critical
    urgency it is at least 85 and the label is high. *)
Theorem attacker_label_never_low
    (emailSubject emailContent : option string) (strategy : strategy) :
  (30 <= calculateRiskScore emailSubject emailContent strategy <= 100)%Z
  /\ (In (attackLevel strategy) ["basic"; "advanced"; "expert"] ->
      (40 <= calculateRiskScore emailSubject emailContent strategy)%Z
      /\ riskLevelOf (calculateRiskScore emailSubject emailContent strategy) <> low)
  /\ (attackLevel strategy = "expert" -> urgencyLevel strategy = "critical" ->
      riskLevelOf (calculateRiskScore emailSubject emailContent strategy) = high).
Proof.
  unfold calculateRiskScore, riskLevelOf. cbv zeta.
  split; [|split].
  - split_score.
  - intros [<-|[<-|[<-|[]]]]; eval_eqb; cbv iota; (split; [split_score|]); split_score.
  - intros -> ->. eval_eqb. cbv iota. split_score.
Qed.

Lemma attacker_label_never_low_witness :
  (40 <= calculateRiskScore (Some "Maintenance schedule") (Some "Routine update.")
           (mkStrategy "meta-llama/llama-3.1-8b-instruct" "basic" "medium"))%Z
  /\ riskLevelOf (calculateRiskScore (Some "Maintenance schedule") (Some "Routine update.")
                    (mkStrategy "meta-llama/llama-3.1-8b-instruct" "basic" "medium")) <> low.
Proof.
  apply (proj1 (proj2 (attacker_label_never_low (Some "Maintenance schedule")
                         (Some "Routine update.")
                         (mkStrategy "meta-llama/llama-3.1-8b-instruct" "basic" "medium")))).
  cbn. tauto.
Defined.

End GeneratedEmailFacts.

(** ** The defense cycle *)

Section DefenseCycleFacts.
Import StrategyTrainer AutonomousDefenseAgent DefenseCycle.

Lemma loop_suffix (p : storedEmail -> bool) (q : nat -> bool) (l2 : list storedEmail) :
  forall (pre : list storedEmail) (a : agent) (c : cycleCounts),
    (forall j x, l2 !! j = Some x -> q (List.length pre + j)%nat = p x) ->
    fold_left analyzeEmail (List.filter q (seq (List.length pre) (List.length l2)))
              (mkLoop (pre ++ l2) a c)
    = mkLoop (pre ++ map (fun e => if p e then processed e else e) l2)
             (fold_left tallyAgent (List.filter p l2) a)
             (fold_left tallyCounts (List.filter p l2) c).
Proof.
  induction l2 as [|x l2 IH]; intros pre a c Hq; [reflexivity|].
  cbn [List.length seq List.filter map].
  pose proof (Hq 0%nat x eq_refl) as Hx. rewrite Nat.add_0_r in Hx. rewrite Hx.
  assert (forall y, (pre ++ y :: l2)%list = ((pre ++ [y]) ++ l2)%list) as Happ
      by (intros y; rewrite <- app_assoc; reflexivity).
  assert (forall y j z, l2 !! j = Some z -> q (List.length (pre ++ [y]) + j)%nat = p z) as Hq'.
  { intros y j z Hz. rewrite length_app. cbn [List.length].
    replace (List.length pre + 1 + j)%nat with (List.length pre + S j)%nat by lia.
    apply Hq. exact Hz. }
  assert (forall y, S (List.length pre) = List.length (pre ++ [y])) as Hlen
      by (intros y; rewrite length_app; cbn; lia).
  destruct (p x).
  - cbn [fold_left]. unfold analyzeEmail at 2. cbn [l_emails l_agent l_counts].
    rewrite list_lookup_middle by reflexivity.
    rewrite insert_app_r_alt by lia. rewrite Nat.sub_diag. cbn [insert list_insert].
    rewrite (Happ (processed x)), (Hlen (processed x)), IH by apply Hq'.
    rewrite <- app_assoc. reflexivity.
  - rewrite (Happ x), (Hlen x), IH by apply Hq'.
    rewrite <- app_assoc. reflexivity.
Qed.

Lemma loop_as_map (p : storedEmail -> bool) (emails : list storedEmail) a c :
  fold_left analyzeEmail (indicesWhere p emails) (mkLoop emails a c)
  = mkLoop (map (fun e => if p e then processed e else e) emails)
           (fold_left tallyAgent (List.filter p emails) a)
           (fold_left tallyCounts (List.filter p emails) c).
Proof.
  unfold indicesWhere.
  apply (loop_suffix p (fun i => match emails !! i with Some x => p x | None => false end)
           emails [] a c).
  intros j x Hx. cbn. rewrite Hx. reflexivity.
Qed.

Lemma indicesWhere_length {A} (p : A -> bool) (l : list A) :
  List.length (indicesWhere p l) = List.length (List.filter p l).
Proof.
  unfold indicesWhere.
  assert (forall (l2 pre : list A) (q : nat -> bool),
            (forall j x, l2 !! j = Some x -> q (List.length pre + j)%nat = p x) ->
            List.length (List.filter q (seq (List.length pre) (List.length l2)))
            = List.length (List.filter p l2)) as H.
  { induction l2 as [|x l2 IH]; intros pre q Hq; [reflexivity|].
    cbn [List.length seq List.filter].
    pose proof (Hq 0%nat x eq_refl) as Hx. rewrite Nat.add_0_r in Hx. rewrite Hx.
    assert (S (List.length pre) = List.length (pre ++ [x])) as ->
        by (rewrite length_app; cbn; lia).
    assert (List.length (List.filter q (seq (List.length (pre ++ [x])) (List.length l2)))
            = List.length (List.filter p l2)) as E.
    { apply IH. intros j z Hz. rewrite length_app. cbn [List.length].
      replace (List.length pre + 1 + j)%nat with (List.length pre + S j)%nat by lia.
      now apply Hq. }
    destruct (p x); cbn [List.length]; now rewrite E. }
  apply (H l [] (fun i => match l !! i with Some x => p x | None => false end)).
  intros j x Hx. cbn. rewrite Hx. reflexivity.
Qed.

Lemma executeDefenseCycle_inbox a emails :
  executeDefenseCycle a (Inbox emails)
  = if Nat.eqb (List.length (List.filter (isNew a) emails)) 0
    then (mkAgent (countCycle (a_stats a)) (processedEmailIds a), None, None)
    else
      let a1 := fold_left tallyAgent (List.filter (isNew a) emails) a in
      let c1 := fold_left tallyCounts (List.filter (isNew a) emails) (mkCounts 0 0 0 0) in
      (mkAgent (addCounts c1 (a_stats a1)) (processedEmailIds a1),
       Some (map (fun e => if isNew a e then processed e else e) emails),
       Some c1).
Proof.
  unfold executeDefenseCycle. rewrite indicesWhere_length.
  destruct (Nat.eqb _ 0); [reflexivity|].
  rewrite loop_as_map. reflexivity.
Qed.

Lemma executeDefenseCycle_no_array a file :
  file = Missing \/ file = NotAnArray ->
  executeDefenseCycle a file
  = (mkAgent (countCycle (a_stats a)) (processedEmailIds a), None, None).
Proof. intros [->| ->]; reflexivity. Qed.

Lemma processed_fields email :
  se_id (processed email) = se_id email
  /\ se_mail (processed email) = se_mail email
  /\ se_clicked (processed email) = se_clicked email
  /\ se_events (processed email) = se_events email
  /\ detectionMetadata (processed email) = detectionMetadata email
  /\ mlClassification (processed email) = Some (classifyEmail (se_mail email))
  /\ se_status (processed email)
     = match riskOf email with
       | high => Some "blocked"
       | medium => Some "reported"
       | low => se_status email
       end.
Proof.
  unfold processed, riskOf. cbv zeta.
  destruct (v_riskLevel (classifyEmail (se_mail email))); repeat split; reflexivity.
Qed.

Lemma isNew_delivered a email : isNew a email = true -> se_status email = Some "delivered".
Proof.
  unfold isNew. intros H. apply andb_true_iff in H as [H _]. apply andb_true_iff in H as [H _].
  destruct (se_status email) as [s|]; [|discriminate].
  apply String.eqb_eq in H. now subst.
Qed.

(** X20.  A defense cycle that writes the inbox writes back the same
    emails in the same order, and touches only the new ones (status
    delivered, id not processed before, no detection metadata): each of
    these gets the verdict of the inline scorer and the status blocked
    when the verdict is high, reported when it is medium, and stays
    delivered when it is low; id, content, clicks and events are kept,
    and every other email is written back unchanged. *)
Theorem defense_cycle_verdicts (a : agent) (file : inboxFile) (written : list storedEmail) :
  snd (fst (executeDefenseCycle a file)) = Some written ->
  exists emails,
    file = Inbox emails
    /\ Forall2 (fun email email' =>
                  se_id email' = se_id email
                  /\ se_mail email' = se_mail email
                  /\ se_clicked email' = se_clicked email
                  /\ se_events email' = se_events email
                  /\ if isNew a email
                     then se_status email' = Some (statusFor (riskOf email))
                          /\ mlClassification email' = Some (classifyEmail (se_mail email))
                     else email' = email)
               emails written.
Proof.
  destruct file as [| | |emails]; try discriminate.
  rewrite executeDefenseCycle_inbox.
  destruct (Nat.eqb _ 0); [discriminate|]. cbv zeta. cbn [fst snd].
  intros [= <-]. exists emails. split; [reflexivity|].
  induction emails as [|e emails IH]; [constructor|].
  cbn [map]. constructor; [|exact IH].
  destruct (isNew a e) eqn:E; [|repeat split; reflexivity].
  destruct (processed_fields e) as (H1 & H2 & H3 & H4 & _ & H6 & H7).
  repeat split; try assumption.
  rewrite H7. unfold statusFor. destruct (riskOf e); try reflexivity.
  now apply (isNew_delivered a).
Qed.

Lemma defense_cycle_verdicts_witness :
  exists emails,
    Inbox MoreExamples.inbox3 = Inbox emails
    /\ Forall2 (fun email email' =>
                  se_id email' = se_id email
                  /\ se_mail email' = se_mail email
                  /\ se_clicked email' = se_clicked email
                  /\ se_events email' = se_events email
                  /\ if isNew MoreExamples.freshAgent email
                     then se_status email' = Some (statusFor (riskOf email))
                          /\ mlClassification email' = Some (classifyEmail (se_mail email))
                     else email' = email)
               emails MoreExamples.inbox3After.
Proof.
  apply (defense_cycle_verdicts MoreExamples.freshAgent (Inbox MoreExamples.inbox3)).
  vm_compute. reflexivity.
Defined.

Lemma tally_counts (l : list storedEmail) : forall c,
  fold_left tallyCounts l c
  = mkCounts (blockedCount c + rated high l) (reportedCount c + rated medium l)
             (bypassedCount c + rated low l) (analyzedCount c + List.length l).
Proof.
  unfold rated. induction l as [|e l IH]; intros c.
  - cbn. destruct c. cbn. f_equal; lia.
  - cbn [fold_left List.filter List.length]. rewrite IH. unfold tallyCounts.
    destruct (riskOf e); cbn [sameLevel List.length blockedCount reportedCount
                              bypassedCount analyzedCount]; f_equal; lia.
Qed.

Lemma tally_agent (l : list storedEmail) : forall a,
  a_stats (fold_left tallyAgent l a)
  = mkStats (totalCycles (a_stats a)) (totalEmailsAnalyzed (a_stats a))
            (totalEmailsBlocked (a_stats a)) (totalEmailsReported (a_stats a))
            (totalEmailsBypassed (a_stats a))
            (highRiskBlocked (a_stats a) + rated high l)
            (mediumRiskReported (a_stats a) + rated medium l)
            (lowRiskAllowed (a_stats a) + rated low l)
  /\ (forall x, x ∈ processedEmailIds (fold_left tallyAgent l a)
                <-> x ∈ processedEmailIds a \/ In x (map se_id l)).
Proof.
  unfold rated. induction l as [|e l IH]; intros a.
  - cbn. split; [destruct a as [[] ?]; cbn; f_equal; lia | tauto].
  - cbn [fold_left List.filter List.length map]. destruct (IH (tallyAgent a e)) as [-> Hp].
    split.
    + unfold tallyAgent. cbv zeta.
      destruct (riskOf e); cbn [sameLevel List.length a_stats totalCycles
        totalEmailsAnalyzed totalEmailsBlocked totalEmailsReported totalEmailsBypassed
        highRiskBlocked mediumRiskReported lowRiskAllowed]; f_equal; lia.
    + intros x. rewrite Hp. unfold tallyAgent. cbn [processedEmailIds In].
      rewrite elem_of_union, elem_of_singleton. intuition congruence.
Qed.

Lemma rated_partition (l : list storedEmail) :
  List.length l = (rated high l + rated medium l + rated low l)%nat.
Proof.
  unfold rated. induction l as [|e l IH]; [reflexivity|].
  cbn [List.filter List.length]. destruct (riskOf e); cbn [sameLevel List.length]; lia.
Qed.

(** X21.  The counters of the defense agent add up.  A cycle that could
    read the inbox (or found none) counts one more cycle; the emails it
    analyzes are the new ones, each is counted once as blocked, reported
    or bypassed according to its verdict, the totals and the per-level
    counters of the agent grow by these numbers, the ids of the analyzed
    emails join the processed ids, and the object returned reports the
    same numbers.  A cycle that cannot parse the inbox file changes
    nothing. *)
Theorem defense_cycle_counters (a : agent) (file : inboxFile) :
  let a' := fst (fst (executeDefenseCycle a file)) in
  let result := snd (executeDefenseCycle a file) in
  let new := newEmails a file in
  List.length new = (rated high new + rated medium new + rated low new)%nat
  /\ (file = Unreadable -> a' = a /\ result = None)
  /\ (file <> Unreadable ->
      totalCycles (a_stats a') = S (totalCycles (a_stats a))
      /\ totalEmailsAnalyzed (a_stats a')
         = (totalEmailsAnalyzed (a_stats a) + List.length new)%nat
      /\ totalEmailsBlocked (a_stats a') = (totalEmailsBlocked (a_stats a) + rated high new)%nat
      /\ totalEmailsReported (a_stats a')
         = (totalEmailsReported (a_stats a) + rated medium new)%nat
      /\ totalEmailsBypassed (a_stats a') = (totalEmailsBypassed (a_stats a) + rated low new)%nat
      /\ highRiskBlocked (a_stats a') = (highRiskBlocked (a_stats a) + rated high new)%nat
      /\ mediumRiskReported (a_stats a')
         = (mediumRiskReported (a_stats a) + rated medium new)%nat
      /\ lowRiskAllowed (a_stats a') = (lowRiskAllowed (a_stats a) + rated low new)%nat
      /\ (forall x, x ∈ processedEmailIds a'
                    <-> x ∈ processedEmailIds a \/ In x (map se_id new))
      /\ result = match new with
                  | [] => None
                  | _ => Some (mkCounts (rated high new) (rated medium new) (rated low new)
                                        (List.length new))
                  end).
Proof.
  cbv zeta. split; [apply rated_partition|]. split; [intros ->; split; reflexivity|].
  intros Hfile.
  assert (forall l : list storedEmail, l = [] ->
            (List.length l = 0 /\ rated high l = 0 /\ rated medium l = 0 /\ rated low l = 0)%nat)
    as Hnil by (intros l ->; repeat split; reflexivity).
  destruct file as [| | |emails]; try contradiction.
  - cbn. repeat split; try lia; tauto.
  - cbn. repeat split; try lia; tauto.
  - rewrite executeDefenseCycle_inbox. cbn [newEmails].
    destruct (List.filter (isNew a) emails) as [|e new] eqn:E.
    + cbn. repeat split; try lia; tauto.
    + cbn [List.length Nat.eqb]. cbv zeta. cbn [fst snd].
      destruct (tally_agent (e :: new) a) as [Hs Hp].
      rewrite tally_counts. cbn [a_stats processedEmailIds addCounts].
      rewrite Hs.
      cbn [totalCycles totalEmailsAnalyzed totalEmailsBlocked totalEmailsReported
           totalEmailsBypassed highRiskBlocked mediumRiskReported lowRiskAllowed
           blockedCount reportedCount bypassedCount analyzedCount].
      repeat split; try lia; try apply Hp.
Qed.

Lemma defense_cycle_counters_witness :
  totalEmailsAnalyzed
    (a_stats (fst (fst (executeDefenseCycle MoreExamples.freshAgent
                          (Inbox MoreExamples.inbox3)))))
  = (totalEmailsAnalyzed (a_stats MoreExamples.freshAgent)
     + List.length (newEmails MoreExamples.freshAgent (Inbox MoreExamples.inbox3)))%nat.
Proof.
  apply (defense_cycle_counters MoreExamples.freshAgent (Inbox MoreExamples.inbox3)).
  discriminate.
Defined.

Lemma processed_not_new a a' email :
  (forall x, x ∈ processedEmailIds a -> x ∈ processedEmailIds a') ->
  se_id email ∈ processedEmailIds a' ->
  isNew a' (if isNew a email then processed email else email) = false.
Proof.
  intros Hsub Hin. destruct (isNew a email) eqn:E.
  - unfold isNew. destruct (processed_fields email) as (-> & _).
    rewrite bool_decide_eq_true_2 by exact Hin.
    cbn [negb]. now rewrite andb_false_r.
  - unfold isNew. rewrite bool_decide_eq_true_2 by exact Hin.
    cbn [negb]. now rewrite andb_false_r.
Qed.

Lemma old_not_new a a' email :
  (forall x, x ∈ processedEmailIds a -> x ∈ processedEmailIds a') ->
  isNew a email = false -> isNew a' email = false.
Proof.
  intros Hsub. unfold isNew. intros H.
  destruct (match se_status email with Some s => String.eqb s "delivered" | None => false end);
    [|reflexivity].
  destruct (detectionMetadata email); [now rewrite andb_false_r|].
  cbn [andb negb] in *. rewrite andb_true_r in *.
  apply negb_false_iff, bool_decide_eq_true in H.
  apply negb_false_iff, bool_decide_eq_true. auto.
Qed.

Lemma filter_none {A} (p : A -> bool) (l : list A) :
  (forall x, In x l -> p x = false) -> List.filter p l = [].
Proof.
  induction l as [|x l IH]; intros H; [reflexivity|].
  cbn [List.filter]. rewrite (H x (or_introl eq_refl)).
  apply IH. intros y Hy. apply H. now right.
Qed.

(** X22.  No email is analyzed twice: when a defense cycle is followed by
    another one on the inbox as the first cycle left it, the second cycle
    finds no new email, writes nothing to the inbox and returns nothing,
    whatever the first cycle found and did. *)
Theorem defense_cycle_analyzes_once (a : agent) (file : inboxFile) :
  let a1 := fst (fst (executeDefenseCycle a file)) in
  let written := snd (fst (executeDefenseCycle a file)) in
  newEmails a1 (nextInbox written file) = []
  /\ snd (fst (executeDefenseCycle a1 (nextInbox written file))) = None
  /\ snd (executeDefenseCycle a1 (nextInbox written file)) = None
  /\ processedEmailIds (fst (fst (executeDefenseCycle a1 (nextInbox written file))))
     = processedEmailIds a1.
Proof.
  cbv zeta.
  assert (forall a1 file1, newEmails a1 file1 = [] ->
            snd (fst (executeDefenseCycle a1 file1)) = None
            /\ snd (executeDefenseCycle a1 file1) = None
            /\ processedEmailIds (fst (fst (executeDefenseCycle a1 file1)))
               = processedEmailIds a1) as Hquiet.
  { intros a1 [| | |emails] H; try (repeat split; reflexivity).
    rewrite executeDefenseCycle_inbox. cbn [newEmails] in H. rewrite H.
    repeat split; reflexivity. }
  assert (newEmails (fst (fst (executeDefenseCycle a file)))
                    (nextInbox (snd (fst (executeDefenseCycle a file))) file) = []) as Hnone.
  { destruct file as [| | |emails]; try reflexivity.
    rewrite executeDefenseCycle_inbox.
    destruct (List.filter (isNew a) emails) as [|e new] eqn:E.
    - cbn [List.length Nat.eqb fst snd nextInbox newEmails].
      apply filter_none. intros x Hx.
      destruct (isNew a x) eqn:Ex.
      + assert (In x (List.filter (isNew a) emails)) as Hin by (apply filter_In; auto).
        rewrite E in Hin. destruct Hin.
      + exact Ex.
    - cbn [List.length Nat.eqb]. cbv zeta. cbn [fst snd nextInbox newEmails].
      rewrite <- E. destruct (tally_agent (List.filter (isNew a) emails) a) as [_ Hp].
      apply filter_none. intros x Hx. apply in_map_iff in Hx as (y & <- & Hy).
      match goal with |- isNew ?A _ = false => set (a1 := A) end.
      assert (forall z, z ∈ processedEmailIds a -> z ∈ processedEmailIds a1) as Hsub.
      { intros z Hz. apply Hp. now left. }
      pose proof (processed_not_new a a1 y Hsub) as Hn.
      destruct (isNew a y) eqn:Ey.
      + apply Hn. apply Hp. right. apply in_map. apply filter_In. auto.
      + now apply (old_not_new a). }
  split; [exact Hnone|]. now apply Hquiet.
Qed.

Lemma lastWithId_unique (l : list inboxEmail) : forall i x,
  NoDup (map ie_id l) -> l !! i = Some x -> LedgerViews.lastWithId l (ie_id x) = Some x.
Proof.
  unfold LedgerViews.lastWithId.
  induction l as [|y l IH] using rev_ind; intros i x Hnd Hx; [discriminate|].
  rewrite rev_app_distr. cbn [rev app List.find].
  rewrite List.map_app in Hnd. apply NoDup_app in Hnd as (Hnd & Hfresh & _).
  destruct (decide (i < List.length l)%nat) as [Hlt|Hge].
  - rewrite lookup_app_l in Hx by exact Hlt.
    assert (ie_id y <> ie_id x) as Hne.
    { intros E. apply (Hfresh (ie_id x)).
      - apply list_elem_of_In, in_map, list_elem_of_In.
        apply list_elem_of_lookup. eauto.
      - rewrite <- E. cbn. apply list_elem_of_In. now left. }
    apply String.eqb_neq in Hne. rewrite Hne. now apply (IH i).
  - rewrite lookup_app_r in Hx by lia.
    destruct (i - List.length l)%nat; [|destruct n; discriminate].
    injection Hx as ->. now rewrite String.eqb_refl.
Qed.

Lemma processed_trainer_view a email :
  let email' := if isNew a email then processed email else email in
  ie_id (toInbox email') = se_id email
  /\ isClicked (toInbox email') = isClicked (toInbox email)
  /\ isBypassed (toInbox email')
     = if isNew a email then sameLevel (riskOf email) low else isBypassed (toInbox email).
Proof.
  cbv zeta. destruct (isNew a email) eqn:E; [|repeat split; reflexivity].
  destruct (processed_fields email) as (H1 & _ & H3 & H4 & _ & _ & H7).
  unfold isClicked, isBypassed, toInbox. cbn [ie_id clicked events status].
  rewrite H1, H3, H4, H7. repeat split; try reflexivity.
  rewrite (isNew_delivered a email E). destruct (riskOf email); reflexivity.
Qed.

Lemma statuses_of_written
    (a : agent) (emails : list storedEmail) (emailIds : list string)
    (i : nat) (email : storedEmail) :
  NoDup (map se_id emails) ->
  emails !! i = Some email ->
  se_id email ∈ emailIds ->
  getEmailStatuses
    (Some (map toInbox (map (fun e => if isNew a e then processed e else e) emails)))
    emailIds !! se_id email
  = Some (if isNew a email then sameLevel (riskOf email) low
          else isBypassed (toInbox email),
          isClicked (toInbox email)).
Proof.
  intros Hnd Hi Hin.
  unfold getEmailStatuses. cbv zeta.
  rewrite statuses_entry, bool_decide_eq_true_2 by exact Hin.
  rewrite map_map.
  set (view := fun e => toInbox (if isNew a e then processed e else e)).
  assert (map ie_id (map view emails) = map se_id emails) as Hids.
  { rewrite map_map. apply map_ext. intros e. apply (processed_trainer_view a e). }
  destruct (processed_trainer_view a email) as (Hid & Hc & Hb).
  assert (LedgerViews.lastWithId (map view emails) (se_id email) = Some (view email)) as Hl.
  { rewrite <- Hid. apply (lastWithId_unique _ i).
    - rewrite Hids. exact Hnd.
    - change (map view emails) with (view <$> emails).
      rewrite list_lookup_fmap, Hi. reflexivity. }
  rewrite (lookupTable_found _ _ _ Hl). cbn [statusOfEntry].
  unfold view. rewrite Hc, Hb. reflexivity.
Qed.

Lemma written_inbox (a : agent) (emails written : list storedEmail) :
  snd (fst (executeDefenseCycle a (Inbox emails))) = Some written ->
  written = map (fun e => if isNew a e then processed e else e) emails.
Proof.
  rewrite executeDefenseCycle_inbox.
  destruct (Nat.eqb _ 0); [discriminate|]. cbv zeta. cbn [fst snd]. congruence.
Qed.

(** X23.  The trainer learns the verdict of the defense agent.  When the
    inbox that a defense cycle wrote is read by [getEmailStatuses], an
    email that the cycle analyzed counts as bypassed exactly when the
    inline scorer rated it low (a blocked or reported email is a
    failure for the attacker), an email that the cycle left alone keeps
    its outcome, and clicks are reported as before; ids are assumed
    unique in the inbox. *)
Theorem trainer_sees_defense_verdict
    (a : agent) (emails written : list storedEmail) (emailIds : list string)
    (i : nat) (email : storedEmail) :
  snd (fst (executeDefenseCycle a (Inbox emails))) = Some written ->
  NoDup (map se_id emails) ->
  emails !! i = Some email ->
  se_id email ∈ emailIds ->
  getEmailStatuses (Some (map toInbox written)) emailIds !! se_id email
  = Some (if isNew a email then sameLevel (riskOf email) low
          else isBypassed (toInbox email),
          isClicked (toInbox email)).
Proof.
  intros Hw Hnd Hi Hin. apply written_inbox in Hw. subst written.
  now apply (statuses_of_written a emails emailIds i).
Qed.

Lemma trainer_sees_defense_verdict_witness :
  getEmailStatuses (Some (map toInbox MoreExamples.inbox3After)) ["email-2"] !! "email-2"
  = Some (false, false).
Proof.
  apply (trainer_sees_defense_verdict MoreExamples.freshAgent MoreExamples.inbox3
           MoreExamples.inbox3After ["email-2"] 1 MoreExamples.urgentLink).
  - vm_compute. reflexivity.
  - apply (bool_decide_unpack _). vm_compute. exact I.
  - reflexivity.
  - apply (bool_decide_unpack _). vm_compute. exact I.
Defined.

End DefenseCycleFacts.

(** ** The click-restoration script *)

Section RestoreClicksFacts.
Import StrategyTrainer DefenseCycle RestoreClicks.

Lemma alter_count_one (l : list storedEmail) : forall i e,
  l !! i = Some e -> clickedTrue e = false ->
  clickedCount (alter markClicked i l) = S (clickedCount l).
Proof.
  unfold clickedCount.
  induction l as [|x l IH]; intros i e Hi He; [discriminate|].
  destruct i as [|i].
  - injection Hi as ->. cbn [alter list_alter List.filter]. rewrite He. reflexivity.
  - cbn [alter list_alter List.filter]. cbn in Hi.
    specialize (IH i e Hi He).
    destruct (clickedTrue x); cbn [List.length]; cbn [alter] in IH; rewrite IH; reflexivity.
Qed.

Lemma fold_alter_count (idx : list nat) : forall l,
  NoDup idx ->
  (forall i, i ∈ idx -> exists e, l !! i = Some e /\ clickedTrue e = false) ->
  clickedCount (fold_left (fun emails i => alter markClicked i emails) idx l)
  = (clickedCount l + List.length idx)%nat.
Proof.
  induction idx as [|i idx IH]; intros l Hnd Hall; [cbn [fold_left List.length]; lia|].
  apply NoDup_cons in Hnd as [Hi Hnd].
  cbn [fold_left List.length]. rewrite IH.
  - destruct (Hall i) as (e & He & Hc); [apply elem_of_cons; now left|].
    rewrite (alter_count_one l i e He Hc). lia.
  - exact Hnd.
  - intros j Hj. destruct (Hall j) as (e & He & Hc); [apply elem_of_cons; now right|].
    exists e. split; [|exact Hc].
    rewrite list_lookup_alter_ne; [exact He|]. intros ->. contradiction.
Qed.

Lemma fold_alter_lookup (idx : list nat) : forall (l : list storedEmail) j,
  NoDup idx ->
  fold_left (fun emails i => alter markClicked i emails) idx l !! j
  = if bool_decide (j ∈ idx) then markClicked <$> l !! j else l !! j.
Proof.
  induction idx as [|i idx IH]; intros l j Hnd; [reflexivity|].
  apply NoDup_cons in Hnd as [Hi Hnd].
  cbn [fold_left]. rewrite IH by exact Hnd.
  destruct (decide (j = i)) as [->|Hne].
  - rewrite bool_decide_eq_false_2 by exact Hi.
    rewrite bool_decide_eq_true_2 by (apply elem_of_cons; now left).
    apply list_lookup_alter_eq.
  - rewrite list_lookup_alter_ne by congruence.
    destruct (bool_decide (j ∈ idx)) eqn:E.
    + apply bool_decide_eq_true in E.
      rewrite bool_decide_eq_true_2 by (apply elem_of_cons; now right). reflexivity.
    + apply bool_decide_eq_false in E.
      rewrite bool_decide_eq_false_2; [reflexivity|].
      rewrite elem_of_cons. intros [?|?]; congruence.
Qed.

Lemma candidates_facts (emails : list storedEmail) :
  let candidates :=
    List.filter (fun i => match emails !! i with
                          | Some e => notClicked e
                          | None => false
                          end) (indicesWhere bypassed emails) in
  NoDup candidates
  /\ forall i, i ∈ candidates ->
               exists e, emails !! i = Some e /\ bypassed e = true /\ notClicked e = true.
Proof.
  cbv zeta. unfold indicesWhere. split.
  - apply NoDup_ListNoDup. apply List.NoDup_filter, List.NoDup_filter, seq_NoDup.
  - intros i Hi. apply list_elem_of_In, filter_In in Hi as [Hi Hn].
    apply filter_In in Hi as [_ Hb].
    destruct (emails !! i) as [e|]; [|discriminate]. eauto.
Qed.

Lemma indicesWhere_count (emails : list storedEmail) :
  List.length (indicesWhere clickedTrue emails) = clickedCount emails.
Proof. apply indicesWhere_length. Qed.

Lemma fold_alter_length (idx : list nat) : forall l : list storedEmail,
  List.length (fold_left (fun emails i => alter markClicked i emails) idx l) = List.length l.
Proof.
  induction idx as [|i idx IH]; intros l; [reflexivity|].
  cbn [fold_left]. rewrite IH. apply length_alter.
Qed.

Lemma filter_twice {A} (p q : A -> bool) (l : list A) :
  List.filter q (List.filter p l) = List.filter (fun x => p x && q x) l.
Proof.
  induction l as [|x l IH]; [reflexivity|].
  cbn [List.filter]. destruct (p x); cbn [List.filter andb]; [|exact IH].
  destruct (q x); now rewrite IH.
Qed.

Lemma candidates_length (emails : list storedEmail) :
  List.length (List.filter (fun i => match emails !! i with
                                     | Some e => notClicked e
                                     | None => false
                                     end) (indicesWhere bypassed emails))
  = List.length (List.filter (fun e => bypassed e && notClicked e) emails).
Proof.
  rewrite <- (indicesWhere_length (fun e => bypassed e && notClicked e) emails).
  unfold indicesWhere. rewrite filter_twice. f_equal.
  apply filter_ext. intros i. destruct (emails !! i); reflexivity.
Qed.

(** X24.  The click-restoration script writes the inbox exactly when
    fewer than [targetClicks] (83) emails are clicked and enough bypassed
    emails without a click are left to reach 83; it writes nothing when
    the inbox already holds 83 clicks or more, or when too few such
    emails are left.  When it writes, exactly 83 emails of the written
    array are clicked.  The array keeps its length; an email that is
    written back changed was a bypassed email without a click and
    differs only in being clicked, so no click is removed and no blocked
    or reported email gets one. *)
Theorem restore_reaches_target (emails : list storedEmail) :
  (restoreClicks emails = None
   <-> (targetClicks <= clickedCount emails)%nat
       \/ (List.length (List.filter (fun e => bypassed e && notClicked e) emails)
           < targetClicks - clickedCount emails)%nat)
  /\ (forall written, restoreClicks emails = Some written ->
        (clickedCount emails < targetClicks)%nat
        /\ clickedCount written = targetClicks
        /\ List.length written = List.length emails
        /\ (forall i e', written !! i = Some e' ->
              exists e, emails !! i = Some e
                        /\ (e' = e
                            \/ (e' = markClicked e
                                /\ bypassed e = true /\ notClicked e = true)))).
Proof.
  unfold restoreClicks. cbv zeta. rewrite indicesWhere_count.
  destruct (candidates_facts emails) as [Hnd Hall]. cbv zeta in Hnd, Hall.
  set (candidates := List.filter _ (indicesWhere bypassed emails)) in *.
  assert (List.length candidates
          = List.length (List.filter (fun e => bypassed e && notClicked e) emails)) as Hlen.
  { apply candidates_length. }
  destruct ((0 <? _)%Z && _) eqn:E.
  - apply andb_true_iff in E as [E1 E2]. apply Z.ltb_lt in E1. apply Z.leb_le in E2.
    split; [split; [discriminate | intros [H|H]; exfalso; lia]|].
    intros written [= <-].
    set (k := Z.to_nat (Z.of_nat targetClicks - Z.of_nat (clickedCount emails))).
    assert (k = targetClicks - clickedCount emails)%nat as Hk by (unfold k; lia).
    assert (NoDup (firstn k candidates)) as Hnd'.
    { eapply sublist_NoDup; [exact Hnd | apply sublist_take]. }
    assert (forall i, i ∈ firstn k candidates -> i ∈ candidates) as Hsub.
    { intros i Hi. apply list_elem_of_In. apply list_elem_of_In in Hi.
      rewrite <- (firstn_skipn k candidates). apply in_or_app. now left. }
    split; [lia|]. split; [|split].
    + rewrite fold_alter_count.
      * rewrite length_firstn. lia.
      * exact Hnd'.
      * intros i Hi. destruct (Hall i (Hsub i Hi)) as (e & He & _ & Hn).
        exists e. split; [exact He|]. unfold clickedTrue. unfold notClicked in Hn.
        destruct (se_clicked e); congruence.
    + apply fold_alter_length.
    + intros i e'. rewrite fold_alter_lookup by exact Hnd'.
      destruct (bool_decide (i ∈ firstn k candidates)) eqn:Ei.
      * apply bool_decide_eq_true in Ei.
        destruct (Hall i (Hsub i Ei)) as (e & He & Hb & Hn).
        rewrite He. cbn. intros [= <-]. exists e. split; [reflexivity|]. right. auto.
      * intros He. exists e'. split; [exact He | now left].
  - split; [|intros written; discriminate].
    split; [intros _|reflexivity].
    apply andb_false_iff in E as [E|E].
    + apply Z.ltb_ge in E. left. lia.
    + apply Z.leb_gt in E. right. lia.
Qed.

End RestoreClicksFacts.

(** ** The ledger written by the data-restoration script *)

Section RestoreLedgerFacts.
Import StrategyTrainer Ledger DefenseCycle RestoreLedger.
Local Open Scope Q_scope.













End RestoreLedgerFacts.

(** ** Features and keyword counts *)

Section FeatureFacts.
Import Js DecisionTreeClassifier AttackAgent.
Local Open Scope Z_scope.

(** X26.  In every verdict of the decision tree the level follows from
    the score by the thresholds 70 and 40 (high from 70, medium from 40),
    the thresholds by which the attack agent labels its own emails, and
    not by the thresholds 75 and 50 of the inline scorer of the defense
    agent. *)
Theorem tree_level_follows_score (e : email) :
  v_riskLevel (fst (classify e)) = riskLevelOf (v_riskScore (fst (classify e)))
  /\ (forall f, v_riskLevel (classifyFeatures f) = riskLevelOf (v_riskScore (classifyFeatures f))).
Proof.
  assert (forall f, v_riskLevel (classifyFeatures f)
                    = riskLevelOf (v_riskScore (classifyFeatures f))) as H.
  { intros f. unfold classifyFeatures, buildDecisionTree, decide2. cbn [traverseTree].
    destruct (hasUrls f); [destruct (urlAuthenticityScore f <? 30)|];
      repeat match goal with
             | |- context [if ?b then _ else _] => destruct b; try reflexivity
             end; reflexivity. }
  split; [rewrite classify_of_features; apply H | exact H].
Qed.

Lemma lower_upper (c : ascii) : lowerAscii (upperAscii c) = lowerAscii c.
Proof.
  destruct c as [[] [] [] [] [] [] [] []]; vm_compute; reflexivity.
Qed.

Lemma toLowerCase_upper (s : string) : toLowerCase (toUpperCase s) = toLowerCase s.
Proof.
  unfold toLowerCase, toUpperCase. induction s as [|c s IH]; [reflexivity|].
  cbn [mapString]. rewrite lower_upper, IH. reflexivity.
Qed.

Lemma countFrom_includes (kw s : string) : forall skip,
  (1 <= countFrom skip kw s)%nat -> includes s kw = true.
Proof.
  induction s as [|c s IH]; intros skip H; [cbn in H; lia|].
  cbn [countFrom] in H. cbn [includes].
  destruct skip as [|k].
  - destruct (startsWith (String c s) kw); [reflexivity|].
    rewrite (IH _ H). apply orb_true_r.
  - rewrite (IH _ H). apply orb_true_r.
Qed.

Lemma countMatches_zero (kw s : string) :
  kw <> "" -> (countMatches kw s = 0%nat <-> includes s kw = false).
Proof.
  intros Hkw. unfold countMatches.
  destruct (String.eqb_spec kw ""); [contradiction|].
  split.
  - intros H. destruct (includes s kw) eqn:E; [|reflexivity].
    apply (includes_countFrom s kw Hkw) in E. lia.
  - intros H. destruct (countFrom 0 kw s) eqn:E; [reflexivity|].
    assert (1 <= countFrom 0 kw s)%nat as Hc by lia.
    apply countFrom_includes in Hc. congruence.
Qed.

Lemma count_sum_zero (g : string -> nat) (l : list string) :
  fold_left (fun count kw => count + Z.of_nat (g kw)) l 0 = 0
  <-> forall kw, In kw l -> g kw = 0%nat.
Proof.
  induction l as [|x l IH]; [cbn; tauto|].
  cbn [fold_left]. rewrite countMatches_acc.
  pose proof (countMatches_nonneg g l) as Hn.
  split.
  - intros H kw [<-|Hin]; [lia|]. apply IH; [lia | exact Hin].
  - intros H. rewrite (H x (or_introl eq_refl)).
    rewrite (proj2 IH); [reflexivity|]. intros kw Hin. apply H. now right.
Qed.

(** X27.  For a list of lower-case keywords without the empty string
    (as all ten lists of the analyzer are) the keyword counter ignores the
    case of the text, is never negative, and is zero exactly when none of
    the keywords occurs in the lower-cased text. *)
Theorem keyword_counts_ignore_case (text : string) (keywords : list string) :
  (forall kw, In kw keywords -> kw <> "" /\ toLowerCase kw = kw) ->
  KeywordAnalyzer.countKeywords (toUpperCase text) keywords
  = KeywordAnalyzer.countKeywords text keywords
  /\ KeywordAnalyzer.countKeywords (toLowerCase text) keywords
     = KeywordAnalyzer.countKeywords text keywords
  /\ 0 <= KeywordAnalyzer.countKeywords text keywords
  /\ (KeywordAnalyzer.countKeywords text keywords = 0
      <-> forall kw, In kw keywords -> includes (toLowerCase text) kw = false).
Proof.
  intros Hkw.
  unfold KeywordAnalyzer.countKeywords. cbv zeta.
  rewrite toLowerCase_upper, toLowerCase_idem.
  split; [reflexivity|]. split; [reflexivity|].
  split; [apply (countMatches_nonneg (fun kw => countMatches kw (toLowerCase text)))|].
  rewrite (count_sum_zero (fun kw => countMatches kw (toLowerCase text))).
  split; intros H kw Hin.
  - apply countMatches_zero; [apply (Hkw kw Hin) | auto].
  - apply countMatches_zero; [apply (Hkw kw Hin) | auto].
Qed.

Lemma keyword_counts_ignore_case_witness :
  KeywordAnalyzer.countKeywords "SEE YOU AT NOON" KeywordAnalyzer.scarcityKeywords
  = KeywordAnalyzer.countKeywords "See you at noon" KeywordAnalyzer.scarcityKeywords
  /\ (KeywordAnalyzer.countKeywords "See you at noon" KeywordAnalyzer.scarcityKeywords = 0
      <-> forall kw, In kw KeywordAnalyzer.scarcityKeywords ->
                     includes (toLowerCase "See you at noon") kw = false).
Proof.
  assert (forall kw, In kw KeywordAnalyzer.scarcityKeywords ->
                     kw <> "" /\ toLowerCase kw = kw) as H.
  { intros kw Hin. cbn in Hin.
    repeat (destruct Hin as [<-|Hin]; [split; [discriminate | reflexivity]|]).
    destruct Hin. }
  destruct (keyword_counts_ignore_case "See you at noon" KeywordAnalyzer.scarcityKeywords H)
    as (H1 & _ & _ & H4).
  split; [exact H1 | exact H4].
Defined.

Lemma indicators_fold (p : string -> bool) (l : list string) : forall a,
  a <= fold_left (fun score indicator => if p indicator then score + 5 else score) l a.
Proof.
  induction l as [|x l IH]; intros a; cbn [fold_left]; [lia|].
  specialize (IH (if p x then a + 5 else a)). destruct (p x); lia.
Qed.

(** X28.  The scores among the features all lie in their range: the URL,
    sender and grammar scores between 0 and 100, the domain reputation
    one of 30, 50, 60 and 90, the professionalism score between 50 and
    100, the seven keyword counts not negative; and an email without
    links has URL score 100 and none of the five URL flags. *)
Theorem feature_scores_in_range (e : email) :
  let f := extractFeatures e in
  0 <= urlAuthenticityScore f <= 100
  /\ 0 <= senderAuthenticityScore f <= 100
  /\ In (senderDomainReputation f) [30; 50; 60; 90]
  /\ 0 <= grammarScore f <= 100
  /\ 50 <= professionalismScore f <= 100
  /\ (0 <= urgencyKeywords f /\ 0 <= credentialKeywords f /\ 0 <= financialKeywords f
      /\ 0 <= securityKeywords f /\ 0 <= threatKeywords f /\ 0 <= callToActionKeywords f
      /\ 0 <= suspiciousPhrases f)
  /\ (hasUrls f = false ->
      urlAuthenticityScore f = 100
      /\ hasSuspiciousUrls f = false /\ hasUrlShorteners f = false
      /\ hasIpAddresses f = false /\ hasHttpLinks f = false
      /\ urlDomainMismatch f = false).
Proof.
  cbv zeta.
  cbn [extractFeatures urlAuthenticityScore senderAuthenticityScore senderDomainReputation
       grammarScore professionalismScore urgencyKeywords credentialKeywords
       financialKeywords securityKeywords threatKeywords callToActionKeywords
       suspiciousPhrases hasUrls hasSuspiciousUrls hasUrlShorteners hasIpAddresses
       hasHttpLinks urlDomainMismatch].
  split; [|split; [|split; [|split; [|split; [|split]]]]].
  - unfold URLAnalyzer.analyzeAuthenticity. destruct (Nat.eqb _ 0); lia.
  - unfold SenderAnalyzer.analyzeAuthenticity. destruct (String.eqb _ ""); cbv zeta; lia.
  - unfold SenderAnalyzer.analyzeDomainReputation.
    repeat match goal with |- context [if ?b then _ else _] => destruct b end;
      cbn; tauto.
  - unfold GrammarAnalyzer.analyzeGrammar. destruct (_ || _)%bool; cbv zeta; lia.
  - unfold GrammarAnalyzer.analyzeProfessionalism.
    destruct (String.eqb _ ""); [lia|]. cbv zeta.
    match goal with
    | |- context [fold_left ?step ?l 50] =>
        pose proof (indicators_fold
                      (fun indicator =>
                         includes (toLowerCase (toLowerCase (orEmpty (content e)))) indicator)
                      l 50) as Hf
    end.
    cbv beta in Hf.
    repeat match goal with |- context [if ?b then _ else _] => destruct b end; lia.
  - unfold KeywordAnalyzer.countUrgencyKeywords, KeywordAnalyzer.countCredentialKeywords,
      KeywordAnalyzer.countFinancialKeywords, KeywordAnalyzer.countSecurityKeywords,
      KeywordAnalyzer.countThreatKeywords, KeywordAnalyzer.countCallToActionKeywords,
      KeywordAnalyzer.countSuspiciousPhrases, KeywordAnalyzer.countKeywords.
    cbv zeta. repeat split; apply countMatches_nonneg.
  - intros H. apply Nat.ltb_ge in H.
    destruct (urlsOfEmail e) as [|u us]; [|cbn in H; lia].
    repeat split; reflexivity.
Qed.

End FeatureFacts.

(** ** From the attack agent through the defense cycle to the trainer *)

Section EndToEnd.
Import Js StrategyTrainer AutonomousDefenseAgent DefenseCycle AttackAgent Deployed.

(** X29.  The loop closes in favour of the attacker.  Take an email that
    the attack agent deploys with the link it builds itself and a text
    without any keyword of the inline scorer.  Once a defense cycle has
    analyzed it (it is new to the agent and ids are unique in the inbox),
    the status lookup of the trainer on the inbox that the cycle wrote
    reports it as bypassed and not clicked, so [learnFromCycle] records a
    success for its strategy, persona and combination. *)
Theorem stealth_email_is_learnt_as_bypass
    (rand : nat -> Q) (k : nat) (r : Q) (emailId dataSubject dataContent : string)
    (dataSender dataUrl : option string) (persona : persona) (strategy : strategy)
    (a : agent) (emails written : list storedEmail) (emailIds : list string) (i : nat) :
  SecondCopy.unitInterval rand -> (0 <= r < 1)%Q ->
  let senderEmail := generateSenderEmail rand k in
  let stored := deployedEmail emailId dataSubject dataContent dataSender dataUrl
                              senderEmail r persona strategy in
  match dataUrl with
  | Some u => includes u (senderDomain senderEmail) = false
  | None => True
  end ->
  urgencyCount (se_mail stored) = 0%Z ->
  credentialCount (se_mail stored) = 0%Z ->
  securityCount (se_mail stored) = 0%Z ->
  emails !! i = Some stored ->
  NoDup (map se_id emails) ->
  emailId ∉ processedEmailIds a ->
  emailId ∈ emailIds ->
  snd (fst (executeDefenseCycle a (Inbox emails))) = Some written ->
  riskOf stored = low
  /\ emailOutcome (getEmailStatuses (Some (map toInbox written)) emailIds)
                  (generatedOf emailId persona strategy)
     = (true, false).
Proof.
  intros Hrand Hr. cbv zeta. intros Hurl Hu Hc Hs Hi Hnd Hfresh Hin Hw.
  set (stored := deployedEmail emailId dataSubject dataContent dataSender dataUrl
                               (generateSenderEmail rand k) r persona strategy) in *.
  assert (riskOf stored = low) as Hlow.
  { unfold riskOf. rewrite classifyEmail_level.
    pose proof (generated_mail_score rand k r dataSubject dataContent dataSender dataUrl
                  Hrand Hr Hurl Hu Hc Hs) as Hscore.
    cbv zeta in Hscore. change (se_mail stored) with
      (generatedMail dataSubject dataContent dataSender dataUrl
                     (generateSenderEmail rand k) r).
    rewrite Hscore. destruct (String.eqb _ _ || String.eqb _ _); reflexivity. }
  split; [exact Hlow|].
  assert (isNew a stored = true) as Hnew.
  { unfold isNew. cbn [stored deployedEmail se_status se_id detectionMetadata].
    rewrite bool_decide_eq_false_2 by exact Hfresh. reflexivity. }
  apply written_inbox in Hw. subst written.
  pose proof (statuses_of_written a emails emailIds i stored Hnd Hi Hin) as Hst.
  rewrite Hnew, Hlow in Hst.
  unfold emailOutcome. cbn [generatedOf g_id].
  change (se_id stored) with emailId in Hst. rewrite Hst. reflexivity.
Qed.

Lemma stealth_email_is_learnt_as_bypass_witness :
  riskOf MoreExamples.stealthEmail = low
  /\ emailOutcome (getEmailStatuses (Some (map toInbox MoreExamples.stealthInboxAfter))
                                    ["email-9"])
                  (generatedOf "email-9" Examples.john
                     (mkStrategy "meta-llama/llama-3.1-8b-instruct" "basic" "medium"))
     = (true, false).
Proof.
  apply (stealth_email_is_learnt_as_bypass (fun _ => 1 # 4) 0 0 "email-9"
           "Maintenance schedule" "Dear John, the maintenance plan is ready."
           None None Examples.john
           (mkStrategy "meta-llama/llama-3.1-8b-instruct" "basic" "medium")
           MoreExamples.freshAgent [MoreExamples.stealthEmail]
           MoreExamples.stealthInboxAfter ["email-9"] 0).
  - intros n. split; [discriminate | reflexivity].
  - split; [discriminate | reflexivity].
  - exact I.
  - vm_compute. reflexivity.
  - vm_compute. reflexivity.
  - vm_compute. reflexivity.
  - reflexivity.
  - apply (bool_decide_unpack _). vm_compute. exact I.
  - apply (bool_decide_unpack _). vm_compute. exact I.
  - apply (bool_decide_unpack _). vm_compute. exact I.
  - vm_compute. reflexivity.
Defined.

End EndToEnd.
